(** * A shallow embedding of fat32.c

    The reader of FAT32 volume images: validation of the boot sector, the
    FS-info sector and the first two FAT slots ([main]), the recursive
    directory listing with long-name reconstruction ([readCluster]), path
    resolution ([fetchFile]) and file extraction ([copyFile]).

    Integers are [Z] with the wrap-around of their C type written out, bytes
    are [Z] in [0, 256), C strings are the list of their bytes before the
    terminating NUL.  The volume image, the file offset of the descriptor,
    the state of [strtok] and the global [foundFile] form the [World] that
    the program threads through its calls; what the program prints or writes
    to its output file is collected as a list of [Effect]s.

    The recursion of the program over cluster chains and subdirectories is
    not bounded (a chain of the FAT may loop), so the recursive functions
    take fuel.  A computation gives no result when the fuel runs out, and
    also where the C program has no defined behaviour: a product that
    overflows [int], a read that fills only part of an uninitialised buffer
    (the program never looks at what [read] returns), a long name of more
    than 260 code units.  The host is little-endian, [isspace] is that of
    the C locale, and [depth] is a natural number. *)

From Stdlib Require Import String Ascii ZArith List Bool Lia.
Import ListNotations.
Open Scope Z_scope.

Set Implicit Arguments.

(** ** Bytes, integers and C strings *)

Definition wrap8 (z : Z) : Z := z mod 256.
Definition wrap32 (z : Z) : Z := z mod 4294967296.
Definition INT_MAX : Z := 2147483647.

(** Little-endian decoding, as done by reading a packed struct on the host. *)
Definition byte_at (buf : list Z) (k : nat) : Z := nth k buf 0.
Definition le16 (buf : list Z) (k : nat) : Z :=
  byte_at buf k + 256 * byte_at buf (k + 1).
Definition le32 (buf : list Z) (k : nat) : Z :=
  le16 buf k + 65536 * le16 buf (k + 2).

Definition slice (buf : list Z) (k len : nat) : list Z :=
  firstn len (skipn k buf).

(** The bytes of a C string held in a buffer: those before the first NUL. *)
Fixpoint cstr (buf : list Z) : list Z :=
  match buf with
  | [] => []
  | b :: rest => if b =? 0 then [] else b :: cstr rest
  end.

Fixpoint bytes_eqb (a b : list Z) : bool :=
  match a, b with
  | [], [] => true
  | x :: a', y :: b' => (x =? y) && bytes_eqb a' b'
  | _, _ => false
  end.

(** [strcmp (a, b) == 0] on C strings. *)
Definition strcmp0 (a b : list Z) : bool := bytes_eqb a b.

Definition bytes_of_string (s : string) : list Z :=
  map (fun c => Z.of_N (N_of_ascii c)) (list_ascii_of_string s).

(** [isspace] in the C locale. *)
Definition isspace (c : Z) : bool :=
  (c =? 32) || ((9 <=? c) && (c <=? 13)).

(** ** fat32.h *)

(** Modelled from the spec: the header fat32.h is not among the sources.  Its
    constants and the layout of its packed structs are those of the FAT32
    on-disk format that the spec names: 32-byte directory slots, the
    attribute flags, the long-name marker (attribute masked by 0x3F equal to
    0x0F), the "last fragment" flag in the order byte, and the end-of-chain
    bound 0x0FFFFFF8 that the glossary gives for EOC. *)
Module Fat32H.

Definition ATTR_READ_ONLY : Z := 0x01.
Definition ATTR_HIDDEN : Z := 0x02.
Definition ATTR_SYSTEM : Z := 0x04.
Definition ATTR_VOLUME_ID : Z := 0x08.
Definition ATTR_DIRECTORY : Z := 0x10.
Definition ATTR_ARCHIVE : Z := 0x20.
Definition ATTR_LONG_NAME : Z := 0x0F.
Definition ATTR_LONG_NAME_MASK : Z := 0x3F.
Definition LAST_LONG_ENTRY : Z := 0x40.
Definition EOC : Z := 0x0FFFFFF8.

Definition BS_OEMName_LENGTH : nat := 8.
Definition BS_VolLab_LENGTH : nat := 11.
Definition BPB_reserved_LENGTH : nat := 12.

Definition sizeof_fat32BS : nat := 512.
Definition sizeof_fat32FSInfo : nat := 512.
Definition sizeof_DirInfo : nat := 32.
Definition sizeof_LongNameDirInfo : nat := 32.

(** struct fat32BS, the fields the program reads. *)
Record fat32BS := mkBS {
  BS_jmpBoot : list Z;
  BS_OEMName : list Z;
  BPB_BytesPerSec : Z;
  BPB_SecPerClus : Z;
  BPB_RsvdSecCnt : Z;
  BPB_NumFATs : Z;
  BPB_Media : Z;
  BPB_TotSec32 : Z;
  BPB_FATSz32 : Z;
  BPB_RootClus : Z;
  BPB_FSInfo : Z;
  BPB_reserved : list Z;
  BS_VolLab : list Z
}.

Definition decode_fat32BS (buf : list Z) : fat32BS :=
  {| BS_jmpBoot := slice buf 0 3;
     BS_OEMName := slice buf 3 BS_OEMName_LENGTH;
     BPB_BytesPerSec := le16 buf 11;
     BPB_SecPerClus := byte_at buf 13;
     BPB_RsvdSecCnt := le16 buf 14;
     BPB_NumFATs := byte_at buf 16;
     BPB_Media := byte_at buf 21;
     BPB_TotSec32 := le32 buf 32;
     BPB_FATSz32 := le32 buf 36;
     BPB_RootClus := le32 buf 44;
     BPB_FSInfo := le16 buf 48;
     BPB_reserved := slice buf 52 BPB_reserved_LENGTH;
     BS_VolLab := slice buf 71 BS_VolLab_LENGTH |}.

(** struct fat32FSInfo. *)
Record fat32FSInfo := mkFSInfo {
  lead_sig : Z;
  free_count : Z
}.

Definition decode_fat32FSInfo (buf : list Z) : fat32FSInfo :=
  {| lead_sig := le32 buf 0;
     free_count := le32 buf 488 |}.

(** struct DirInfo. *)
Record DirInfo := mkDirInfo {
  dir_name : list Z;
  dir_attr : Z;
  dir_first_cluster_hi : Z;
  dir_first_cluster_lo : Z;
  dir_file_size : Z
}.

Definition decode_DirInfo (buf : list Z) : DirInfo :=
  {| dir_name := slice buf 0 11;
     dir_attr := byte_at buf 11;
     dir_first_cluster_hi := le16 buf 20;
     dir_first_cluster_lo := le16 buf 26;
     dir_file_size := le32 buf 28 |}.

(** struct LongNameDirInfo; the three name fields hold 5, 6 and 2 UTF-16
    code units. *)
Record LongNameDirInfo := mkLongNameDirInfo {
  LDIR_Ord : Z;
  LDIR_Name1 : list Z;
  LDIR_Attr : Z;
  LDIR_Type : Z;
  LDIR_Chksum : Z;
  LDIR_Name2 : list Z;
  LDIR_Name3 : list Z
}.

Definition units (buf : list Z) (k count : nat) : list Z :=
  map (fun j => le16 buf (k + 2 * j)) (seq 0 count).

Definition decode_LongNameDirInfo (buf : list Z) : LongNameDirInfo :=
  {| LDIR_Ord := byte_at buf 0;
     LDIR_Name1 := units buf 1 5;
     LDIR_Attr := byte_at buf 11;
     LDIR_Type := byte_at buf 12;
     LDIR_Chksum := byte_at buf 13;
     LDIR_Name2 := units buf 14 6;
     LDIR_Name3 := units buf 28 2 |}.

End Fat32H.
Import Fat32H.

Definition SIZE_OF_FAT_ENTRY : Z := 32.
Definition BITS_PER_BYTE : Z := 8.
Definition BYTES_PER_KB : Z := 1024.
Definition END_OF_CLUSTER_CHAIN : Z := 0x0ffffff8.
Definition MASK_FIRST_HEX : Z := 0x0fffffff.

(** ** ChkSum *)

(** One turn of the loop of [ChkSum]: [Sum] is an unsigned char, so the sum
    is truncated to 8 bits when it is stored. *)
Definition ChkSum_step (Sum b : Z) : Z :=
  wrap8 ((if Z.land Sum 1 =? 0 then 0 else 0x80) + Z.shiftr Sum 1 + b).

(** The loop runs [FcbNameLen] from 11 down to 0 and advances [pFcbName]. *)
Fixpoint ChkSum_loop (FcbNameLen : nat) (Sum : Z) (pFcbName : list Z) : Z :=
  match FcbNameLen with
  | O => Sum
  | S n =>
      match pFcbName with
      | [] => ChkSum_loop n (ChkSum_step Sum 0) []
      | b :: rest => ChkSum_loop n (ChkSum_step Sum b) rest
      end
  end.

Definition ChkSum (pFcbName : list Z) : Z := ChkSum_loop 11 0 pFcbName.

(** The reference definition, in the words of the spec: the rotate-right-sum
    [sum = ((sum & 1) ? 0x80 : 0) + (sum >> 1) + byte], kept in a byte,
    iterated over the name bytes starting from 0. *)
Definition rotate_right_sum (sum b : Z) : Z :=
  ((if Z.odd sum then 128 else 0) + sum / 2 + b) mod 256.

Definition ChkSum_reference (name : list Z) : Z :=
  fold_left rotate_right_sum name 0.

(** ** removeTrailingSpace *)

(** [end] starts at the last character and moves left while it is after the
    first character and points at a space; the result ends after [end].  The
    first character is never removed.  [e] is the index of [end]. *)
Fixpoint removeTrailingSpace_loop (s : list Z) (e : nat) : nat :=
  match e with
  | O => O
  | S e' => if isspace (nth e s 0) then removeTrailingSpace_loop s e' else e
  end.

Definition removeTrailingSpace (s : list Z) : list Z :=
  match length s with
  | O => []
  | S n => firstn (S (removeTrailingSpace_loop s n)) s
  end.

(** ** strtok with the delimiter "/" *)

Definition SLASH : Z := 47.
Definition DOT : Z := 46.
Definition SPACE : Z := 32.

Fixpoint skip_delims (s : list Z) : list Z :=
  match s with
  | [] => []
  | c :: rest => if c =? SLASH then skip_delims rest else s
  end.

Fixpoint span_token (s : list Z) : list Z * list Z :=
  match s with
  | [] => ([], [])
  | c :: rest =>
      if c =? SLASH then ([], rest)
      else let (t, r) := span_token rest in (c :: t, r)
  end.

(** The token found in [s], if any, and the string the next call starts at. *)
Definition strtok_from (s : list Z) : option (list Z) * list Z :=
  match skip_delims s with
  | [] => (None, [])
  | s' => let (t, r) := span_token s' in (Some t, r)
  end.

(** ** The world and the monad of the program *)

Inductive OpenFlags := O_RDONLY | O_WRONLY | O_RDWR.

(** The file behind [fd] with its offset, the saved pointer of [strtok], and
    the global [foundFile]. *)
Record World := mkWorld {
  fd_image : list Z;
  fd_flags : option OpenFlags;
  fd_offset : Z;
  strtok_save : list Z;
  foundFile : bool
}.

Inductive Label :=
| LongNameDirectory | ShortNameDirectory | Directory
| LongNameFile | ShortNameFile.

(** What the program sends to stdout and to its output file.  A listing line
    is [depth] dashes, a label and a name. *)
Inductive Effect :=
| Printf (msg : string)
| PrintNum (msg : string) (n : Z)
| PrintStr (msg : string) (s : list Z)
| PrintEntry (depth : nat) (l : Label) (text : list Z)
| Fopen (destination : list Z)
| Fwrite (bytes : list Z)
| Fclose.

(** A computation takes a world and gives a value, the world after it and
    the effects it produced, or no result: the fuel of a loop ran out, or
    the C program has no defined behaviour there (see [undefined]). *)
Definition M (A : Type) : Type := World -> option (A * World * list Effect).

Definition ret {A} (a : A) : M A := fun w => Some (a, w, []).

Definition bind {A B} (m : M A) (f : A -> M B) : M B :=
  fun w =>
    match m w with
    | None => None
    | Some (a, w1, o1) =>
        match f a w1 with
        | None => None
        | Some (b, w2, o2) => Some (b, w2, o1 ++ o2)
        end
    end.

Declare Scope prog_scope.
Delimit Scope prog_scope with prog.
Notation "x <- m ;; k" := (bind m (fun x => k))
  (at level 61, m at next level, right associativity) : prog_scope.
Notation "m ;; k" := (bind m (fun _ => k))
  (at level 61, right associativity) : prog_scope.
Open Scope prog_scope.

(** No result: a signed overflow, a read that leaves part of an
    uninitialised buffer as it was, a write past the end of a buffer. *)
Definition undefined {A} : M A := fun _ => None.
Definition out_of_fuel {A} : M A := fun _ => None.

Definition emit (e : Effect) : M unit := fun w => Some (tt, w, [e]).

Definition output {A} (r : option (A * World * list Effect)) : list Effect :=
  match r with
  | Some (_, _, o) => o
  | None => []
  end.

(** *** The calls on the descriptor *)

Definition sys_open (flags : OpenFlags) : M unit :=
  fun w => Some (tt, mkWorld (fd_image w) (Some flags) 0
                             (strtok_save w) (foundFile w), []).

(** [lseek (fd, off, SEEK_SET)]; a negative offset is refused and the offset
    stays where it was. *)
Definition lseek (off : Z) : M unit :=
  fun w => Some (tt, mkWorld (fd_image w) (fd_flags w)
                             (if off <? 0 then fd_offset w else off)
                             (strtok_save w) (foundFile w), []).

(** [read (fd, buf, count)]: the bytes of the image from the offset on, at
    most [count] of them; the offset moves past them. *)
Definition sys_read (count : nat) : M (list Z) :=
  fun w =>
    let got := slice (fd_image w) (Z.to_nat (fd_offset w)) count in
    Some (got, mkWorld (fd_image w) (fd_flags w)
                       (fd_offset w + Z.of_nat (length got))
                       (strtok_save w) (foundFile w), []).

(** A read into a global, which starts zeroed: the bytes not read are 0. *)
Definition read_static (count : nat) : M (list Z) :=
  got <- sys_read count ;;
  ret (got ++ repeat 0 (count - length got)).

(** A read into a local or into malloc'ed memory.  The program does not look
    at what [read] returns; after a short read the rest of the buffer is
    indeterminate or left over from an earlier turn, and the model gives no
    result. *)
Definition read_struct (count : nat) : M (list Z) :=
  got <- sys_read count ;;
  if (length got <? count)%nat then undefined else ret got.

(** The four bytes of a [uint32_t] in memory, on the little-endian host. *)
Definition u32_bytes (v : Z) : list Z :=
  [v mod 256; (v / 256) mod 256; (v / 65536) mod 256; (v / 16777216) mod 256].

(** A read into a variable that holds the bytes [old]: the bytes read
    replace its first bytes, and after a short read the others stay as they
    were. *)
Definition read_over (old : list Z) (count : nat) : M (list Z) :=
  got <- sys_read count ;;
  ret (got ++ skipn (length got) old).

Definition set_foundFile (b : bool) : M unit :=
  fun w => Some (tt, mkWorld (fd_image w) (fd_flags w) (fd_offset w)
                             (strtok_save w) b, []).

Definition get_foundFile : M bool := fun w => Some (foundFile w, w, []).

(** [strtok (str, "/")] with [str] a string or NULL. *)
Definition strtok (str : option (list Z)) : M (option (list Z)) :=
  fun w =>
    let s := match str with Some s => s | None => strtok_save w end in
    let (tok, rest) := strtok_from s in
    Some (tok, mkWorld (fd_image w) (fd_flags w) (fd_offset w)
                       rest (foundFile w), []).

(** The product of two values promoted to [int]. *)
Definition int_mul (a b : Z) : M Z :=
  if a * b <=? INT_MAX then ret (a * b) else undefined.

(** ** The globals set by main *)

Record Globals := mkGlobals {
  bootSector : fat32BS;
  infoSector : fat32FSInfo;
  fatSectorStart : Z;
  dataSectorLocationInSectors : Z;
  entriesPerCluster : Z;
  bytesPerCluster : Z
}.

(** The offset of the first byte of a cluster of the data region;
    [clusterNum - 2] is computed on uint32_t, the rest on off_t, which the
    values that main computes from 8-, 16- and 32-bit fields do not
    overflow. *)
Definition clusterOffset (g : Globals) (clusterNum : Z) : Z :=
  dataSectorLocationInSectors g * BPB_BytesPerSec (bootSector g)
  + wrap32 (clusterNum - 2) * bytesPerCluster g.

Definition slotOffset (g : Globals) (clusterNum i : Z) : Z :=
  clusterOffset g clusterNum + i * Z.of_nat sizeof_DirInfo.

(** ** getNextFatValue *)

Definition getNextFatValue (g : Globals) (currentCluster : Z) : M Z :=
  lseek (fatSectorStart g
         + wrap32 ((SIZE_OF_FAT_ENTRY / BITS_PER_BYTE) * currentCluster)) ;;
  buf <- read_struct (Z.to_nat (SIZE_OF_FAT_ENTRY / BITS_PER_BYTE)) ;;
  ret (le32 buf 0).

(** ** readCluster *)

Definition has_flag (attr flag : Z) : bool := Z.land attr flag =? flag.

Definition is_long_name (attr : Z) : bool :=
  Z.land attr ATTR_LONG_NAME_MASK =? ATTR_LONG_NAME.

(** The two conditions on [dir_attr] that select a visible directory and a
    visible file. *)
Definition is_directory (attr : Z) : bool :=
  negb (is_long_name attr) && has_flag attr ATTR_DIRECTORY
  && negb (has_flag attr ATTR_HIDDEN) && negb (has_flag attr ATTR_SYSTEM)
  && negb (has_flag attr ATTR_VOLUME_ID).

Definition is_file (attr : Z) : bool :=
  negb (is_long_name attr) && negb (has_flag attr ATTR_DIRECTORY)
  && negb (has_flag attr ATTR_HIDDEN) && negb (has_flag attr ATTR_SYSTEM)
  && negb (has_flag attr ATTR_VOLUME_ID).

(** The cluster an entry starts at: the two halves combined, then masked. *)
Definition first_cluster (d : DirInfo) : Z :=
  Z.land (Z.lor (Z.shiftl (dir_first_cluster_hi d) 16) (dir_first_cluster_lo d))
         MASK_FIRST_HEX.

(** The variables of [readCluster] that hold a long name while
    [longNameStarted] is true; [charsAdded] is the length of
    [totalLongName], which has room for 260 code units. *)
Record LongNameVars := mkLongNameVars {
  totalLongName : list Z;
  numLongNameEntries : nat;
  checkSum : Z;
  previousNameOrder : Z
}.

(** [longNameStarted] is false: [None]. *)
Definition LongNameState : Type := option LongNameVars.

Definition LONG_NAME_CAPACITY : nat := 260.

Definition fragment_units (l : LongNameDirInfo) : list Z :=
  LDIR_Name1 l ++ LDIR_Name2 l ++ LDIR_Name3 l.

(** The code units printed for a long name: the fragments from the last one
    read to the first, each from its first unit to its 13th, without the
    units 0x0000 and 0xFFFF. *)
Definition longNameText (v : LongNameVars) : list Z :=
  filter (fun u => negb (u =? 0x0000) && negb (u =? 0xFFFF))
         (flat_map (fun i => slice (totalLongName v) (i * 13) 13)
                   (rev (seq 0 (numLongNameEntries v)))).

Definition shortFileText (givenName nameExtension : list Z) : list Z :=
  if (length nameExtension =? 1)%nat && (nth 0 nameExtension 0 =? SPACE)
  then givenName
  else givenName ++ [DOT] ++ nameExtension.

Section ReadCluster.

Variable g : Globals.
(** The recursive calls of [readCluster], on a subdirectory and on the next
    cluster of the chain. *)
Variable readCluster_rec : Z -> nat -> M unit.

Definition read_long_slot (clusterNum i : Z) : M LongNameDirInfo :=
  lseek (clusterOffset g clusterNum + i * Z.of_nat sizeof_LongNameDirInfo) ;;
  buf <- read_struct sizeof_LongNameDirInfo ;;
  ret (decode_LongNameDirInfo buf).

(** The body of the loop for a slot that is neither the end of the
    directory nor skipped. *)
Definition readCluster_entry (clusterNum : Z) (depth : nat) (i : Z)
    (currentDir : DirInfo) (ln : LongNameState) : M LongNameState :=
  let entryName := dir_name currentDir in
  let givenName := removeTrailingSpace (cstr (slice entryName 0 8)) in
  let nameExtension := cstr (slice entryName 8 3) in
  let attr := dir_attr currentDir in
  if is_directory attr then
    match ln with
    | Some v =>
        if checkSum v =? ChkSum entryName then
          emit (PrintEntry depth LongNameDirectory (longNameText v)) ;;
          emit (PrintEntry depth ShortNameDirectory givenName)
        else
          emit (PrintEntry depth Directory givenName)
    | None => emit (PrintEntry depth Directory givenName)
    end ;;
    readCluster_rec (first_cluster currentDir) (S depth) ;;
    ret None
  else if is_file attr then
    let nameExtension := removeTrailingSpace nameExtension in
    match ln with
    | Some v =>
        if checkSum v =? ChkSum entryName then
          emit (PrintEntry depth LongNameFile (longNameText v)) ;;
          emit (PrintEntry depth ShortNameFile
                           (shortFileText givenName nameExtension))
        else
          emit (PrintEntry depth ShortNameFile
                           (shortFileText givenName nameExtension))
    | None =>
        emit (PrintEntry depth ShortNameFile
                         (shortFileText givenName nameExtension))
    end ;;
    ret None
  else if is_long_name attr then
    currentLongDir <- read_long_slot clusterNum i ;;
    match ln with
    | None =>
        if (Z.land (LDIR_Ord currentLongDir) LAST_LONG_ENTRY
            =? LAST_LONG_ENTRY)
           && (LDIR_Type currentLongDir =? 0)
        then ret (Some {| totalLongName := fragment_units currentLongDir;
                          numLongNameEntries := 1;
                          checkSum := LDIR_Chksum currentLongDir;
                          previousNameOrder := LDIR_Ord currentLongDir |})
        else ret None
    | Some v =>
        if (checkSum v =? LDIR_Chksum currentLongDir)
           && (LDIR_Ord currentLongDir <? previousNameOrder v)
           && (LDIR_Type currentLongDir =? 0)
        then
          if (LONG_NAME_CAPACITY <? length (totalLongName v) + 13)%nat
          then undefined
          else ret (Some {| totalLongName :=
                              totalLongName v ++ fragment_units currentLongDir;
                            numLongNameEntries := S (numLongNameEntries v);
                            checkSum := checkSum v;
                            previousNameOrder := LDIR_Ord currentLongDir |})
        else ret None
    end
  else ret None.

(** One turn of the loop over the slots: the state of the long name after
    it, and whether the loop is left by [break]. *)
Definition readCluster_slot (clusterNum : Z) (depth : nat) (i : Z)
    (ln : LongNameState) : M (LongNameState * bool) :=
  lseek (slotOffset g clusterNum i) ;;
  buf <- read_struct sizeof_DirInfo ;;
  let currentDir := decode_DirInfo buf in
  let entryName := dir_name currentDir in
  if nth 0 entryName 0 =? 0x00 then ret (ln, true)
  else if ((1 <? i) || (depth =? 0)%nat)
          && negb (nth 0 entryName 0 =? 0xE5)
  then
    ln' <- readCluster_entry clusterNum depth i currentDir ln ;;
    ret (ln', false)
  else ret (ln, false).

(** [for (int i = 0; i < entriesPerCluster; i++)], with [n] turns left. *)
Fixpoint readCluster_loop (clusterNum : Z) (depth : nat) (n : nat) (i : Z)
    (ln : LongNameState) : M LongNameState :=
  match n with
  | O => ret ln
  | S n' =>
      r <- readCluster_slot clusterNum depth i ln ;;
      if snd r then ret (fst r)
      else readCluster_loop clusterNum depth n' (i + 1) (fst r)
  end.

Definition readCluster_step (clusterNum : Z) (depth : nat) : M unit :=
  readCluster_loop clusterNum depth (Z.to_nat (entriesPerCluster g)) 0 None ;;
  newCluster <- getNextFatValue g clusterNum ;;
  let newCluster := Z.land newCluster MASK_FIRST_HEX in
  if newCluster <? END_OF_CLUSTER_CHAIN
  then readCluster_rec newCluster depth
  else ret tt.

End ReadCluster.

Fixpoint readCluster (fuel : nat) (g : Globals) (clusterNum : Z) (depth : nat)
    : M unit :=
  match fuel with
  | O => out_of_fuel
  | S fuel' => readCluster_step g (readCluster fuel' g) clusterNum depth
  end.

(** ** copyFile *)

(** The while loop of [copyFile]; each turn takes one unit of fuel. *)
Fixpoint copyFile_loop (fuel : nat) (g : Globals) (bytesLeft startingCluster : Z)
    : M unit :=
  if negb (bytesLeft =? 0) && (startingCluster <? EOC)
     && negb (startingCluster =? 0)
  then
    match fuel with
    | O => out_of_fuel
    | S fuel' =>
        lseek (clusterOffset g startingCluster) ;;
        clusterBytes <- read_struct (Z.to_nat (bytesPerCluster g)) ;;
        if bytesPerCluster g <=? bytesLeft then
          emit (Fwrite clusterBytes) ;;
          next <- getNextFatValue g startingCluster ;;
          copyFile_loop fuel' g (bytesLeft - bytesPerCluster g)
                        (Z.land next MASK_FIRST_HEX)
        else
          emit (Fwrite (firstn (Z.to_nat bytesLeft) clusterBytes)) ;;
          copyFile_loop fuel' g 0 startingCluster
    end
  else ret tt.

Definition copyFile (fuel : nat) (g : Globals) (targetDir : DirInfo)
    (startingCluster : Z) (givenName nameExtension : list Z) : M unit :=
  let bytesLeft := dir_file_size targetDir in
  let destination :=
    bytes_of_string "output/" ++ givenName ++ [DOT] ++ nameExtension in
  emit (Fopen destination) ;;
  copyFile_loop fuel g bytesLeft startingCluster ;;
  emit Fclose.

(** ** fetchFile *)

Section FetchFile.

Variable g : Globals.
Variable fuel : nat.
Variable fetchFile_rec : Z -> option (list Z) -> Z -> M unit.

(** One turn of the loop over the slots: [target] and [foundTarget] after
    it, and whether the loop is left by [break]. *)
Definition fetchFile_slot (clusterNum : Z) (numLeft : Z) (i : Z)
    (target : list Z) : M (option (list Z) * bool * bool) :=
  lseek (slotOffset g clusterNum i) ;;
  buf <- read_struct sizeof_DirInfo ;;
  let currentDir := decode_DirInfo buf in
  let entryName := dir_name currentDir in
  if nth 0 entryName 0 =? 0x00 then ret (Some target, false, true)
  else if negb (nth 0 entryName 0 =? 0xE5) then
    let givenName := removeTrailingSpace (cstr (slice entryName 0 8)) in
    let nameExtension := cstr (slice entryName 8 3) in
    let attr := dir_attr currentDir in
    if negb (numLeft =? 0) && is_directory attr then
      let newCluster := first_cluster currentDir in
      if strcmp0 target givenName then
        target' <- strtok None ;;
        fetchFile_rec newCluster target' (numLeft - 1) ;;
        ret (target', true, true)
      else ret (Some target, false, false)
    else if (numLeft =? 0) && is_file attr then
      let newCluster := first_cluster currentDir in
      let fullName := givenName ++ [DOT] ++ nameExtension in
      if strcmp0 target fullName then
        set_foundFile true ;;
        copyFile fuel g currentDir newCluster givenName nameExtension ;;
        ret (Some target, true, true)
      else ret (Some target, false, false)
    else ret (Some target, false, false)
  else ret (Some target, false, false).

Fixpoint fetchFile_loop (clusterNum : Z) (numLeft : Z) (n : nat) (i : Z)
    (target : list Z) : M (option (list Z) * bool) :=
  match n with
  | O => ret (Some target, false)
  | S n' =>
      r <- fetchFile_slot clusterNum numLeft i target ;;
      let '(target', foundTarget, brk) := r in
      if brk then ret (target', foundTarget)
      else fetchFile_loop clusterNum numLeft n' (i + 1) target
  end.

Definition fetchFile_step (clusterNum : Z) (target : option (list Z))
    (numLeft : Z) : M unit :=
  match target with
  | None => ret tt
  | Some t =>
      if (length t =? 0)%nat then ret tt
      else
        r <- fetchFile_loop clusterNum numLeft
                            (Z.to_nat (entriesPerCluster g)) 0 t ;;
        let (target', foundTarget) := r in
        newCluster <- getNextFatValue g clusterNum ;;
        let newCluster := Z.land newCluster MASK_FIRST_HEX in
        if negb foundTarget && (newCluster <? END_OF_CLUSTER_CHAIN)
        then fetchFile_rec newCluster target' numLeft
        else ret tt
  end.

End FetchFile.

Fixpoint fetchFile (fuel : nat) (g : Globals) (clusterNum : Z)
    (target : option (list Z)) (numLeft : Z) : M unit :=
  match fuel with
  | O => out_of_fuel
  | S fuel' => fetchFile_step g fuel' (fetchFile fuel' g) clusterNum target numLeft
  end.

(** ** printInfo *)

Definition printInfo (g : Globals) : M unit :=
  let bs := bootSector g in
  let driveName := cstr (BS_VolLab bs) in
  let OEMName := cstr (BS_OEMName bs) in
  let freeSpace :=
    wrap32 (wrap32 (free_count (infoSector g) * BPB_BytesPerSec bs)
            * BPB_SecPerClus bs) / BYTES_PER_KB in
  let totalSpace := wrap32 (BPB_TotSec32 bs * BPB_BytesPerSec bs) / BYTES_PER_KB in
  let totalUsableSpace :=
    wrap32 (wrap32 (BPB_TotSec32 bs - BPB_RsvdSecCnt bs
                    - wrap32 (BPB_FATSz32 bs * BPB_NumFATs bs))
            * BPB_BytesPerSec bs) / BYTES_PER_KB in
  clusterSizeBytes <- int_mul (BPB_BytesPerSec bs) (BPB_SecPerClus bs) ;;
  emit (PrintStr "Drive name: " driveName) ;;
  emit (PrintStr "OEM name: " OEMName) ;;
  emit (PrintNum "Free space is KB" freeSpace) ;;
  emit (PrintNum "Total space is KB" totalSpace) ;;
  emit (PrintNum "Total usable space KB" totalUsableSpace) ;;
  emit (PrintNum "Cluster size in sectors" (BPB_SecPerClus bs)) ;;
  emit (PrintNum "Cluster size is bytes" clusterSizeBytes).

(** ** main *)

Definition EXIT_SUCCESS : Z := 0.
Definition EXIT_FAILURE : Z := 1.

(** The number of '/' in the path. *)
Definition count_slashes (path : list Z) : Z :=
  fold_left (fun count c => count + (if c =? SLASH then 1 else 0)) path 0.

(** The globals as [main] computes them from the two sectors. *)
Definition compute_globals (bs : fat32BS) (info : fat32FSInfo) : M Globals :=
  let dataSectorLocationInSectors :=
    wrap32 (BPB_RsvdSecCnt bs + wrap32 (BPB_FATSz32 bs * BPB_NumFATs bs)) in
  fatSectorStart <- int_mul (BPB_RsvdSecCnt bs) (BPB_BytesPerSec bs) ;;
  clusterBytes <- int_mul (BPB_SecPerClus bs) (BPB_BytesPerSec bs) ;;
  ret {| bootSector := bs;
         infoSector := info;
         fatSectorStart := fatSectorStart;
         dataSectorLocationInSectors := dataSectorLocationInSectors;
         entriesPerCluster := clusterBytes / Z.of_nat sizeof_DirInfo;
         bytesPerCluster := clusterBytes |}.

(** The slot [k] of the FAT as [main] reads it for the first of its two
    checks, into the local [fatValidation], which has no value yet. *)
Definition read_fat_slot (g : Globals) (k : Z) : M Z :=
  lseek (fatSectorStart g + (SIZE_OF_FAT_ENTRY / BITS_PER_BYTE) * k) ;;
  buf <- read_struct (Z.to_nat (SIZE_OF_FAT_ENTRY / BITS_PER_BYTE)) ;;
  ret (le32 buf 0).

(** The read for the second check goes into the same [fatValidation], which
    holds the value of the first read: after a short read the bytes that
    were not read are still those of that value. *)
Definition reread_fat_slot (g : Globals) (k : Z) (fatValidation : Z) : M Z :=
  lseek (fatSectorStart g + (SIZE_OF_FAT_ENTRY / BITS_PER_BYTE) * k) ;;
  buf <- read_over (u32_bytes fatValidation)
                   (Z.to_nat (SIZE_OF_FAT_ENTRY / BITS_PER_BYTE)) ;;
  ret (le32 buf 0).

(** What main does once the volume has passed every check. *)
Definition run_command (fuel : nat) (g : Globals) (argv : list string) : M Z :=
  let argc := Z.of_nat (length argv) in
  let bs := bootSector g in
  let command := nth 2 argv EmptyString in
  if String.eqb command "info" then
    printInfo g ;;
    emit (Printf "Done") ;; ret EXIT_SUCCESS
  else if String.eqb command "list" then
    readCluster fuel g (Z.land (BPB_RootClus bs) MASK_FIRST_HEX) 0 ;;
    emit (Printf "Done") ;; ret EXIT_SUCCESS
  else if String.eqb command "get" then
    if negb (argc =? 4) then
      emit (PrintNum "Incorrect parameters, exiting program. num parameters: "
                     argc) ;;
      ret EXIT_FAILURE
    else
      let path := bytes_of_string (nth 3 argv EmptyString) in
      let count := count_slashes path in
      token <- strtok (Some path) ;;
      set_foundFile false ;;
      fetchFile fuel g (Z.land (BPB_RootClus bs) MASK_FIRST_HEX) token count ;;
      found <- get_foundFile ;;
      if found then
        emit (Printf "File copied into output folder.") ;;
        emit (Printf "Done") ;; ret EXIT_SUCCESS
      else
        emit (Printf "Error, file could not be found. Exiting.") ;;
        ret EXIT_FAILURE
  else
    emit (Printf "Incorrect parameters, exiting program.") ;;
    ret EXIT_FAILURE.

(** [main] returns the exit status of the process: [exit (EXIT_FAILURE)]
    where the program leaves early, 0 where it reaches the end of main. *)
Definition main (fuel : nat) (argv : list string) : M Z :=
  let argc := Z.of_nat (length argv) in
  if argc <? 3 then
    emit (Printf "Incorrect parameters, exiting program.") ;;
    ret EXIT_FAILURE
  else
    sys_open O_RDONLY ;;
    bsbuf <- read_static sizeof_fat32BS ;;
    let bs := decode_fat32BS bsbuf in
    infoOffset <- int_mul (BPB_BytesPerSec bs) (BPB_FSInfo bs) ;;
    lseek infoOffset ;;
    infobuf <- read_static sizeof_fat32FSInfo ;;
    let info := decode_fat32FSInfo infobuf in
    g <- compute_globals bs info ;;
    if negb (lead_sig info =? 0x41615252) then
      emit (Printf "Info sector does not exist, exiting program.") ;;
      ret EXIT_FAILURE
    else if negb (nth 0 (BS_jmpBoot bs) 0 =? 0xEB)
            && negb (nth 0 (BS_jmpBoot bs) 0 =? 0xE9) then
      emit (Printf "Jump validation failed, exiting program.") ;;
      ret EXIT_FAILURE
    else if BPB_RootClus bs <? 2 then
      emit (Printf "BPB_RootClus validation failed, exiting program.") ;;
      ret EXIT_FAILURE
    else if BPB_FATSz32 bs =? 0 then
      emit (Printf "BPB_FATSz32 validation failed, exiting program.") ;;
      ret EXIT_FAILURE
    else if BPB_TotSec32 bs <? 65525 then
      emit (Printf "BPB_TotSec32 validation failed, exiting program.") ;;
      ret EXIT_FAILURE
    else if existsb (fun b => negb (b =? 0)) (BPB_reserved bs) then
      emit (Printf "BPB_reserved validation failed, exiting program.") ;;
      ret EXIT_FAILURE
    else
      fatValidation <- read_fat_slot g 0 ;;
      if negb (Z.land fatValidation MASK_FIRST_HEX
               =? BPB_Media bs + 0x0FFFFF00) then
        emit (Printf "FAT validation 0 failed, exiting program.") ;;
        ret EXIT_FAILURE
      else
        fatValidation <- reread_fat_slot g 1 fatValidation ;;
        if negb (Z.land fatValidation MASK_FIRST_HEX =? 0x0FFFFFFF) then
          emit (Printf "FAT validation 1 failed, exiting program.") ;;
          ret EXIT_FAILURE
        else run_command fuel g argv.

(** ** The image as the program reads it *)

Definition with_offset (w : World) (off : Z) : World :=
  mkWorld (fd_image w) (fd_flags w) off (strtok_save w) (foundFile w).

(** The [count] bytes at [off], when the image holds them all. *)
Definition read_at (image : list Z) (off : Z) (count : nat) : option (list Z) :=
  let got := slice image (Z.to_nat off) count in
  if (length got <? count)%nat then None else Some got.

(** The geometry has no negative offset; main computes such globals. *)
Definition Globals_ok (g : Globals) : Prop :=
  0 <= fatSectorStart g
  /\ 0 <= dataSectorLocationInSectors g * BPB_BytesPerSec (bootSector g)
  /\ 0 <= bytesPerCluster g.

Definition slot_bytes (g : Globals) (image : list Z) (clusterNum i : Z)
    : option (list Z) :=
  read_at image (slotOffset g clusterNum i) sizeof_DirInfo.

Definition fat_value (g : Globals) (image : list Z) (c : Z) : option Z :=
  option_map (fun buf => le32 buf 0)
    (read_at image
       (fatSectorStart g + wrap32 ((SIZE_OF_FAT_ENTRY / BITS_PER_BYTE) * c))
       (Z.to_nat (SIZE_OF_FAT_ENTRY / BITS_PER_BYTE))).

(** The successor of a cluster in its chain: the FAT slot masked to 28 bits. *)
Definition next_cluster (g : Globals) (image : list Z) (c : Z) : option Z :=
  option_map (fun v => Z.land v MASK_FIRST_HEX) (fat_value g image c).

Definition cluster_bytes (g : Globals) (image : list Z) (c : Z)
    : option (list Z) :=
  read_at image (clusterOffset g c) (Z.to_nat (bytesPerCluster g)).

(** The number of fragments held by the state of the long name. *)
Definition numLongNameEntries_of (ln : LongNameState) : nat :=
  match ln with
  | Some v => numLongNameEntries v
  | None => O
  end.

(** The lines printed for a visible short entry reached while a long name is
    accumulated: the long name paired with the short name when the checksum
    of the 11 name bytes is the recorded one, the short name alone when it
    is not. *)
Definition paired_lines (depth : nat) (long short : Label)
    (v : LongNameVars) (shortText : list Z) : list Effect :=
  [PrintEntry depth long (longNameText v); PrintEntry depth short shortText].

Definition givenName_of (d : DirInfo) : list Z :=
  removeTrailingSpace (cstr (slice (dir_name d) 0 8)).

Definition listedExtension_of (d : DirInfo) : list Z :=
  removeTrailingSpace (cstr (slice (dir_name d) 8 3)).

Definition fileText_of (d : DirInfo) : list Z :=
  shortFileText (givenName_of d) (listedExtension_of d).

(** ** The checks of main, on the image *)

(** The boot sector and the FS-info sector as main reads them into its
    zeroed globals. *)
Definition read_static_at (image : list Z) (off : Z) (count : nat) : list Z :=
  let got := slice image (Z.to_nat off) count in
  got ++ repeat 0 (count - length got).

Definition boot_sector_of (image : list Z) : fat32BS :=
  decode_fat32BS (read_static_at image 0 sizeof_fat32BS).

Definition info_sector_of (image : list Z) : fat32FSInfo :=
  let bs := boot_sector_of image in
  decode_fat32FSInfo
    (read_static_at image (BPB_BytesPerSec bs * BPB_FSInfo bs) sizeof_fat32FSInfo).

Definition globals_of (image : list Z) : Globals :=
  let bs := boot_sector_of image in
  {| bootSector := bs;
     infoSector := info_sector_of image;
     fatSectorStart := BPB_RsvdSecCnt bs * BPB_BytesPerSec bs;
     dataSectorLocationInSectors :=
       wrap32 (BPB_RsvdSecCnt bs + wrap32 (BPB_FATSz32 bs * BPB_NumFATs bs));
     entriesPerCluster :=
       (BPB_SecPerClus bs * BPB_BytesPerSec bs) / Z.of_nat sizeof_DirInfo;
     bytesPerCluster := BPB_SecPerClus bs * BPB_BytesPerSec bs |}.

(** The three products that main computes on [int] do not overflow, and the
    two offsets it seeks to are not negative. *)
Definition arithmetic_defined (bs : fat32BS) : Prop :=
  0 <= BPB_BytesPerSec bs * BPB_FSInfo bs <= INT_MAX
  /\ 0 <= BPB_RsvdSecCnt bs * BPB_BytesPerSec bs <= INT_MAX
  /\ BPB_SecPerClus bs * BPB_BytesPerSec bs <= INT_MAX.

Definition fat_slot_of (image : list Z) (k : Z) : option Z :=
  option_map (fun buf => le32 buf 0)
    (read_at image
       (fatSectorStart (globals_of image) + (SIZE_OF_FAT_ENTRY / BITS_PER_BYTE) * k)
       (Z.to_nat (SIZE_OF_FAT_ENTRY / BITS_PER_BYTE))).

(** The sanity checks in the words of the spec: FS-info lead signature,
    first jump-boot byte, root cluster, FAT size, total sectors, the twelve
    reserved bytes, and the masked FAT slots 0 and 1. *)
Definition checks_pass (bs : fat32BS) (info : fat32FSInfo) (fat0 fat1 : Z)
    : bool :=
  (lead_sig info =? 0x41615252)
  && ((nth 0 (BS_jmpBoot bs) 0 =? 0xEB) || (nth 0 (BS_jmpBoot bs) 0 =? 0xE9))
  && (2 <=? BPB_RootClus bs)
  && negb (BPB_FATSz32 bs =? 0)
  && (65525 <=? BPB_TotSec32 bs)
  && forallb (fun b => b =? 0) (BPB_reserved bs)
  && (Z.land fat0 MASK_FIRST_HEX =? BPB_Media bs + 0x0FFFFF00)
  && (Z.land fat1 MASK_FIRST_HEX =? 0x0FFFFFFF).

(** The first six checks, which main makes before it reads the FAT. *)
Definition early_checks_pass (bs : fat32BS) (info : fat32FSInfo) : bool :=
  (lead_sig info =? 0x41615252)
  && ((nth 0 (BS_jmpBoot bs) 0 =? 0xEB) || (nth 0 (BS_jmpBoot bs) 0 =? 0xE9))
  && (2 <=? BPB_RootClus bs)
  && negb (BPB_FATSz32 bs =? 0)
  && (65525 <=? BPB_TotSec32 bs)
  && forallb (fun b => b =? 0) (BPB_reserved bs).

(** What [fatValidation] holds after the read at slot [k] of the FAT when it
    held [old] before: the bytes of the slot that the image has, completed
    by the bytes of [old]. *)
Definition fat_slot_over (image : list Z) (k : Z) (old : Z) : Z :=
  let got :=
    slice image
      (Z.to_nat (fatSectorStart (globals_of image)
                 + (SIZE_OF_FAT_ENTRY / BITS_PER_BYTE) * k))
      (Z.to_nat (SIZE_OF_FAT_ENTRY / BITS_PER_BYTE)) in
  le32 (got ++ skipn (length got) (u32_bytes old)) 0.

(** The volume passes the eight checks, in the words of the claim: the
    checks on the FAT slots 0 and 1 are about these slots of the image, and
    an image that does not hold a slot in full does not pass its check. *)
Definition validated (image : list Z) : bool :=
  match fat_slot_of image 0, fat_slot_of image 1 with
  | Some fat0, Some fat1 =>
      checks_pass (boot_sector_of image) (info_sector_of image) fat0 fat1
  | _, _ => false
  end.

(** ** Cluster chains on the image *)

(** The first [k] clusters from [c] on are data clusters (neither 0 nor
    end-of-chain) whose bytes and FAT slots the image holds. *)
Fixpoint chain_ok (g : Globals) (image : list Z) (c : Z) (k : nat) : bool :=
  match k with
  | O => true
  | S k' =>
      negb (c =? 0) && (c <? EOC)
      && match cluster_bytes g image c, next_cluster g image c with
         | Some _, Some n => chain_ok g image n k'
         | _, _ => false
         end
  end.

(** The contents of these clusters, one list per cluster. *)
Fixpoint chain_chunks (g : Globals) (image : list Z) (c : Z) (k : nat)
    : list (list Z) :=
  match k with
  | O => []
  | S k' =>
      match cluster_bytes g image c, next_cluster g image c with
      | Some data, Some n => data :: chain_chunks g image n k'
      | _, _ => []
      end
  end.

(** The cluster reached after [k] steps along the chain. *)
Fixpoint chain_end (g : Globals) (image : list Z) (c : Z) (k : nat) : option Z :=
  match k with
  | O => Some c
  | S k' =>
      match next_cluster g image c with
      | Some n => chain_end g image n k'
      | None => None
      end
  end.

(** The number of clusters a file of [size] bytes needs. *)
Definition clusters_needed (size bpc : Z) : nat :=
  Z.to_nat ((size + bpc - 1) / bpc).

(** The sizes of the writes in the words of the spec: full clusters, then
    [size mod bpc] bytes when the size is not a multiple of the cluster
    size. *)
Definition write_sizes (size bpc : Z) : list Z :=
  repeat bpc (Z.to_nat (size / bpc))
  ++ (if size mod bpc =? 0 then [] else [size mod bpc]).

Definition destination_of (givenName nameExtension : list Z) : list Z :=
  bytes_of_string "output/" ++ givenName ++ [DOT] ++ nameExtension.

(** ** The image is only read *)

(** A computation that leaves the bytes of the image as they are, and the
    descriptor read-only if it was. *)
Definition keeps_image {A} (m : M A) : Prop :=
  forall w a w' o,
    m w = Some (a, w', o) ->
    fd_image w' = fd_image w
    /\ (fd_flags w = Some O_RDONLY -> fd_flags w' = Some O_RDONLY).

(** The world after [open (argv[1], O_RDONLY)]. *)
Definition opened (w : World) : World :=
  mkWorld (fd_image w) (Some O_RDONLY) 0 (strtok_save w) (foundFile w).

(** ** Names as fetchFile compares them *)

(** The extension as fetchFile uses it: the three bytes as a C string, its
    trailing spaces kept. *)
Definition rawExtension_of (d : DirInfo) : list Z :=
  cstr (slice (dir_name d) 8 3).

Definition fullName_of (d : DirInfo) : list Z :=
  givenName_of d ++ [DOT] ++ rawExtension_of d.

(** Slot [i] of cluster [c] holds a live visible file whose base, '.', and
    raw extension spell [t]. *)
Definition file_named (g : Globals) (image : list Z) (t : list Z) (c i : Z)
    : Prop :=
  exists buf,
    slot_bytes g image c i = Some buf
    /\ nth 0 (dir_name (decode_DirInfo buf)) 0 <> 0x00
    /\ nth 0 (dir_name (decode_DirInfo buf)) 0 <> 0xE5
    /\ is_file (dir_attr (decode_DirInfo buf)) = true
    /\ t = fullName_of (decode_DirInfo buf).

(** The slots [i], [i+1], ... of cluster [c] ([n] at most) can be read, up to
    the end marker if there is one. *)
Fixpoint slots_readable (g : Globals) (image : list Z) (c : Z) (n : nat) (i : Z)
    : bool :=
  match n with
  | O => true
  | S n' =>
      match slot_bytes g image c i with
      | None => false
      | Some buf =>
          (nth 0 (dir_name (decode_DirInfo buf)) 0 =? 0x00)
          || slots_readable g image c n' (i + 1)
      end
  end.

(** The chain of a directory from [c] on ends within [k] clusters, and the
    image holds the slots and the FAT slots of these clusters. *)
Fixpoint directory_ok (g : Globals) (image : list Z) (c : Z) (k : nat) : bool :=
  match k with
  | O => false
  | S k' =>
      slots_readable g image c (Z.to_nat (entriesPerCluster g)) 0
      && match next_cluster g image c with
         | None => false
         | Some n =>
             if n <? END_OF_CLUSTER_CHAIN then directory_ok g image n k' else true
         end
  end.

(** A computation that leaves the global [foundFile] as it is. *)
Definition keeps_found {A} (m : M A) : Prop :=
  forall w a w' o, m w = Some (a, w', o) -> foundFile w' = foundFile w.

(** No 32-byte window of the image at a multiple of 32 is a visible file
    with an unpadded extension whose full name is [path]. *)
Definition no_unpadded_match (image path : list Z) : bool :=
  forallb
    (fun k =>
       let d := decode_DirInfo (slice image (32 * k) 32) in
       negb (is_file (dir_attr d)
             && negb (last (rawExtension_of d) 0 =? SPACE)
             && bytes_eqb (fullName_of d) path))
    (seq 0 (length image / 32)).

(** ** The listing of a directory, on the image *)

Definition is_long_label (l : Label) : bool :=
  match l with
  | LongNameDirectory | LongNameFile => true
  | _ => false
  end.

(** The entry events of a listing at one depth: each printed entry has
    exactly one line with its short name (a long name, when there is one, is
    a line of its own before it). *)
Definition entries_at (depth : nat) (o : list Effect) : list (list Z) :=
  flat_map
    (fun e =>
       match e with
       | PrintEntry d l text =>
           if (d =? depth)%nat && negb (is_long_label l) then [text] else []
       | _ => []
       end) o.

(** The short name as the listing prints it. *)
Definition entry_text (d : DirInfo) : list Z :=
  if is_directory (dir_attr d) then givenName_of d else fileText_of d.

Definition first_byte (d : DirInfo) : Z := nth 0 (dir_name d) 0.

(** A live short-form entry, in the words of the claim: not the end marker,
    not deleted, not a long-name fragment. *)
Definition live_short (d : DirInfo) : bool :=
  negb (first_byte d =? 0x00) && negb (first_byte d =? 0xE5)
  && negb (is_long_name (dir_attr d)).

(** An entry that the listing prints: not deleted, a visible directory or a
    visible file, and not in one of the two slots passed over below the
    root. *)
Definition listed (depth : nat) (i : Z) (d : DirInfo) : bool :=
  ((1 <? i) || (depth =? 0)%nat)
  && negb (first_byte d =? 0xE5)
  && (is_directory (dir_attr d) || is_file (dir_attr d)).

(** The names printed for the slots [i], [i+1], ... of a cluster ([n] slots
    at most), up to its end marker. *)
Fixpoint cluster_listing (g : Globals) (image : list Z) (depth : nat) (c : Z)
    (n : nat) (i : Z) : list (list Z) :=
  match n with
  | O => []
  | S n' =>
      match slot_bytes g image c i with
      | None => []
      | Some buf =>
          let d := decode_DirInfo buf in
          if first_byte d =? 0x00 then []
          else (if listed depth i d then [entry_text d] else [])
               ++ cluster_listing g image depth c n' (i + 1)
      end
  end.

(** The names printed for a directory: cluster after cluster along the
    chain, until the masked successor is an end-of-chain value. *)
Fixpoint chain_listing (fuel : nat) (g : Globals) (image : list Z)
    (depth : nat) (c : Z) : list (list Z) :=
  match fuel with
  | O => []
  | S fuel' =>
      cluster_listing g image depth c (Z.to_nat (entriesPerCluster g)) 0
      ++ match next_cluster g image c with
         | Some n =>
             if n <? END_OF_CLUSTER_CHAIN
             then chain_listing fuel' g image depth n
             else []
         | None => []
         end
  end.

(** The listing of a directory by design: the two slots of "." and ".." are
    passed over in the first cluster of a subdirectory; the clusters that
    follow it in the chain are listed in full. *)
Definition directory_listing (fuel : nat) (g : Globals) (image : list Z)
    (depth : nat) (c : Z) : list (list Z) :=
  match fuel with
  | O => []
  | S fuel' =>
      cluster_listing g image depth c (Z.to_nat (entriesPerCluster g)) 0
      ++ match next_cluster g image c with
         | Some n =>
             if n <? END_OF_CLUSTER_CHAIN
             then chain_listing fuel' g image 0 n
             else []
         | None => []
         end
  end.

(** The claim as it is stated: every live short-form entry of the chain, in
    slot order, whatever its attributes, its slot and what precedes it. *)
Fixpoint cluster_live (g : Globals) (image : list Z) (c : Z) (n : nat) (i : Z)
    : list (list Z) :=
  match n with
  | O => []
  | S n' =>
      match slot_bytes g image c i with
      | None => []
      | Some buf =>
          let d := decode_DirInfo buf in
          (if live_short d then [entry_text d] else [])
          ++ cluster_live g image c n' (i + 1)
      end
  end.

Fixpoint chain_live (fuel : nat) (g : Globals) (image : list Z) (c : Z)
    : list (list Z) :=
  match fuel with
  | O => []
  | S fuel' =>
      cluster_live g image c (Z.to_nat (entriesPerCluster g)) 0
      ++ match next_cluster g image c with
         | Some n =>
             if n <? END_OF_CLUSTER_CHAIN then chain_live fuel' g image n else []
         | None => []
         end
  end.

(** The effects of a listing are lines at this depth or deeper. *)
Definition at_least (depth : nat) (e : Effect) : Prop :=
  match e with
  | PrintEntry d _ _ => (depth <= d)%nat
  | _ => False
  end.

(** ** More fuel *)

(** Where [m] gives a result, [m'] gives the same. *)
Definition refines {A} (m m' : M A) : Prop :=
  forall w r, m w = Some r -> m' w = Some r.

(** ** Volume images for the examples *)

Module Build.

Definition enc16 (z : Z) : list Z := [z mod 256; (z / 256) mod 256].
Definition enc32 (z : Z) : list Z := enc16 (z mod 65536) ++ enc16 (z / 65536).

Definition pad (len : nat) (l : list Z) : list Z :=
  firstn len (l ++ repeat 0 len).

(** A short-form slot: the 11 name bytes, the attribute byte, the first
    cluster and the size. *)
Definition short_entry (name : string) (attr cluster size : Z) : list Z :=
  pad 11 (bytes_of_string name) ++ [attr] ++ repeat 0 8
  ++ enc16 (cluster / 65536) ++ repeat 0 4 ++ enc16 (cluster mod 65536)
  ++ enc32 size.

(** A long-name slot: order byte, 13 code units, checksum, entry type. *)
Definition long_entry (ord : Z) (name : list Z) (chk type : Z) : list Z :=
  let u := pad 13 name in
  [ord] ++ flat_map enc16 (firstn 5 u) ++ [ATTR_LONG_NAME; type; chk]
  ++ flat_map enc16 (firstn 6 (skipn 5 u)) ++ [0; 0]
  ++ flat_map enc16 (skipn 11 u).

Definition SECTOR : nat := 512.

(** A boot sector with 512-byte sectors, one sector per cluster, two
    reserved sectors (the boot sector and the FS-info sector), one FAT of
    one sector, the root directory in cluster 2 and media byte 0xF8. *)
Definition boot_sector : list Z :=
  pad SECTOR
    ([0xEB; 0x58; 0x90] ++ bytes_of_string "MSDOS5.0"
     ++ enc16 512 ++ [1] ++ enc16 2 ++ [1] ++ enc16 0 ++ enc16 0 ++ [0xF8]
     ++ enc16 0 ++ enc16 0 ++ enc16 0 ++ enc32 0 ++ enc32 65536 ++ enc32 1
     ++ enc16 0 ++ [0; 0] ++ enc32 2 ++ enc16 1 ++ enc16 0 ++ repeat 0 12
     ++ [0x80; 0; 0x29] ++ enc32 0 ++ bytes_of_string "NO NAME    "
     ++ bytes_of_string "FAT32   ").

Definition fsinfo_sector : list Z :=
  pad SECTOR (enc32 0x41615252 ++ repeat 0 484 ++ enc32 100).

(** The FAT: slots 0 and 1 as the checks of main want them, then the
    given slots for the clusters 2, 3, ... *)
Definition fat_sector (slots : list Z) : list Z :=
  pad SECTOR (flat_map enc32 ([0x0FFFFFF8; 0x0FFFFFFF] ++ slots)).

Definition cluster (slots : list (list Z)) : list Z :=
  pad SECTOR (concat slots).

Definition volume (fat : list Z) (clusters : list (list Z)) : list Z :=
  boot_sector ++ fsinfo_sector ++ fat_sector fat ++ concat clusters.

Definition world (image : list Z) : World :=
  {| fd_image := image; fd_flags := None; fd_offset := 0;
     strtok_save := []; foundFile := false |}.

(** The globals that main computes for these volumes. *)
Definition globals : Globals :=
  {| bootSector := decode_fat32BS boot_sector;
     infoSector := decode_fat32FSInfo fsinfo_sector;
     fatSectorStart := 1024;
     dataSectorLocationInSectors := 3;
     entriesPerCluster := 16;
     bytesPerCluster := 512 |}.

End Build.

Module Examples.
Import Build.

Definition END : Z := 0x0FFFFFFF.
Definition units_of (s : string) : list Z := bytes_of_string s.

(** Root directory: a subdirectory SUB1 (cluster 3) and a file README.TXT
    of 100 bytes (cluster 4); SUB1 holds ".", ".." and A.TXT. *)
Definition scenario : list Z :=
  volume [END; END; END]
    [cluster [short_entry "SUB1       " 0x10 3 0;
              short_entry "README  TXT" 0x20 4 100];
     cluster [short_entry ".          " 0x10 3 0;
              short_entry "..         " 0x10 0 0;
              short_entry "A       TXT" 0x20 0 0];
     cluster [repeat 65 100]].

(** A long name of two fragments whose orders are 0x43 (last, 3) and 0x01:
    the second order is lower than the first but is not the first minus
    one. *)
Definition gap_in_orders : list Z :=
  let chk := ChkSum (bytes_of_string "FILE    TXT") in
  volume [END]
    [cluster [long_entry 0x43 (units_of "tail") chk 0;
              long_entry 0x01 (units_of "head-of-name-") chk 0;
              short_entry "FILE    TXT" 0x20 0 0]].

Definition accumulating : LongNameVars :=
  {| totalLongName := pad 13 (units_of "tail");
     numLongNameEntries := 1;
     checkSum := ChkSum (bytes_of_string "FILE    TXT");
     previousNameOrder := 0x43 |}.

(** A long name whose second fragment carries another checksum. *)
Definition corrupted_checksum : list Z :=
  let chk := ChkSum (bytes_of_string "FILE    TXT") in
  volume [END]
    [cluster [long_entry 0x42 (units_of "tail") chk 0;
              long_entry 0x01 (units_of "head-of-name-") (chk + 1) 0;
              short_entry "FILE    TXT" 0x20 0 0]].

End Examples.

Module Slots.
Import Build.

Definition FILE_TXT : DirInfo :=
  decode_DirInfo (short_entry "FILE    TXT" 0x20 0 0).

Definition HIDDEN_TXT : DirInfo :=
  decode_DirInfo (short_entry "HIDDEN  TXT" 0x22 0 0).

End Slots.

Module BadVolumes.
Import Build.

(** A volume whose FAT slot 1 is not 0x0FFFFFFF. *)
Definition bad_fat_slot_1 : list Z :=
  boot_sector ++ fsinfo_sector
  ++ pad SECTOR (flat_map enc32 [0x0FFFFFF8; 0x0FFFFFF7; 0x0FFFFFFF])
  ++ cluster [short_entry "README  TXT" 0x20 0 0].

(** The same volume cut after the first byte of FAT slot 1. *)
Definition bad_fat_slot_1_cut : list Z := firstn 1029 bad_fat_slot_1.

(** A sound volume cut after the first two bytes of FAT slot 1. *)
Definition cut_inside_fat_slot_1 : list Z := firstn 1030 Examples.scenario.

End BadVolumes.

Module Files.
Import Build.

(** BIG.BIN: 600 bytes in the clusters 3 and 4. *)
Definition two_clusters : list Z :=
  volume [Examples.END; 4; Examples.END]
    [cluster [short_entry "BIG     BIN" 0x20 3 600];
     repeat 7 512;
     cluster [repeat 9 88]].

Definition BIG_BIN : DirInfo :=
  decode_DirInfo (short_entry "BIG     BIN" 0x20 3 600).

(** CUT.BIN: 1000 bytes declared, but the chain ends after cluster 3. *)
Definition truncated : list Z :=
  volume [Examples.END; Examples.END]
    [cluster [short_entry "CUT     BIN" 0x20 3 1000];
     repeat 7 512].

Definition CUT_BIN : DirInfo :=
  decode_DirInfo (short_entry "CUT     BIN" 0x20 3 1000).

End Files.

Module Names.
Import Build.

(** A file whose extension has two characters, and one without extension. *)
Definition short_extensions : list Z :=
  volume [Examples.END]
    [cluster [short_entry "NAME    AB " 0x20 0 0;
              short_entry "PLAIN      " 0x20 0 0;
              short_entry "README  TXT" 0x20 0 0]].

Definition NAME_AB : list Z := short_entry "NAME    AB " 0x20 0 0.

End Names.

Module Walks.
Import Build.

(** The root directory in the clusters 2 and 3: A.TXT and the end marker in
    cluster 2, B.TXT in cluster 3. *)
Definition marker_then_more : list Z :=
  volume [3; Examples.END]
    [cluster [short_entry "A       TXT" 0x20 0 0];
     cluster [short_entry "B       TXT" 0x20 0 0]].

(** The root directory holds a hidden file, a subdirectory and a file; the
    subdirectory (cluster 3) holds ".", ".." and C.TXT. *)
Definition hidden_and_dots : list Z :=
  volume [Examples.END; Examples.END]
    [cluster [short_entry "SECRET  TXT" 0x22 0 0;
              short_entry "SUB        " 0x10 3 0;
              short_entry "SHOWN   TXT" 0x20 0 0];
     cluster [short_entry ".          " 0x10 3 0;
              short_entry "..         " 0x10 0 0;
              short_entry "C       TXT" 0x20 0 0]].

End Walks.

Module Continuation.
Import Build.

(** The subdirectory SUB in the clusters 3 and 4: ".", ".." and X.TXT in
    cluster 3; Y.TXT, Z.TXT and W.TXT in cluster 4. *)
Definition two_cluster_subdirectory : list Z :=
  volume [Examples.END; 4; Examples.END]
    [cluster [short_entry "SUB        " 0x10 3 0];
     cluster [short_entry ".          " 0x10 3 0;
              short_entry "..         " 0x10 0 0;
              short_entry "X       TXT" 0x20 0 0];
     cluster [short_entry "Y       TXT" 0x20 0 0;
              short_entry "Z       TXT" 0x20 0 0;
              short_entry "W       TXT" 0x20 0 0]].

End Continuation.

(** ** Further definitions for the properties beyond the claims *)

(** The code units of a fragment that are printed: all but the padding. *)
Definition printed_units (us : list Z) : list Z :=
  filter (fun u => negb (u =? 0x0000) && negb (u =? 0xFFFF)) us.

(** [totalLongName] holds 13 code units for each fragment counted. *)
Definition long_name_wf (ln : LongNameState) : Prop :=
  match ln with
  | Some v => length (totalLongName v) = (13 * numLongNameEntries v)%nat
  | None => True
  end.

Definition long_name_text (ln : LongNameState) : list Z :=
  match ln with
  | Some v => longNameText v
  | None => []
  end.

(** A short-form entry that is neither a visible directory nor a visible
    file: hidden, system or volume label. *)
Definition is_unlisted (attr : Z) : bool :=
  negb (is_long_name attr) && negb (is_directory attr) && negb (is_file attr).

(** The number of components of a path: the maximal runs of characters
    other than '/'.  [inside] tells whether the character before was part of
    a component. *)
Fixpoint count_tokens_from (inside : bool) (s : list Z) : nat :=
  match s with
  | [] => 0
  | c :: rest =>
      if c =? SLASH then count_tokens_from false rest
      else ((if inside then 0 else 1) + count_tokens_from true rest)%nat
  end.

Definition count_tokens (s : list Z) : nat := count_tokens_from false s.

(** What goes to the output file. *)
Definition file_effect (e : Effect) : Prop :=
  match e with
  | Fopen _ | Fwrite _ | Fclose => True
  | _ => False
  end.

(** A computation without effects that leaves [foundFile] and the state of
    [strtok] as they are. *)
Definition quiet {A} (m : M A) : Prop :=
  forall w a w' o,
    m w = Some (a, w', o) ->
    o = [] /\ foundFile w' = foundFile w /\ strtok_save w' = strtok_save w.

(** A computation that only writes to the output file and leaves
    [foundFile] and the state of [strtok] as they are. *)
Definition only_copies {A} (m : M A) : Prop :=
  forall w a w' o,
    m w = Some (a, w', o) ->
    Forall file_effect o
    /\ foundFile w' = foundFile w /\ strtok_save w' = strtok_save w.

(** What a call of fetchFile has done when it returns: it has written to the
    output file at most; either it has done nothing and [foundFile] is as
    before, or [foundFile] is true, there was a component to look for, and
    the components still to come were at least [numLeft]. *)
Definition fetched (target : option (list Z)) (numLeft : Z) (w w' : World)
    (o : list Effect) : Prop :=
  Forall file_effect o
  /\ ((o = [] /\ foundFile w' = foundFile w)
      \/ (foundFile w' = true /\ target <> None
          /\ 0 <= numLeft <= Z.of_nat (count_tokens (strtok_save w)))).

(** The search for the file [t] passes over the entry [d]: it is not the end
    marker, and it is not a live visible file whose name is [t]. *)
Definition passes (t : list Z) (d : DirInfo) : bool :=
  negb (first_byte d =? 0x00)
  && negb (negb (first_byte d =? 0xE5) && is_file (dir_attr d)
           && bytes_eqb t (fullName_of d)).

(** The slots [i], ..., [i + n - 1] of cluster [c] can be read and are
    passed over. *)
Fixpoint passes_slots (g : Globals) (image : list Z) (t : list Z) (c : Z)
    (n : nat) (i : Z) : bool :=
  match n with
  | O => true
  | S n' =>
      match slot_bytes g image c i with
      | Some buf =>
          passes t (decode_DirInfo buf) && passes_slots g image t c n' (i + 1)
      | None => false
      end
  end.

Module Fragments.
Import Build.

(** A first fragment (order 0x41, "last" flag set) for the name "a.txt". *)
Definition only_fragment : list Z :=
  long_entry 0x41 (bytes_of_string "a.txt")
             (ChkSum (bytes_of_string "A       TXT")) 0.

(** A long-name fragment without the "last" flag. *)
Definition stray_fragment : list Z :=
  long_entry 0x01 (bytes_of_string "a.txt")
             (ChkSum (bytes_of_string "A       TXT")) 0.

(** A root directory: a fragment, a deleted slot, a volume label. *)
Definition mixed : list Z :=
  volume [Examples.END]
    [cluster [only_fragment;
              short_entry (String (Ascii.ascii_of_nat 229) "LD     TXT") 0x20 0 0;
              short_entry "MYVOLUME   " 0x08 0 0]].

Definition DELETED : list Z :=
  short_entry (String (Ascii.ascii_of_nat 229) "LD     TXT") 0x20 0 0.

Definition VOLUME_LABEL : DirInfo :=
  decode_DirInfo (short_entry "MYVOLUME   " 0x08 0 0).

End Fragments.

(** * Properties *)

Unset Implicit Arguments.

(** ** Running computations *)

Lemma bind_Some A B (m : M A) (f : A -> M B) w b w2 o :
  bind m f w = Some (b, w2, o) ->
  exists a w1 o1 o2,
    m w = Some (a, w1, o1) /\ f a w1 = Some (b, w2, o2) /\ o = o1 ++ o2.
Proof.
  unfold bind. destruct (m w) as [[[a w1] o1]|]; [|discriminate].
  destruct (f a w1) as [[[b' w2'] o2]|] eqn:Hf; [|discriminate].
  intros H. inversion H; subst. exists a, w1, o1, o2. auto.
Qed.

Lemma bind_run A B (m : M A) (f : A -> M B) w a w1 o1 :
  m w = Some (a, w1, o1) ->
  bind m f w =
  match f a w1 with
  | Some (b, w2, o2) => Some (b, w2, o1 ++ o2)
  | None => None
  end.
Proof. unfold bind. intros ->. reflexivity. Qed.

Lemma bind_ret_run A B (a : A) (f : A -> M B) w : bind (ret a) f w = f a w.
Proof.
  unfold bind, ret. destruct (f a w) as [[[b w2] o2]|]; reflexivity.
Qed.

Lemma bind_emit_run B (e : Effect) (f : unit -> M B) w :
  bind (emit e) f w =
  match f tt w with
  | Some (b, w2, o2) => Some (b, w2, e :: o2)
  | None => None
  end.
Proof. reflexivity. Qed.

Lemma read_at_length image off count buf :
  read_at image off count = Some buf -> length buf = count.
Proof.
  unfold read_at. destruct (Nat.ltb_spec (length (slice image (Z.to_nat off) count)) count);
    [discriminate|].
  intros H'; inversion H'; subst.
  unfold slice in *. pose proof (firstn_le_length count (skipn (Z.to_nat off) image)). lia.
Qed.

(** [lseek] to a valid offset followed by a read into a local. *)
Lemma seek_read_run A (off : Z) (count : nat) (k : list Z -> M A) w :
  0 <= off ->
  (lseek off ;; buf <- read_struct count ;; k buf) w =
  match read_at (fd_image w) off count with
  | Some buf => k buf (with_offset w (off + Z.of_nat count))
  | None => None
  end.
Proof.
  intros Hoff. unfold bind at 1. unfold lseek.
  destruct (Z.ltb_spec off 0); [lia|].
  unfold read_at. unfold bind, read_struct, bind, sys_read. cbn [fd_image fd_offset fd_flags strtok_save foundFile].
  destruct (Nat.ltb_spec (length (slice (fd_image w) (Z.to_nat off) count)) count) as [Hlt|Hge].
  - reflexivity.
  - assert (Hlen : length (slice (fd_image w) (Z.to_nat off) count) = count).
    { unfold slice in *. pose proof (firstn_le_length count (skipn (Z.to_nat off) (fd_image w))). lia. }
    unfold ret. rewrite Hlen. unfold with_offset.
    destruct (k _ _) as [[[b w2] o2]|]; reflexivity.
Qed.

(** ** ChkSum *)

Lemma ChkSum_step_rotate Sum b : ChkSum_step Sum b = rotate_right_sum Sum b.
Proof.
  unfold ChkSum_step, rotate_right_sum, wrap8.
  rewrite Z.shiftr_div_pow2 by lia. change (2 ^ 1) with 2.
  replace (Z.land Sum 1) with (Sum mod 2)
    by (symmetry; apply (Z.land_ones Sum 1); lia).
  rewrite Zmod_odd. destruct (Z.odd Sum); reflexivity.
Qed.

Lemma ChkSum_loop_fold name : forall Sum,
  ChkSum_loop (length name) Sum name = fold_left rotate_right_sum name Sum.
Proof.
  induction name as [|b rest IH]; intros Sum; simpl; [reflexivity|].
  rewrite ChkSum_step_rotate. apply IH.
Qed.

Lemma ChkSum_loop_app n : forall Sum name rest,
  length name = n ->
  ChkSum_loop n Sum (name ++ rest) = ChkSum_loop n Sum name.
Proof.
  induction n as [|n IH]; intros Sum name rest Hlen; [reflexivity|].
  destruct name as [|b name']; [discriminate|]. simpl.
  apply IH. simpl in Hlen. lia.
Qed.

Lemma rotate_right_sum_byte Sum b : 0 <= rotate_right_sum Sum b < 256.
Proof. unfold rotate_right_sum. apply Z.mod_pos_bound. lia. Qed.

(** C8. The checksum of an 11-byte name is the rotate-right-sum of the
    reference definition iterated over the 11 bytes from 0; it is a byte
    that depends on nothing but these 11 bytes (what follows them in the
    buffer does not matter, so computing it again gives the same byte); for
    the name of eleven 0x41 bytes it is 0x1C. *)
Theorem ChkSum_is_reference (name : list Z) :
  length name = 11%nat ->
  ChkSum name = ChkSum_reference name
  /\ 0 <= ChkSum name < 256
  /\ (forall rest, ChkSum (name ++ rest) = ChkSum name)
  /\ ChkSum (repeat 0x41 11) = 0x1C.
Proof.
  intros Hlen.
  assert (Href : ChkSum name = ChkSum_reference name).
  { unfold ChkSum, ChkSum_reference. rewrite <- Hlen. apply ChkSum_loop_fold. }
  split; [exact Href|]. split.
  - rewrite Href. unfold ChkSum_reference.
    destruct name as [|b rest] using rev_ind; [discriminate|].
    rewrite fold_left_app. simpl. apply rotate_right_sum_byte.
  - split; [|reflexivity].
    intros rest. unfold ChkSum. apply ChkSum_loop_app. exact Hlen.
Qed.

Lemma ChkSum_is_reference_witness :
  ChkSum (bytes_of_string "README  TXT")
  = ChkSum_reference (bytes_of_string "README  TXT")
  /\ 0 <= ChkSum (bytes_of_string "README  TXT") < 256
  /\ (forall rest, ChkSum (bytes_of_string "README  TXT" ++ rest)
                   = ChkSum (bytes_of_string "README  TXT"))
  /\ ChkSum (repeat 0x41 11) = 0x1C.
Proof. apply (ChkSum_is_reference (bytes_of_string "README  TXT")). reflexivity. Defined.

(** ** The slots of a directory cluster *)

Lemma wrap32_nonneg z : 0 <= wrap32 z.
Proof. unfold wrap32. apply Z.mod_pos_bound. lia. Qed.

Lemma clusterOffset_nonneg g c : Globals_ok g -> 0 <= clusterOffset g c.
Proof.
  intros (_ & Hd & Hb). unfold clusterOffset.
  pose proof (wrap32_nonneg (c - 2)). nia.
Qed.

Lemma slotOffset_nonneg g c i : Globals_ok g -> 0 <= i -> 0 <= slotOffset g c i.
Proof.
  intros Hg Hi. unfold slotOffset. pose proof (clusterOffset_nonneg g c Hg).
  unfold sizeof_DirInfo. lia.
Qed.

Lemma read_long_slot_run A g c i buf (k : LongNameDirInfo -> M A) w :
  Globals_ok g -> 0 <= i ->
  slot_bytes g (fd_image w) c i = Some buf ->
  (l <- read_long_slot g c i ;; k l) w =
  k (decode_LongNameDirInfo buf)
    (with_offset w (slotOffset g c i + Z.of_nat sizeof_DirInfo)).
Proof.
  intros Hg Hi Hb. unfold read_long_slot.
  pose proof (slotOffset_nonneg g c i Hg Hi) as Hoff.
  unfold slot_bytes in Hb.
  change (clusterOffset g c + i * Z.of_nat sizeof_LongNameDirInfo)
    with (slotOffset g c i).
  unfold bind at 1.
  rewrite (seek_read_run _ _ _ (fun buf => ret (decode_LongNameDirInfo buf)) w Hoff).
  change sizeof_LongNameDirInfo with sizeof_DirInfo. rewrite Hb.
  unfold ret. destruct (k _ _) as [[[b w2] o2]|]; reflexivity.
Qed.

Lemma long_name_not_visible attr :
  is_long_name attr = true -> is_directory attr = false /\ is_file attr = false.
Proof. unfold is_directory, is_file. intros ->. split; reflexivity. Qed.

(** ** Long-name fragments *)

(** C4, as the code has it.  While a long name is being accumulated, a
    further long-name slot is appended exactly when its checksum byte equals
    the recorded checksum, its order byte is lower than the order byte of the
    fragment accepted before it, and its entry-type byte is 0; the recorded
    order then becomes the order of this slot.  Any other long-name slot
    ends the accumulation. *)
Theorem later_fragment_appended_iff
    g rec clusterNum depth i buf (v : LongNameVars) w :
  Globals_ok g -> 0 <= i ->
  slot_bytes g (fd_image w) clusterNum i = Some buf ->
  is_long_name (dir_attr (decode_DirInfo buf)) = true ->
  (length (totalLongName v) + 13 <= LONG_NAME_CAPACITY)%nat ->
  let fragment := decode_LongNameDirInfo buf in
  let accepted :=
    (checkSum v =? LDIR_Chksum fragment)
    && (LDIR_Ord fragment <? previousNameOrder v)
    && (LDIR_Type fragment =? 0) in
  readCluster_entry g rec clusterNum depth i (decode_DirInfo buf) (Some v) w
  = Some (if accepted
          then Some {| totalLongName := totalLongName v ++ fragment_units fragment;
                       numLongNameEntries := S (numLongNameEntries v);
                       checkSum := checkSum v;
                       previousNameOrder := LDIR_Ord fragment |}
          else None,
          with_offset w (slotOffset g clusterNum i + Z.of_nat sizeof_DirInfo),
          []).
Proof.
  intros Hg Hi Hb Hlong Hcap fragment accepted.
  destruct (long_name_not_visible _ Hlong) as [Hd Hf].
  unfold readCluster_entry. rewrite Hd, Hf, Hlong.
  rewrite (read_long_slot_run _ g clusterNum i buf _ w Hg Hi Hb).
  fold fragment. fold accepted. destruct accepted; [|reflexivity].
  destruct (Nat.ltb_spec LONG_NAME_CAPACITY (length (totalLongName v) + 13));
    [lia|reflexivity].
Qed.

Lemma later_fragment_appended_iff_witness :
  readCluster_entry Build.globals (readCluster 3 Build.globals) 2 0 1
    (decode_DirInfo
       (Build.long_entry 0x01 (Examples.units_of "head-of-name-")
          (ChkSum (bytes_of_string "FILE    TXT")) 0))
    (Some Examples.accumulating) (Build.world Examples.gap_in_orders)
  = Some (Some {| totalLongName :=
                    Build.pad 13 (Examples.units_of "tail")
                    ++ Examples.units_of "head-of-name-";
                  numLongNameEntries := 2;
                  checkSum := ChkSum (bytes_of_string "FILE    TXT");
                  previousNameOrder := 0x01 |},
          with_offset (Build.world Examples.gap_in_orders) (1536 + 32 + 32),
          []).
Proof.
  apply (later_fragment_appended_iff Build.globals (readCluster 3 Build.globals)
           2 0%nat 1
           (Build.long_entry 0x01 (Examples.units_of "head-of-name-")
              (ChkSum (bytes_of_string "FILE    TXT")) 0)
           Examples.accumulating (Build.world Examples.gap_in_orders)).
  - unfold Globals_ok. simpl. lia.
  - lia.
  - reflexivity.
  - reflexivity.
  - apply Nat.leb_le. reflexivity.
Defined.

(** C4 as stated fails: with the order 0x43 recorded, the slot of order 0x01
    is lower than it and is not 0x43 - 1, and it is appended; the listing
    prints the name made of both fragments. *)
Lemma order_gap_is_appended :
  LDIR_Ord (decode_LongNameDirInfo
              (Build.long_entry 0x01 (Examples.units_of "head-of-name-")
                 (ChkSum (bytes_of_string "FILE    TXT")) 0))
  <> previousNameOrder Examples.accumulating - 1
  /\ option_map (fun r => numLongNameEntries_of (fst (fst r)))
       (readCluster_entry Build.globals (readCluster 3 Build.globals) 2 0 1
          (decode_DirInfo
             (Build.long_entry 0x01 (Examples.units_of "head-of-name-")
                (ChkSum (bytes_of_string "FILE    TXT")) 0))
          (Some Examples.accumulating) (Build.world Examples.gap_in_orders))
     = Some (S (numLongNameEntries Examples.accumulating))
  /\ output (readCluster 3 Build.globals 2 0 (Build.world Examples.gap_in_orders))
     = [PrintEntry 0 LongNameFile (Examples.units_of "head-of-name-tail");
        PrintEntry 0 ShortNameFile (bytes_of_string "FILE.TXT")].
Proof.
  split; [|split].
  - vm_compute. discriminate.
  - vm_compute. reflexivity.
  - vm_compute. reflexivity.
Qed.

(** C3. When a visible short-form entry, directory or file, is reached while
    a long name is accumulated, the long name is printed paired with the
    short name if and only if the checksum of the entry's 11 name bytes
    equals the recorded checksum; otherwise only the short 8.3 name is
    printed.  In either case no long name is accumulated afterwards.  (For
    a directory the listing of the subdirectory follows.) *)
Theorem short_entry_settles_long_name
    g rec clusterNum depth i (d : DirInfo) (v : LongNameVars) w w' sub :
  is_file (dir_attr d) = true
  \/ (is_directory (dir_attr d) = true
      /\ rec (first_cluster d) (S depth) w = Some (tt, w', sub)) ->
  exists lines,
    readCluster_entry g rec clusterNum depth i d (Some v) w
    = Some (None, (if is_directory (dir_attr d) then w' else w),
            lines ++ (if is_directory (dir_attr d) then sub else []))
    /\ (checkSum v = ChkSum (dir_name d) ->
        lines = if is_directory (dir_attr d)
                then paired_lines depth LongNameDirectory ShortNameDirectory
                                  v (givenName_of d)
                else paired_lines depth LongNameFile ShortNameFile
                                  v (fileText_of d))
    /\ (checkSum v <> ChkSum (dir_name d) ->
        lines = if is_directory (dir_attr d)
                then [PrintEntry depth Directory (givenName_of d)]
                else [PrintEntry depth ShortNameFile (fileText_of d)]).
Proof.
  intros [Hf | [Hd Hrec]].
  - assert (Hd : is_directory (dir_attr d) = false).
    { unfold is_file, is_directory in *.
      destruct (has_flag (dir_attr d) ATTR_DIRECTORY);
        [rewrite andb_false_r in Hf; discriminate|].
      rewrite andb_false_r. reflexivity. }
    unfold readCluster_entry. rewrite Hd, Hf.
    destruct (Z.eqb_spec (checkSum v) (ChkSum (dir_name d))) as [Heq | Hne].
    + eexists. split; [reflexivity|]. split; [reflexivity|]. intros; contradiction.
    + eexists. split; [reflexivity|]. split; [intros; contradiction|reflexivity].
  - unfold readCluster_entry. rewrite Hd.
    destruct (Z.eqb_spec (checkSum v) (ChkSum (dir_name d))) as [Heq | Hne].
    + exists (paired_lines depth LongNameDirectory ShortNameDirectory
                           v (givenName_of d)).
      split.
      * unfold bind, emit, ret. cbv beta iota. rewrite Hrec.
        rewrite app_nil_r. reflexivity.
      * split; [reflexivity|]. intros; contradiction.
    + exists [PrintEntry depth Directory (givenName_of d)]. split.
      * unfold bind, emit, ret. cbv beta iota. rewrite Hrec.
        rewrite app_nil_r. reflexivity.
      * split; [intros; contradiction|reflexivity].
Qed.

Lemma short_entry_settles_long_name_witness :
  exists lines,
    readCluster_entry Build.globals (readCluster 3 Build.globals) 2 0 2
      Slots.FILE_TXT (Some Examples.accumulating)
      (Build.world Examples.gap_in_orders)
    = Some (None,
            (if is_directory (dir_attr Slots.FILE_TXT)
             then Build.world Examples.gap_in_orders
             else Build.world Examples.gap_in_orders),
            lines ++ (if is_directory (dir_attr Slots.FILE_TXT) then [] else []))
    /\ (checkSum Examples.accumulating = ChkSum (dir_name Slots.FILE_TXT) ->
        lines = if is_directory (dir_attr Slots.FILE_TXT)
                then paired_lines 0 LongNameDirectory ShortNameDirectory
                                  Examples.accumulating (givenName_of Slots.FILE_TXT)
                else paired_lines 0 LongNameFile ShortNameFile
                                  Examples.accumulating (fileText_of Slots.FILE_TXT))
    /\ (checkSum Examples.accumulating <> ChkSum (dir_name Slots.FILE_TXT) ->
        lines = if is_directory (dir_attr Slots.FILE_TXT)
                then [PrintEntry 0 Directory (givenName_of Slots.FILE_TXT)]
                else [PrintEntry 0 ShortNameFile (fileText_of Slots.FILE_TXT)]).
Proof.
  apply (short_entry_settles_long_name Build.globals (readCluster 3 Build.globals)
           2 0%nat 2 Slots.FILE_TXT Examples.accumulating
           (Build.world Examples.gap_in_orders)
           (Build.world Examples.gap_in_orders) []).
  left. reflexivity.
Defined.

(** ** The slots that are skipped *)

(** C6, as the code has it.  A slot that is neither the end marker nor
    deleted is classified and processed when the depth is 0 or its index is
    above 1; at any other depth the slots 0 and 1 of a cluster are passed
    over: nothing is printed and the long-name state stays as it was. *)
Theorem first_two_slots_skipped_below_root
    g rec clusterNum depth i (ln : LongNameState) buf w :
  Globals_ok g -> 0 <= i ->
  slot_bytes g (fd_image w) clusterNum i = Some buf ->
  nth 0 (dir_name (decode_DirInfo buf)) 0 <> 0x00 ->
  nth 0 (dir_name (decode_DirInfo buf)) 0 <> 0xE5 ->
  let after := with_offset w (slotOffset g clusterNum i + Z.of_nat sizeof_DirInfo) in
  (depth = 0%nat \/ 1 < i ->
   readCluster_slot g rec clusterNum depth i ln w
   = (ln' <- readCluster_entry g rec clusterNum depth i (decode_DirInfo buf) ln ;;
      ret (ln', false)) after)
  /\ (depth <> 0%nat /\ i <= 1 ->
      readCluster_slot g rec clusterNum depth i ln w = Some ((ln, false), after, [])).
Proof.
  intros Hg Hi Hb Hend Hdel after.
  pose proof (slotOffset_nonneg g clusterNum i Hg Hi) as Hoff.
  unfold readCluster_slot.
  rewrite (seek_read_run _ _ _ _ w Hoff).
  unfold slot_bytes in Hb. rewrite Hb. fold after.
  destruct (Z.eqb_spec (nth 0 (dir_name (decode_DirInfo buf)) 0) 0x00); [contradiction|].
  destruct (Z.eqb_spec (nth 0 (dir_name (decode_DirInfo buf)) 0) 0xE5); [contradiction|].
  split.
  - intros [Hdepth | Hidx].
    + subst depth. rewrite orb_true_r. reflexivity.
    + destruct (Z.ltb_spec 1 i); [|lia]. reflexivity.
  - intros [Hdepth Hidx].
    destruct (Z.ltb_spec 1 i); [lia|].
    destruct (Nat.eqb_spec depth 0); [contradiction|]. reflexivity.
Qed.

Lemma first_two_slots_skipped_below_root_witness :
  readCluster_slot Build.globals (readCluster 3 Build.globals) 2 0 0 None
    (Build.world Examples.scenario)
  = (ln' <- readCluster_entry Build.globals (readCluster 3 Build.globals) 2 0 0
               (decode_DirInfo (Build.short_entry "SUB1       " 0x10 3 0)) None ;;
     ret (ln', false))
      (with_offset (Build.world Examples.scenario) (1536 + 32))
  /\ readCluster_slot Build.globals (readCluster 3 Build.globals) 2 1 0 None
       (Build.world Examples.scenario)
     = Some ((None, false),
             with_offset (Build.world Examples.scenario) (1536 + 32), []).
Proof.
  assert (Hg : Globals_ok Build.globals) by (unfold Globals_ok; simpl; lia).
  assert (Hend : nth 0 (dir_name (decode_DirInfo
                   (Build.short_entry "SUB1       " 0x10 3 0))) 0 <> 0x00)
    by (vm_compute; discriminate).
  assert (Hdel : nth 0 (dir_name (decode_DirInfo
                   (Build.short_entry "SUB1       " 0x10 3 0))) 0 <> 0xE5)
    by (vm_compute; discriminate).
  split.
  - apply (proj1 (first_two_slots_skipped_below_root Build.globals
             (readCluster 3 Build.globals) 2 0%nat 0 None
             (Build.short_entry "SUB1       " 0x10 3 0)
             (Build.world Examples.scenario) Hg (Z.le_refl 0) eq_refl Hend Hdel)).
    left. reflexivity.
  - apply (proj2 (first_two_slots_skipped_below_root Build.globals
             (readCluster 3 Build.globals) 2 1%nat 0 None
             (Build.short_entry "SUB1       " 0x10 3 0)
             (Build.world Examples.scenario) Hg (Z.le_refl 0) eq_refl Hend Hdel)).
    split; [discriminate|lia].
Defined.

(** C6 as stated fails in both directions: at depth 0 the slot 0 of the
    root directory is processed and printed, and at depth 1 the same slot is
    passed over. *)
Lemma depth_zero_processes_slot_zero :
  output (readCluster_slot Build.globals (readCluster 3 Build.globals) 2 0 0 None
            (Build.world Examples.scenario))
  = [PrintEntry 0 Directory (bytes_of_string "SUB1");
     PrintEntry 1 ShortNameFile (bytes_of_string "A.TXT")]
  /\ output (readCluster_slot Build.globals (readCluster 3 Build.globals) 2 1 0 None
               (Build.world Examples.scenario))
     = [].
Proof. split; vm_compute; reflexivity. Qed.

(** ** The checks of main *)

Lemma bind_silent A B (m : M A) (k : A -> M B) w a w1 :
  m w = Some (a, w1, []) -> bind m k w = k a w1.
Proof.
  intros Hm. unfold bind. rewrite Hm.
  destruct (k a w1) as [[[b w2] o2]|]; reflexivity.
Qed.

Lemma int_mul_run B a b (k : Z -> M B) w :
  a * b <= INT_MAX -> bind (int_mul a b) k w = k (a * b) w.
Proof.
  intros H. apply bind_silent. unfold int_mul.
  destruct (Z.leb_spec (a * b) INT_MAX); [reflexivity|lia].
Qed.

Lemma read_static_run B count (k : list Z -> M B) w :
  bind (read_static count) k w
  = k (read_static_at (fd_image w) (fd_offset w) count)
      (with_offset w
         (fd_offset w
          + Z.of_nat (length (slice (fd_image w) (Z.to_nat (fd_offset w)) count)))).
Proof. apply bind_silent. reflexivity. Qed.

Lemma lseek_run B off (k : unit -> M B) w :
  0 <= off -> bind (lseek off) k w = k tt (with_offset w off).
Proof.
  intros H. apply bind_silent. unfold lseek, with_offset.
  destruct (Z.ltb_spec off 0); [lia|reflexivity].
Qed.

Lemma read_fat_slot_run B g k0 (k : Z -> M B) w v :
  0 <= fatSectorStart g + (SIZE_OF_FAT_ENTRY / BITS_PER_BYTE) * k0 ->
  option_map (fun buf => le32 buf 0)
    (read_at (fd_image w)
       (fatSectorStart g + (SIZE_OF_FAT_ENTRY / BITS_PER_BYTE) * k0)
       (Z.to_nat (SIZE_OF_FAT_ENTRY / BITS_PER_BYTE))) = Some v ->
  bind (read_fat_slot g k0) k w
  = k v (with_offset w (fatSectorStart g + (SIZE_OF_FAT_ENTRY / BITS_PER_BYTE) * k0
                        + Z.of_nat (Z.to_nat (SIZE_OF_FAT_ENTRY / BITS_PER_BYTE)))).
Proof.
  intros Hoff Hv. apply bind_silent. unfold read_fat_slot.
  rewrite (seek_read_run _ _ _ _ w Hoff).
  destruct (read_at _ _ _) as [buf|]; [|discriminate].
  simpl in Hv. inversion Hv; subst. reflexivity.
Qed.

Lemma reread_fat_slot_run B g k0 (k : Z -> M B) w old :
  0 <= fatSectorStart g + (SIZE_OF_FAT_ENTRY / BITS_PER_BYTE) * k0 ->
  bind (reread_fat_slot g k0 old) k w
  = k (le32 (slice (fd_image w)
               (Z.to_nat (fatSectorStart g
                          + (SIZE_OF_FAT_ENTRY / BITS_PER_BYTE) * k0))
               (Z.to_nat (SIZE_OF_FAT_ENTRY / BITS_PER_BYTE))
             ++ skipn (length (slice (fd_image w)
                                 (Z.to_nat (fatSectorStart g
                                            + (SIZE_OF_FAT_ENTRY / BITS_PER_BYTE) * k0))
                                 (Z.to_nat (SIZE_OF_FAT_ENTRY / BITS_PER_BYTE))))
                      (u32_bytes old)) 0)
      (with_offset w
         (fatSectorStart g + (SIZE_OF_FAT_ENTRY / BITS_PER_BYTE) * k0
          + Z.of_nat (length (slice (fd_image w)
                                (Z.to_nat (fatSectorStart g
                                           + (SIZE_OF_FAT_ENTRY / BITS_PER_BYTE) * k0))
                                (Z.to_nat (SIZE_OF_FAT_ENTRY / BITS_PER_BYTE)))))).
Proof.
  intros Hoff. apply bind_silent. unfold reread_fat_slot.
  rewrite lseek_run by exact Hoff. reflexivity.
Qed.

(** Where the image holds the slot, the read over [old] gives the slot. *)
Lemma fat_slot_over_whole image k old v :
  fat_slot_of image k = Some v -> fat_slot_over image k old = v.
Proof.
  unfold fat_slot_of, fat_slot_over, read_at.
  set (got := slice image _ _).
  destruct (Nat.ltb_spec (length got) (Z.to_nat (SIZE_OF_FAT_ENTRY / BITS_PER_BYTE)))
    as [Hshort|Hwhole]; [discriminate|].
  cbn [option_map]. intros Hv. inversion Hv; subst v.
  change (Z.to_nat (SIZE_OF_FAT_ENTRY / BITS_PER_BYTE)) with 4%nat in Hwhole.
  rewrite (skipn_all2 (u32_bytes old))
    by (unfold u32_bytes; cbn [length]; lia).
  rewrite app_nil_r. reflexivity.
Qed.

Lemma checks_pass_early bs info fat0 fat1 :
  checks_pass bs info fat0 fat1
  = early_checks_pass bs info
    && (Z.land fat0 MASK_FIRST_HEX =? BPB_Media bs + 0x0FFFFF00)
    && (Z.land fat1 MASK_FIRST_HEX =? 0x0FFFFFFF).
Proof. reflexivity. Qed.

Lemma compute_globals_run image w :
  arithmetic_defined (boot_sector_of image) ->
  compute_globals (boot_sector_of image) (info_sector_of image) w
  = Some (globals_of image, w, []).
Proof.
  intros (_ & Hfat & Hclus). unfold compute_globals.
  rewrite int_mul_run by lia. rewrite int_mul_run by lia. reflexivity.
Qed.

Lemma existsb_negb_forallb (f : Z -> bool) l :
  existsb (fun b => negb (f b)) l = negb (forallb f l).
Proof.
  induction l as [|x l IH]; simpl; [reflexivity|].
  rewrite IH. destruct (f x); reflexivity.
Qed.

Lemma exit_failure_run msg w :
  (emit (Printf msg) ;; ret EXIT_FAILURE) w = Some (EXIT_FAILURE, w, [Printf msg]).
Proof. reflexivity. Qed.

(** What main does before its first check, given at least two arguments:
    it opens the image and reads the two sectors. *)
Lemma main_reads fuel argv w :
  (3 <= length argv)%nat ->
  arithmetic_defined (boot_sector_of (fd_image w)) ->
  let bs := boot_sector_of (fd_image w) in
  let info := info_sector_of (fd_image w) in
  let g := globals_of (fd_image w) in
  let wv :=
    with_offset (opened w)
      (BPB_BytesPerSec bs * BPB_FSInfo bs
       + Z.of_nat (length (slice (fd_image w)
                             (Z.to_nat (BPB_BytesPerSec bs * BPB_FSInfo bs))
                             sizeof_fat32FSInfo))) in
  main fuel argv w
  = (if negb (early_checks_pass bs info)
     then
       (if negb (lead_sig info =? 0x41615252) then
          emit (Printf "Info sector does not exist, exiting program.") ;;
          ret EXIT_FAILURE
        else if negb ((nth 0 (BS_jmpBoot bs) 0 =? 0xEB)
                      || (nth 0 (BS_jmpBoot bs) 0 =? 0xE9)) then
          emit (Printf "Jump validation failed, exiting program.") ;;
          ret EXIT_FAILURE
        else if negb (2 <=? BPB_RootClus bs) then
          emit (Printf "BPB_RootClus validation failed, exiting program.") ;;
          ret EXIT_FAILURE
        else if BPB_FATSz32 bs =? 0 then
          emit (Printf "BPB_FATSz32 validation failed, exiting program.") ;;
          ret EXIT_FAILURE
        else if negb (65525 <=? BPB_TotSec32 bs) then
          emit (Printf "BPB_TotSec32 validation failed, exiting program.") ;;
          ret EXIT_FAILURE
        else
          emit (Printf "BPB_reserved validation failed, exiting program.") ;;
          ret EXIT_FAILURE)
     else
       fatValidation <- read_fat_slot g 0 ;;
       if negb (Z.land fatValidation MASK_FIRST_HEX
                =? BPB_Media bs + 0x0FFFFF00) then
         emit (Printf "FAT validation 0 failed, exiting program.") ;;
         ret EXIT_FAILURE
       else
         fatValidation <- reread_fat_slot g 1 fatValidation ;;
         if negb (Z.land fatValidation MASK_FIRST_HEX =? 0x0FFFFFFF) then
           emit (Printf "FAT validation 1 failed, exiting program.") ;;
           ret EXIT_FAILURE
         else run_command fuel g argv) wv.
Proof.
  intros Hargc Hdef bs info g wv.
  pose proof Hdef as (Hinfo & Hfat & Hclus).
  unfold main. destruct (Z.ltb_spec (Z.of_nat (length argv)) 3); [lia|].
  rewrite (bind_silent _ _ (sys_open O_RDONLY) _ w tt (opened w)) by reflexivity.
  rewrite read_static_run.
  cbn [fd_image fd_offset opened].
  change (decode_fat32BS (read_static_at (fd_image w) 0 sizeof_fat32BS)) with bs.
  rewrite int_mul_run by (fold bs in Hinfo; lia).
  rewrite lseek_run by (fold bs in Hinfo; lia).
  rewrite read_static_run.
  cbn [fd_image fd_offset with_offset].
  change (fd_image (opened w)) with (fd_image w).
  change (decode_fat32FSInfo
            (read_static_at (fd_image w) (BPB_BytesPerSec bs * BPB_FSInfo bs)
               sizeof_fat32FSInfo)) with info.
  match goal with
  | |- context [bind (compute_globals bs info) ?k ?w1] =>
      rewrite (bind_silent _ _ (compute_globals bs info) k w1 _ w1
                 (compute_globals_run (fd_image w) w1 Hdef))
  end.
  fold g. unfold early_checks_pass.
  rewrite (Z.leb_antisym (BPB_RootClus bs) 2), (Z.leb_antisym (BPB_TotSec32 bs) 65525).
  rewrite existsb_negb_forallb.
  destruct (lead_sig info =? 0x41615252); cbn [negb andb]; [|reflexivity].
  destruct (nth 0 (BS_jmpBoot bs) 0 =? 0xEB);
    [|destruct (nth 0 (BS_jmpBoot bs) 0 =? 0xE9)]; cbn [negb andb orb].
  3: reflexivity.
  all: destruct (BPB_RootClus bs <? 2); cbn [negb andb]; [reflexivity|].
  all: destruct (BPB_FATSz32 bs =? 0); cbn [negb andb]; [reflexivity|].
  all: destruct (BPB_TotSec32 bs <? 65525); cbn [negb andb]; [reflexivity|].
  all: destruct (forallb (fun b => b =? 0) (BPB_reserved bs)); cbn [negb andb];
    reflexivity.
Qed.

(** What main does up to the end of its checks, given at least two
    arguments: it stops with the message of the first check that fails, or
    goes on to the command.  The message and the world at that point do not
    depend on the arguments.  The check of slot 1 is made on what
    [fatValidation] holds after the read at that slot. *)
Lemma main_checks_any w fat0 :
  arithmetic_defined (boot_sector_of (fd_image w)) ->
  early_checks_pass (boot_sector_of (fd_image w)) (info_sector_of (fd_image w))
  = false
  \/ fat_slot_of (fd_image w) 0 = Some fat0 ->
  exists w2 msg,
    (forall fuel argv, (3 <= length argv)%nat ->
       main fuel argv w
       = if checks_pass (boot_sector_of (fd_image w)) (info_sector_of (fd_image w))
                        fat0 (fat_slot_over (fd_image w) 1 fat0)
         then run_command fuel (globals_of (fd_image w)) argv w2
         else Some (EXIT_FAILURE, w2, [Printf msg]))
    /\ fd_image w2 = fd_image w /\ fd_flags w2 = Some O_RDONLY
    /\ strtok_save w2 = strtok_save w /\ foundFile w2 = foundFile w.
Proof.
  intros Hdef Hor. rewrite checks_pass_early.
  set (bs := boot_sector_of (fd_image w)) in *.
  set (info := info_sector_of (fd_image w)) in *.
  set (g := globals_of (fd_image w)).
  assert (Hstart : 0 <= fatSectorStart g)
    by (destruct Hdef as (_ & Hfat & _); unfold g, globals_of;
        cbn [fatSectorStart]; fold bs; lia).
  destruct (early_checks_pass bs info) eqn:Hearly.
  - destruct Hor as [Hno|H0]; [discriminate|].
    unfold fat_slot_of in H0. fold g in H0.
    cbn [andb].
    destruct (Z.land fat0 MASK_FIRST_HEX =? BPB_Media bs + 0x0FFFFF00) eqn:H7;
      cbn [andb].
    + destruct (Z.land (fat_slot_over (fd_image w) 1 fat0) MASK_FIRST_HEX
                =? 0x0FFFFFFF) eqn:H8.
      * eexists. exists EmptyString. split.
        -- intros fuel argv Hargc. rewrite (main_reads fuel argv w Hargc Hdef).
           cbv zeta. fold bs info g. rewrite Hearly. cbn [negb].
           rewrite (read_fat_slot_run _ g 0 _ _ fat0)
             by (exact H0 || (change (SIZE_OF_FAT_ENTRY / BITS_PER_BYTE) with 4; lia)).
           rewrite H7. cbn [negb].
           rewrite (reread_fat_slot_run _ g 1 _ _ fat0)
             by (change (SIZE_OF_FAT_ENTRY / BITS_PER_BYTE) with 4; lia).
           cbn [fd_image with_offset opened].
           change (le32 _ 0) with (fat_slot_over (fd_image w) 1 fat0).
           rewrite H8. cbn [negb]. reflexivity.
        -- repeat split; reflexivity.
      * eexists. eexists. split.
        -- intros fuel argv Hargc. rewrite (main_reads fuel argv w Hargc Hdef).
           cbv zeta. fold bs info g. rewrite Hearly. cbn [negb].
           rewrite (read_fat_slot_run _ g 0 _ _ fat0)
             by (exact H0 || (change (SIZE_OF_FAT_ENTRY / BITS_PER_BYTE) with 4; lia)).
           rewrite H7. cbn [negb].
           rewrite (reread_fat_slot_run _ g 1 _ _ fat0)
             by (change (SIZE_OF_FAT_ENTRY / BITS_PER_BYTE) with 4; lia).
           cbn [fd_image with_offset opened].
           change (le32 _ 0) with (fat_slot_over (fd_image w) 1 fat0).
           rewrite H8. cbn [negb]. apply exit_failure_run.
        -- repeat split; reflexivity.
    + eexists. eexists. split.
      * intros fuel argv Hargc. rewrite (main_reads fuel argv w Hargc Hdef).
        cbv zeta. fold bs info g. rewrite Hearly. cbn [negb].
        rewrite (read_fat_slot_run _ g 0 _ _ fat0)
          by (exact H0 || (change (SIZE_OF_FAT_ENTRY / BITS_PER_BYTE) with 4; lia)).
        rewrite H7. cbn [negb]. apply exit_failure_run.
      * repeat split; reflexivity.
  - cbn [andb].
    assert (Hmsg : exists msg, forall fuel argv, (3 <= length argv)%nat ->
              main fuel argv w
              = Some (EXIT_FAILURE,
                      with_offset (opened w)
                        (BPB_BytesPerSec bs * BPB_FSInfo bs
                         + Z.of_nat (length (slice (fd_image w)
                                               (Z.to_nat (BPB_BytesPerSec bs
                                                          * BPB_FSInfo bs))
                                               sizeof_fat32FSInfo))),
                      [Printf msg])).
    { destruct (negb (lead_sig info =? 0x41615252)) eqn:E1;
        [|destruct (negb ((nth 0 (BS_jmpBoot bs) 0 =? 0xEB)
                          || (nth 0 (BS_jmpBoot bs) 0 =? 0xE9))) eqn:E2;
          [|destruct (negb (2 <=? BPB_RootClus bs)) eqn:E3;
            [|destruct (BPB_FATSz32 bs =? 0) eqn:E4;
              [|destruct (negb (65525 <=? BPB_TotSec32 bs)) eqn:E5]]]];
        eexists; intros fuel argv Hargc;
        rewrite (main_reads fuel argv w Hargc Hdef);
        cbv zeta; fold bs info g; rewrite Hearly; cbn [negb];
        rewrite ?E1, ?E2, ?E3, ?E4, ?E5; apply exit_failure_run. }
    destruct Hmsg as [msg Hmsg].
    eexists. exists msg. split; [exact Hmsg|repeat split; reflexivity].
Qed.

(** The same for an image that holds both slots, at one command line. *)
Lemma main_checks fuel argv w fat0 fat1 :
  (3 <= length argv)%nat ->
  arithmetic_defined (boot_sector_of (fd_image w)) ->
  fat_slot_of (fd_image w) 0 = Some fat0 ->
  fat_slot_of (fd_image w) 1 = Some fat1 ->
  exists w2,
    (if checks_pass (boot_sector_of (fd_image w)) (info_sector_of (fd_image w))
                    fat0 fat1
     then main fuel argv w = run_command fuel (globals_of (fd_image w)) argv w2
     else exists msg, main fuel argv w = Some (EXIT_FAILURE, w2, [Printf msg]))
    /\ fd_image w2 = fd_image w /\ fd_flags w2 = Some O_RDONLY
    /\ strtok_save w2 = strtok_save w /\ foundFile w2 = foundFile w.
Proof.
  intros Hargc Hdef H0 H1.
  destruct (main_checks_any w fat0 Hdef (or_intror H0)) as (w2 & msg & Hmain & Hw2).
  rewrite (fat_slot_over_whole _ _ fat0 fat1 H1) in Hmain.
  exists w2. split; [|exact Hw2].
  specialize (Hmain fuel argv Hargc).
  destruct (checks_pass _ _ _ _); [exact Hmain|exists msg; exact Hmain].
Qed.

(** C1, as the code has it.  Whatever the arguments and the fuel: on an
    image that fails one of the first six checks (FS-info lead signature,
    first jump-boot byte, root cluster, FAT size, total sectors, the twelve
    reserved bytes), and on an image that holds the FAT slots 0 and 1 and
    fails a check, the program exits with the failure status and all it has
    done is print one message: no directory is walked and no file is
    extracted.  The check of slot 1 is made on what [fatValidation] holds
    after the read at that slot, which is slot 1 when the image holds it;
    on an image that holds slot 0 the program aborts when a check so made
    fails. *)
Theorem failed_check_aborts fuel argv w :
  arithmetic_defined (boot_sector_of (fd_image w)) ->
  (early_checks_pass (boot_sector_of (fd_image w)) (info_sector_of (fd_image w))
   = false
   \/ (fat_slot_of (fd_image w) 0 <> None /\ fat_slot_of (fd_image w) 1 <> None) ->
   validated (fd_image w) = false ->
   exists msg w',
     main fuel argv w = Some (EXIT_FAILURE, w', [Printf msg])
     /\ fd_image w' = fd_image w)
  /\ (forall fat0,
        fat_slot_of (fd_image w) 0 = Some fat0 ->
        checks_pass (boot_sector_of (fd_image w)) (info_sector_of (fd_image w))
                    fat0 (fat_slot_over (fd_image w) 1 fat0) = false ->
        exists msg w',
          main fuel argv w = Some (EXIT_FAILURE, w', [Printf msg])
          /\ fd_image w' = fd_image w)
  /\ (forall fat0 fat1,
        fat_slot_of (fd_image w) 1 = Some fat1 ->
        fat_slot_over (fd_image w) 1 fat0 = fat1).
Proof.
  intros Hdef.
  assert (Hany : forall fat0,
            early_checks_pass (boot_sector_of (fd_image w))
                              (info_sector_of (fd_image w)) = false
            \/ fat_slot_of (fd_image w) 0 = Some fat0 ->
            checks_pass (boot_sector_of (fd_image w)) (info_sector_of (fd_image w))
                        fat0 (fat_slot_over (fd_image w) 1 fat0) = false ->
            exists msg w',
              main fuel argv w = Some (EXIT_FAILURE, w', [Printf msg])
              /\ fd_image w' = fd_image w).
  { intros fat0 Hor Hfail.
    destruct (Nat.ltb_spec (length argv) 3) as [Hshort | Hargc].
    - unfold main. destruct (Z.ltb_spec (Z.of_nat (length argv)) 3); [|lia].
      eexists. exists w. split; [apply exit_failure_run|reflexivity].
    - destruct (main_checks_any w fat0 Hdef Hor) as (w2 & msg & Hmain & Himg & _).
      specialize (Hmain fuel argv Hargc). rewrite Hfail in Hmain.
      exists msg, w2. split; assumption. }
  split; [|split].
  - intros [Hearly | (H0 & H1)] Hfail.
    + apply (Hany 0 (or_introl Hearly)).
      rewrite checks_pass_early, Hearly. reflexivity.
    + unfold validated in Hfail.
      destruct (fat_slot_of (fd_image w) 0) as [fat0|] eqn:E0; [|contradiction].
      destruct (fat_slot_of (fd_image w) 1) as [fat1|] eqn:E1; [|contradiction].
      apply (Hany fat0 (or_intror eq_refl)).
      rewrite (fat_slot_over_whole _ _ fat0 fat1 E1). exact Hfail.
  - intros fat0 H0 Hfail. exact (Hany fat0 (or_intror H0) Hfail).
  - intros fat0 fat1 H1. apply fat_slot_over_whole. exact H1.
Qed.

Lemma failed_check_aborts_witness :
  (exists msg w',
     main 0 ["fat32"; "volume.img"; "list"]%string (Build.world [])
     = Some (EXIT_FAILURE, w', [Printf msg]))
  /\ (exists msg w',
        main 0 ["fat32"; "volume.img"; "list"]%string
             (Build.world BadVolumes.bad_fat_slot_1)
        = Some (EXIT_FAILURE, w', [Printf msg])
        /\ fd_image w' = fd_image (Build.world BadVolumes.bad_fat_slot_1))
  /\ (exists msg w',
        main 0 ["fat32"; "volume.img"; "list"]%string
             (Build.world BadVolumes.bad_fat_slot_1_cut)
        = Some (EXIT_FAILURE, w', [Printf msg]))
  /\ fat_slot_over BadVolumes.bad_fat_slot_1 1 0x0FFFFFF8 = 0x0FFFFFF7.
Proof.
  split; [|split; [|split]].
  - destruct (failed_check_aborts 0 ["fat32"; "volume.img"; "list"]%string
                (Build.world [])
                ltac:(unfold arithmetic_defined; vm_compute;
                      repeat split; discriminate)) as (Hearly & _ & _).
    destruct (Hearly (or_introl eq_refl) eq_refl) as (msg & w' & Hrun & _).
    exists msg, w'. exact Hrun.
  - destruct (failed_check_aborts 0 ["fat32"; "volume.img"; "list"]%string
                (Build.world BadVolumes.bad_fat_slot_1)
                ltac:(unfold arithmetic_defined; vm_compute;
                      repeat split; discriminate)) as (Hboth & _ & _).
    apply Hboth.
    + right. split; vm_compute; discriminate.
    + reflexivity.
  - destruct (failed_check_aborts 0 ["fat32"; "volume.img"; "list"]%string
                (Build.world BadVolumes.bad_fat_slot_1_cut)
                ltac:(unfold arithmetic_defined; vm_compute;
                      repeat split; discriminate)) as (_ & Hcut & _).
    destruct (Hcut 0x0FFFFFF8 eq_refl eq_refl) as (msg & w' & Hrun & _).
    exists msg, w'. exact Hrun.
  - destruct (failed_check_aborts 0 ["fat32"; "volume.img"; "list"]%string
                (Build.world BadVolumes.bad_fat_slot_1)
                ltac:(unfold arithmetic_defined; vm_compute;
                      repeat split; discriminate)) as (_ & _ & Hwhole).
    apply (Hwhole 0x0FFFFFF8 0x0FFFFFF7). reflexivity.
Defined.

(** The claim as stated fails on an image that ends inside FAT slot 1.  The
    image below holds the first two bytes of the slot, 0xFF 0xFF; the read
    leaves the two upper bytes of slot 0, 0xFF 0x0F, in [fatValidation], so
    the check on 0x0FFFFFFF passes although the image does not hold the
    slot: info prints its seven lines and "Done" and ends with status 0,
    and every command line goes on to its command. *)
Lemma image_cut_inside_fat_slot_1_is_accepted :
  validated BadVolumes.cut_inside_fat_slot_1 = false
  /\ fat_slot_of BadVolumes.cut_inside_fat_slot_1 1 = None
  /\ option_map (fun r => (fst (fst r), length (snd r), last (snd r) (Printf "")))
       (main 0 ["fat32"; "volume.img"; "info"]%string
             (Build.world BadVolumes.cut_inside_fat_slot_1))
     = Some (EXIT_SUCCESS, 8%nat, Printf "Done")
  /\ (forall fuel argv, (3 <= length argv)%nat ->
        exists w2,
          main fuel argv (Build.world BadVolumes.cut_inside_fat_slot_1)
          = run_command fuel (globals_of BadVolumes.cut_inside_fat_slot_1) argv w2).
Proof.
  split; [reflexivity|]. split; [reflexivity|]. split.
  - vm_compute. reflexivity.
  - intros fuel argv Hargc.
    destruct (main_checks_any (Build.world BadVolumes.cut_inside_fat_slot_1)
                0x0FFFFFF8
                ltac:(unfold arithmetic_defined; vm_compute;
                      repeat split; discriminate)
                (or_intror eq_refl)) as (w2 & msg & Hmain & _).
    exists w2. rewrite (Hmain fuel argv Hargc).
    replace (checks_pass _ _ _ _) with true by (vm_compute; reflexivity).
    reflexivity.
Qed.

(** ** copyFile *)

Lemma getNextFatValue_run B g c (k : Z -> M B) w v :
  Globals_ok g ->
  fat_value g (fd_image w) c = Some v ->
  exists w1, fd_image w1 = fd_image w /\ strtok_save w1 = strtok_save w
             /\ foundFile w1 = foundFile w /\ fd_flags w1 = fd_flags w
             /\ bind (getNextFatValue g c) k w = k v w1.
Proof.
  intros (Hfat & _) Hv. unfold fat_value in Hv.
  pose proof (wrap32_nonneg ((SIZE_OF_FAT_ENTRY / BITS_PER_BYTE) * c)) as Hw.
  eexists. split; [|split; [|split; [|split]]]; cycle 4.
  - apply bind_silent. unfold getNextFatValue.
    rewrite seek_read_run by lia.
    destruct (read_at _ _ _) as [buf|]; [|discriminate].
    simpl in Hv. inversion Hv; subst. reflexivity.
  - reflexivity.
  - reflexivity.
  - reflexivity.
  - reflexivity.
Qed.

Lemma copyFile_loop_eq fuel g bytesLeft startingCluster :
  copyFile_loop fuel g bytesLeft startingCluster =
  if negb (bytesLeft =? 0) && (startingCluster <? EOC)
     && negb (startingCluster =? 0)
  then
    match fuel with
    | O => out_of_fuel
    | S fuel' =>
        lseek (clusterOffset g startingCluster) ;;
        clusterBytes <- read_struct (Z.to_nat (bytesPerCluster g)) ;;
        if bytesPerCluster g <=? bytesLeft then
          emit (Fwrite clusterBytes) ;;
          next <- getNextFatValue g startingCluster ;;
          copyFile_loop fuel' g (bytesLeft - bytesPerCluster g)
                        (Z.land next MASK_FIRST_HEX)
        else
          emit (Fwrite (firstn (Z.to_nat bytesLeft) clusterBytes)) ;;
          copyFile_loop fuel' g 0 startingCluster
    end
  else ret tt.
Proof. destruct fuel; reflexivity. Qed.

(** The loop stops without a turn exactly when no byte is left, the cluster
    is an end-of-chain value, or the cluster is 0. *)
Lemma copyFile_loop_stops fuel g bytesLeft c w :
  copyFile_loop fuel g bytesLeft c w = Some (tt, w, [])
  <-> (bytesLeft = 0 \/ EOC <= c \/ c = 0).
Proof.
  rewrite copyFile_loop_eq.
  destruct (Z.eqb_spec bytesLeft 0) as [Hb|Hb]; cbn [negb andb].
  { split; [intros _; left; exact Hb|reflexivity]. }
  destruct (Z.ltb_spec c EOC) as [Hc|Hc]; cbn [andb].
  2: { split; [intros _; right; left; exact Hc|reflexivity]. }
  destruct (Z.eqb_spec c 0) as [Hz|Hz]; cbn [negb].
  { split; [intros _; right; right; exact Hz|reflexivity]. }
  split; [|intros [?|[?|?]]; lia].
  destruct fuel as [|fuel']; [discriminate|].
  intros Hrun. exfalso.
  apply bind_Some in Hrun. destruct Hrun as (u & w1 & o1 & o2 & _ & Hrest & Hout).
  apply bind_Some in Hrest. destruct Hrest as (buf & w2 & o3 & o4 & _ & Hrest & Hout2).
  destruct (bytesPerCluster g <=? bytesLeft).
  - apply bind_Some in Hrest. destruct Hrest as (? & ? & o5 & o6 & He & _ & Hout3).
    inversion He; subst. destruct o1, o3; discriminate.
  - apply bind_Some in Hrest. destruct Hrest as (? & ? & o5 & o6 & He & _ & Hout3).
    inversion He; subst. destruct o1, o3; discriminate.
Qed.

Section CopyFile.

Variable g : Globals.
Hypothesis Hg : Globals_ok g.
Hypothesis Hbpc : 0 < bytesPerCluster g.

Lemma chain_chunks_length image k : forall c,
  chain_ok g image c k = true ->
  Z.of_nat (length (concat (chain_chunks g image c k)))
  = Z.of_nat k * bytesPerCluster g
  /\ map (fun ch => Z.of_nat (length ch)) (chain_chunks g image c k)
     = repeat (bytesPerCluster g) k.
Proof.
  induction k as [|k IH]; intros c Hok; [split; reflexivity|].
  cbn [chain_ok chain_chunks] in *.
  destruct (cluster_bytes g image c) as [data|] eqn:Hdata;
    [|rewrite andb_false_r in Hok; discriminate].
  destruct (next_cluster g image c) as [n|]; [|rewrite andb_false_r in Hok; discriminate].
  apply andb_prop in Hok. destruct Hok as [_ Hok].
  destruct (IH n Hok) as [IHlen IHmap].
  apply read_at_length in Hdata.
  split.
  - cbn [concat]. rewrite length_app. lia.
  - cbn [map repeat]. rewrite IHmap. f_equal. lia.
Qed.

Lemma chain_split image a : forall b c,
  chain_ok g image c (a + b) = true ->
  exists n, chain_end g image c a = Some n
            /\ chain_ok g image c a = true
            /\ chain_ok g image n b = true
            /\ chain_chunks g image c (a + b)
               = chain_chunks g image c a ++ chain_chunks g image n b.
Proof.
  induction a as [|a IH]; intros b c Hok.
  - exists c. repeat split; try reflexivity. exact Hok.
  - cbn [Nat.add chain_ok chain_chunks chain_end] in *.
    destruct (cluster_bytes g image c) as [data|];
      [|rewrite andb_false_r in Hok; discriminate].
    destruct (next_cluster g image c) as [n0|];
      [|rewrite andb_false_r in Hok; discriminate].
    apply andb_prop in Hok. destruct Hok as [Hc Hok].
    destruct (IH b n0 Hok) as (n & Hend & Ha & Hb & Hchunks).
    exists n. rewrite Hc, Ha, Hchunks. repeat split; try reflexivity; assumption.
Qed.

(** [k] full clusters are written one after the other, then the loop goes on
    from the cluster that follows them in the chain. *)
Lemma copyFile_loop_full_clusters k : forall fuel bytesLeft c w,
  chain_ok g (fd_image w) c k = true ->
  Z.of_nat k * bytesPerCluster g <= bytesLeft ->
  exists w1 n,
    chain_end g (fd_image w) c k = Some n
    /\ fd_image w1 = fd_image w
    /\ copyFile_loop (k + fuel) g bytesLeft c w
       = match copyFile_loop fuel g
                 (bytesLeft - Z.of_nat k * bytesPerCluster g) n w1 with
         | Some (u, w2, o) =>
             Some (u, w2, map Fwrite (chain_chunks g (fd_image w) c k) ++ o)
         | None => None
         end.
Proof.
  induction k as [|k IH]; intros fuel bytesLeft c w Hok Hle.
  - exists w, c. repeat split. cbn [Nat.add chain_chunks map app].
    replace (bytesLeft - Z.of_nat 0 * bytesPerCluster g) with bytesLeft by lia.
    destruct (copyFile_loop fuel g bytesLeft c w) as [[[u w2] o]|]; reflexivity.
  - cbn [chain_ok chain_chunks chain_end] in *.
    destruct (cluster_bytes g (fd_image w) c) as [data|] eqn:Hdata;
      [|rewrite andb_false_r in Hok; discriminate].
    destruct (next_cluster g (fd_image w) c) as [n0|] eqn:Hnext;
      [|rewrite andb_false_r in Hok; discriminate].
    apply andb_prop in Hok. destruct Hok as [Hc Hok].
    apply andb_prop in Hc. destruct Hc as [Hc0 Hc1].
    unfold next_cluster in Hnext.
    destruct (fat_value g (fd_image w) c) as [v|] eqn:Hv; [|discriminate].
    cbn [option_map] in Hnext. inversion Hnext as [Hn0]; clear Hnext.
    cbn [Nat.add]. rewrite copyFile_loop_eq.
    assert (Hb : (bytesLeft =? 0) = false) by (apply Z.eqb_neq; lia).
    rewrite Hb, Hc0, Hc1. cbn [negb andb].
    rewrite (seek_read_run _ _ _ _ w (clusterOffset_nonneg g c Hg)).
    unfold cluster_bytes in Hdata. rewrite Hdata.
    destruct (Z.leb_spec (bytesPerCluster g) bytesLeft); [|lia].
    rewrite bind_emit_run.
    match goal with
    | |- context [bind (getNextFatValue g c) ?kk ?ww] =>
        destruct (getNextFatValue_run _ g c kk ww v Hg Hv)
          as (w1 & Himg1 & _ & _ & _ & Hrun)
    end.
    rewrite Hrun. rewrite Hn0.
    cbn [fd_image with_offset] in Himg1.
    assert (Hok1 : chain_ok g (fd_image w1) n0 k = true) by (rewrite Himg1; exact Hok).
    destruct (IH fuel (bytesLeft - bytesPerCluster g) n0 w1 Hok1 ltac:(lia))
      as (w2 & n & Hend & Himg2 & Hloop).
    rewrite Himg1 in Hend, Hloop.
    exists w2, n. split; [exact Hend|]. split; [congruence|].
    rewrite Hloop. clear Hloop.
    replace (bytesLeft - bytesPerCluster g - Z.of_nat k * bytesPerCluster g)
      with (bytesLeft - Z.of_nat (S k) * bytesPerCluster g) by lia.
    destruct (copyFile_loop fuel g _ n w2) as [[[u w3] o]|]; reflexivity.
Qed.

(** The last cluster of a file whose size is not a multiple of the cluster
    size: only the bytes that are left are written. *)
Lemma copyFile_loop_partial_cluster fuel bytesLeft c w :
  chain_ok g (fd_image w) c 1 = true ->
  0 < bytesLeft < bytesPerCluster g ->
  exists w1 data,
    chain_chunks g (fd_image w) c 1 = [data]
    /\ fd_image w1 = fd_image w
    /\ copyFile_loop (S fuel) g bytesLeft c w
       = Some (tt, w1, [Fwrite (firstn (Z.to_nat bytesLeft) data)]).
Proof.
  intros Hok Hb. cbn [chain_ok chain_chunks] in *.
  destruct (cluster_bytes g (fd_image w) c) as [data|] eqn:Hdata;
    [|rewrite andb_false_r in Hok; discriminate].
  destruct (next_cluster g (fd_image w) c) as [n0|];
    [|rewrite andb_false_r in Hok; discriminate].
  apply andb_prop in Hok. destruct Hok as [Hc _].
  apply andb_prop in Hc. destruct Hc as [Hc0 Hc1].
  rewrite copyFile_loop_eq.
  assert (Hb0 : (bytesLeft =? 0) = false) by (apply Z.eqb_neq; lia).
  rewrite Hb0, Hc0, Hc1. cbn [negb andb].
  rewrite (seek_read_run _ _ _ _ w (clusterOffset_nonneg g c Hg)).
  unfold cluster_bytes in Hdata. rewrite Hdata.
  destruct (Z.leb_spec (bytesPerCluster g) bytesLeft); [lia|].
  rewrite bind_emit_run. rewrite copyFile_loop_eq. cbn [Z.eqb negb andb].
  eexists. exists data. split; [reflexivity|]. split; [|reflexivity]. reflexivity.
Qed.

End CopyFile.

Lemma clusters_needed_spec size bpc :
  0 <= size -> 0 < bpc ->
  clusters_needed size bpc
  = (Z.to_nat (size / bpc)%Z + (if (size mod bpc =? 0)%Z then 0 else 1))%nat.
Proof.
  intros Hs Hb. unfold clusters_needed.
  pose proof (Z.div_mod size bpc ltac:(lia)) as Hdm.
  pose proof (Z.mod_pos_bound size bpc Hb) as Hr.
  pose proof (Z.div_pos size bpc Hs Hb) as Hq.
  destruct (Z.eqb_spec (size mod bpc) 0) as [Hz | Hnz].
  - replace ((size + bpc - 1) / bpc) with (size / bpc); [lia|].
    apply (Z.div_unique _ _ _ (bpc - 1)); [lia|]. lia.
  - replace ((size + bpc - 1) / bpc) with (size / bpc + 1); [lia|].
    apply (Z.div_unique _ _ _ (size mod bpc - 1)); [lia|]. lia.
Qed.

Lemma copyFile_run fuel g (d : DirInfo) start givenName ext w w' o :
  copyFile_loop fuel g (dir_file_size d) start w = Some (tt, w', o) ->
  copyFile fuel g d start givenName ext w
  = Some (tt, w', [Fopen (destination_of givenName ext)] ++ o ++ [Fclose]).
Proof.
  intros Hloop. unfold copyFile. rewrite bind_emit_run.
  unfold bind. rewrite Hloop. reflexivity.
Qed.

Lemma firstn_concat_exact (A : Type) (l : list A) n :
  length l = n -> firstn n l = l.
Proof. intros <-. apply firstn_all. Qed.

Section CopyFileWhole.

Variable g : Globals.
Hypothesis Hg : Globals_ok g.
Hypothesis Hbpc : 0 < bytesPerCluster g.

Lemma copyFile_loop_exact fuel size start w :
  0 <= size ->
  chain_ok g (fd_image w) start (clusters_needed size (bytesPerCluster g)) = true ->
  (clusters_needed size (bytesPerCluster g) <= fuel)%nat ->
  exists w' chunks,
    copyFile_loop fuel g size start w = Some (tt, w', map Fwrite chunks)
    /\ concat chunks
       = firstn (Z.to_nat size)
           (concat (chain_chunks g (fd_image w) start
                      (clusters_needed size (bytesPerCluster g))))
    /\ Z.of_nat (length (concat chunks)) = size
    /\ map (fun ch => Z.of_nat (length ch)) chunks
       = write_sizes size (bytesPerCluster g).
Proof.
  intros Hsize. rewrite (clusters_needed_spec size (bytesPerCluster g) Hsize Hbpc).
  unfold write_sizes.
  set (bpc := bytesPerCluster g) in *.
  set (q := Z.to_nat (size / bpc)).
  pose proof (Z.div_mod size bpc ltac:(lia)) as Hdm.
  pose proof (Z.mod_pos_bound size bpc Hbpc) as Hr.
  pose proof (Z.div_pos size bpc Hsize Hbpc) as Hq0.
  assert (Hq : Z.of_nat q = size / bpc) by (unfold q; lia).
  destruct (Z.eqb_spec (size mod bpc) 0) as [Hz | Hnz]; intros Hok Hfuel.
  - rewrite Nat.add_0_r in *.
    destruct (copyFile_loop_full_clusters g Hg Hbpc q (fuel - q) size start w Hok
                ltac:(fold bpc; lia)) as (w1 & n & _ & _ & Hloop).
    replace (q + (fuel - q))%nat with fuel in Hloop by lia.
    replace (size - Z.of_nat q * bytesPerCluster g) with 0 in Hloop by (fold bpc; lia).
    rewrite (proj2 (copyFile_loop_stops (fuel - q) g 0 n w1) (or_introl eq_refl)) in Hloop.
    rewrite app_nil_r in Hloop.
    destruct (chain_chunks_length g Hbpc (fd_image w) q start Hok) as [Hlen Hmap].
    exists w1, (chain_chunks g (fd_image w) start q).
    split; [exact Hloop|]. split; [|split].
    + symmetry. apply firstn_concat_exact. fold bpc in Hlen. lia.
    + fold bpc in Hlen. lia.
    + rewrite app_nil_r. exact Hmap.
  - destruct (chain_split g (fd_image w) q 1 start Hok)
      as (n & Hend & Hokq & Hok1 & Hchunks).
    destruct (copyFile_loop_full_clusters g Hg Hbpc q (S (fuel - q - 1)) size start w Hokq
                ltac:(fold bpc; lia)) as (w1 & n' & Hend' & Himg1 & Hloop).
    rewrite Hend in Hend'. inversion Hend'; subst n'. clear Hend'.
    replace (q + S (fuel - q - 1))%nat with fuel in Hloop by lia.
    rewrite <- Himg1 in Hok1.
    destruct (copyFile_loop_partial_cluster g Hg (fuel - q - 1)
                (size - Z.of_nat q * bytesPerCluster g) n w1 Hok1
                ltac:(fold bpc; lia)) as (w2 & data & Hdata & _ & Hlast).
    rewrite Hlast in Hloop. rewrite Himg1 in Hdata, Hok1.
    destruct (chain_chunks_length g Hbpc (fd_image w) q start Hokq) as [Hlen Hmap].
    destruct (chain_chunks_length g Hbpc (fd_image w) 1 n Hok1) as [Hlen1 _].
    rewrite Hdata in Hlen1. cbn [concat] in Hlen1. rewrite app_nil_r in Hlen1.
    fold bpc in Hlen, Hlen1, Hloop.
    replace (size - Z.of_nat q * bpc) with (size mod bpc) in Hloop by lia.
    exists w2, (chain_chunks g (fd_image w) start q
                ++ [firstn (Z.to_nat (size mod bpc)) data]).
    split; [|split; [|split]].
    + rewrite Hloop. rewrite map_app. reflexivity.
    + rewrite Hchunks, Hdata. rewrite !concat_app. cbn [concat].
      rewrite !app_nil_r.
      replace (Z.to_nat size)
        with (length (concat (chain_chunks g (fd_image w) start q))
              + Z.to_nat (size mod bpc))%nat by lia.
      rewrite firstn_app_2. reflexivity.
    + rewrite concat_app, length_app. cbn [concat]. rewrite app_nil_r.
      rewrite length_firstn. lia.
    + rewrite map_app, Hmap. cbn [map]. rewrite length_firstn.
      f_equal. f_equal. lia.
Qed.

(** A chain that ends (on 0 or on an end-of-chain value) after [j] clusters
    that do not hold the declared size: the [j] clusters are written and the
    loop returns as it does when nothing is missing. *)
Lemma copyFile_loop_truncated fuel size start w j n :
  chain_ok g (fd_image w) start j = true ->
  chain_end g (fd_image w) start j = Some n ->
  n = 0 \/ EOC <= n ->
  Z.of_nat j * bytesPerCluster g < size ->
  (j <= fuel)%nat ->
  exists w',
    copyFile_loop fuel g size start w
    = Some (tt, w', map Fwrite (chain_chunks g (fd_image w) start j))
    /\ Z.of_nat (length (concat (chain_chunks g (fd_image w) start j)))
       = Z.of_nat j * bytesPerCluster g.
Proof.
  intros Hok Hend Hn Hlt Hfuel.
  destruct (copyFile_loop_full_clusters g Hg Hbpc j (fuel - j) size start w Hok
              ltac:(lia)) as (w1 & n' & Hend' & _ & Hloop).
  rewrite Hend in Hend'. inversion Hend'; subst n'.
  replace (j + (fuel - j))%nat with fuel in Hloop by lia.
  rewrite (proj2 (copyFile_loop_stops (fuel - j) g _ n w1)) in Hloop
    by (destruct Hn; [right; right|right; left]; assumption).
  rewrite app_nil_r in Hloop.
  exists w1. split; [exact Hloop|].
  apply (chain_chunks_length g Hbpc (fd_image w) j start Hok).
Qed.

End CopyFileWhole.

(** C2. For a file of declared size S (cluster size positive):
    - when the chain from its start cluster has the ceil (S / bytesPerCluster)
      data clusters the size needs, extraction writes exactly S bytes, the
      first S bytes of these clusters in chain order, in writes of one full
      cluster each, the last one cut to S mod bytesPerCluster when S is not
      a multiple of the cluster size;
    - the copy loop stops without a turn exactly when no byte is left, the
      masked cluster is at or above the end-of-chain bound, or the cluster
      is 0;
    - when the chain ends after j clusters that hold fewer than S bytes,
      these j clusters are written, fewer than S bytes, and copyFile returns
      as in the complete case: there is no error signal. *)
Theorem copyFile_byte_exact g (d : DirInfo) start givenName ext w :
  Globals_ok g -> 0 < bytesPerCluster g -> 0 <= dir_file_size d ->
  (forall fuel,
     chain_ok g (fd_image w) start
              (clusters_needed (dir_file_size d) (bytesPerCluster g)) = true ->
     (clusters_needed (dir_file_size d) (bytesPerCluster g) <= fuel)%nat ->
     exists w' chunks,
       copyFile fuel g d start givenName ext w
       = Some (tt, w', [Fopen (destination_of givenName ext)]
                       ++ map Fwrite chunks ++ [Fclose])
       /\ concat chunks
          = firstn (Z.to_nat (dir_file_size d))
              (concat (chain_chunks g (fd_image w) start
                         (clusters_needed (dir_file_size d) (bytesPerCluster g))))
       /\ Z.of_nat (length (concat chunks)) = dir_file_size d
       /\ map (fun ch => Z.of_nat (length ch)) chunks
          = write_sizes (dir_file_size d) (bytesPerCluster g))
  /\ (forall fuel bytesLeft c w0,
        copyFile_loop fuel g bytesLeft c w0 = Some (tt, w0, [])
        <-> (bytesLeft = 0 \/ EOC <= c \/ c = 0))
  /\ (forall fuel j n,
        chain_ok g (fd_image w) start j = true ->
        chain_end g (fd_image w) start j = Some n ->
        n = 0 \/ EOC <= n ->
        Z.of_nat j * bytesPerCluster g < dir_file_size d ->
        (j <= fuel)%nat ->
        exists w',
          copyFile fuel g d start givenName ext w
          = Some (tt, w', [Fopen (destination_of givenName ext)]
                          ++ map Fwrite (chain_chunks g (fd_image w) start j)
                          ++ [Fclose])
          /\ Z.of_nat (length (concat (chain_chunks g (fd_image w) start j)))
             < dir_file_size d).
Proof.
  intros Hg Hbpc Hsize. split; [|split].
  - intros fuel Hok Hfuel.
    destruct (copyFile_loop_exact g Hg Hbpc fuel (dir_file_size d) start w
                Hsize Hok Hfuel) as (w' & chunks & Hloop & Hdata & Hlen & Hsizes).
    exists w', chunks. split; [|auto].
    apply copyFile_run. exact Hloop.
  - intros fuel bytesLeft c w0. apply copyFile_loop_stops.
  - intros fuel j n Hok Hend Hn Hlt Hfuel.
    destruct (copyFile_loop_truncated g Hg Hbpc fuel (dir_file_size d) start w j n
                Hok Hend Hn Hlt Hfuel) as (w' & Hloop & Hlen).
    exists w'. split; [apply copyFile_run; exact Hloop|lia].
Qed.

Lemma copyFile_byte_exact_witness :
  (exists w' chunks,
     copyFile 2 Build.globals Files.BIG_BIN 3
              (bytes_of_string "BIG") (bytes_of_string "BIN")
              (Build.world Files.two_clusters)
     = Some (tt, w', [Fopen (bytes_of_string "output/BIG.BIN")]
                     ++ map Fwrite chunks ++ [Fclose])
     /\ concat chunks = repeat 7 512 ++ repeat 9 88
     /\ map (fun ch => Z.of_nat (length ch)) chunks = [512; 88])
  /\ (exists w',
        copyFile 1 Build.globals Files.CUT_BIN 3
                 (bytes_of_string "CUT") (bytes_of_string "BIN")
                 (Build.world Files.truncated)
        = Some (tt, w', [Fopen (bytes_of_string "output/CUT.BIN")]
                        ++ [Fwrite (repeat 7 512)] ++ [Fclose])).
Proof.
  assert (Hg : Globals_ok Build.globals) by (unfold Globals_ok; simpl; lia).
  split.
  - destruct (proj1 (copyFile_byte_exact Build.globals Files.BIG_BIN 3
                       (bytes_of_string "BIG") (bytes_of_string "BIN")
                       (Build.world Files.two_clusters) Hg eq_refl
                       ltac:(vm_compute; discriminate))
                    2%nat eq_refl ltac:(vm_compute; lia))
      as (w' & chunks & Hrun & Hdata & _ & Hsizes).
    exists w', chunks. split; [exact Hrun|]. split; [exact Hdata|exact Hsizes].
  - destruct (proj2 (proj2 (copyFile_byte_exact Build.globals Files.CUT_BIN 3
                       (bytes_of_string "CUT") (bytes_of_string "BIN")
                       (Build.world Files.truncated) Hg eq_refl
                       ltac:(vm_compute; discriminate)))
                    1%nat 1%nat Examples.END eq_refl eq_refl
                    ltac:(right; vm_compute; discriminate)
                    eq_refl ltac:(lia))
      as (w' & Hrun & _).
    exists w'. exact Hrun.
Defined.

(** ** The image is only read *)

Lemma keeps_ret A (a : A) : keeps_image (ret a).
Proof. intros w a' w' o H. inversion H; subst. auto. Qed.

Lemma keeps_emit e : keeps_image (emit e).
Proof. intros w a' w' o H. inversion H; subst. auto. Qed.

Lemma keeps_undefined A : keeps_image (@undefined A).
Proof. intros w a' w' o H. discriminate. Qed.

Lemma keeps_out_of_fuel A : keeps_image (@out_of_fuel A).
Proof. intros w a' w' o H. discriminate. Qed.

Lemma keeps_bind A B (m : M A) (f : A -> M B) :
  keeps_image m -> (forall a, keeps_image (f a)) -> keeps_image (bind m f).
Proof.
  intros Hm Hf w b w2 o H.
  apply bind_Some in H. destruct H as (a & w1 & o1 & o2 & H1 & H2 & _).
  destruct (Hm _ _ _ _ H1) as [Hi1 Hf1].
  destruct (Hf a _ _ _ _ H2) as [Hi2 Hf2].
  split; [congruence|auto].
Qed.

Lemma keeps_sys_open : keeps_image (sys_open O_RDONLY).
Proof. intros w a w' o H. inversion H; subst. auto. Qed.

Lemma keeps_lseek off : keeps_image (lseek off).
Proof. intros w a w' o H. inversion H; subst. auto. Qed.

Lemma keeps_sys_read count : keeps_image (sys_read count).
Proof. intros w a w' o H. inversion H; subst. auto. Qed.

Lemma keeps_set_foundFile b : keeps_image (set_foundFile b).
Proof. intros w a w' o H. inversion H; subst. auto. Qed.

Lemma keeps_get_foundFile : keeps_image get_foundFile.
Proof. intros w a w' o H. inversion H; subst. auto. Qed.

Lemma keeps_strtok str : keeps_image (strtok str).
Proof.
  intros w a w' o H. unfold strtok in H.
  destruct (strtok_from _) as [tok rest]. inversion H; subst. auto.
Qed.

Ltac keeps :=
  repeat first
    [ assumption
    | apply keeps_ret | apply keeps_emit | apply keeps_undefined
    | apply keeps_out_of_fuel | apply keeps_sys_open | apply keeps_lseek
    | apply keeps_sys_read | apply keeps_set_foundFile
    | apply keeps_get_foundFile | apply keeps_strtok
    | apply keeps_bind; [|intro]
    | match goal with
      | |- keeps_image (if ?b then _ else _) => destruct b
      | |- keeps_image (match ?x with _ => _ end) => destruct x
      | H : forall a b, keeps_image (?f a b) |- keeps_image (?f _ _) => apply H
      | H : forall a b c, keeps_image (?f a b c) |- keeps_image (?f _ _ _) => apply H
      end ].

Lemma keeps_read_struct count : keeps_image (read_struct count).
Proof. unfold read_struct. keeps. Qed.

Lemma keeps_read_static count : keeps_image (read_static count).
Proof. unfold read_static. keeps. Qed.

Lemma keeps_int_mul a b : keeps_image (int_mul a b).
Proof. unfold int_mul. keeps. Qed.

Lemma keeps_getNextFatValue g c : keeps_image (getNextFatValue g c).
Proof. unfold getNextFatValue. keeps. Qed.

Lemma keeps_read_long_slot g c i : keeps_image (read_long_slot g c i).
Proof. unfold read_long_slot. keeps. Qed.

Lemma keeps_readCluster_entry g rec c depth i d ln :
  (forall c' depth', keeps_image (rec c' depth')) ->
  keeps_image (readCluster_entry g rec c depth i d ln).
Proof. intros Hrec. unfold readCluster_entry. keeps. Qed.

Lemma keeps_readCluster_slot g rec c depth i ln :
  (forall c' depth', keeps_image (rec c' depth')) ->
  keeps_image (readCluster_slot g rec c depth i ln).
Proof.
  intros Hrec. unfold readCluster_slot. keeps.
  all: apply keeps_readCluster_entry; assumption.
Qed.

Lemma keeps_readCluster_loop g rec c depth n : forall i ln,
  (forall c' depth', keeps_image (rec c' depth')) ->
  keeps_image (readCluster_loop g rec c depth n i ln).
Proof.
  induction n as [|n IH]; intros i ln Hrec; cbn [readCluster_loop];
    [apply keeps_ret|].
  apply keeps_bind; [apply keeps_readCluster_slot; assumption|].
  intros r. destruct (snd r); [apply keeps_ret|apply IH; assumption].
Qed.

Lemma keeps_readCluster fuel g : forall c depth,
  keeps_image (readCluster fuel g c depth).
Proof.
  induction fuel as [|fuel IH]; intros c depth; cbn [readCluster];
    [apply keeps_out_of_fuel|].
  unfold readCluster_step.
  apply keeps_bind; [apply keeps_readCluster_loop; assumption|]. intros _.
  apply keeps_bind; [apply keeps_getNextFatValue|]. intros next.
  destruct (_ <? _); [apply IH|apply keeps_ret].
Qed.

Lemma keeps_copyFile_loop fuel g : forall bytesLeft c,
  keeps_image (copyFile_loop fuel g bytesLeft c).
Proof.
  induction fuel as [|fuel IH]; intros bytesLeft c; rewrite copyFile_loop_eq.
  - destruct (_ && _); [apply keeps_out_of_fuel|apply keeps_ret].
  - destruct (_ && _); [|apply keeps_ret].
    apply keeps_bind; [apply keeps_lseek|]. intros _.
    apply keeps_bind; [apply keeps_read_struct|]. intros buf.
    destruct (_ <=? _).
    + apply keeps_bind; [apply keeps_emit|]. intros _.
      apply keeps_bind; [apply keeps_getNextFatValue|]. intros next. apply IH.
    + apply keeps_bind; [apply keeps_emit|]. intros _. apply IH.
Qed.

Lemma keeps_copyFile fuel g d start givenName ext :
  keeps_image (copyFile fuel g d start givenName ext).
Proof.
  unfold copyFile.
  apply keeps_bind; [apply keeps_emit|]. intros _.
  apply keeps_bind; [apply keeps_copyFile_loop|]. intros _. apply keeps_emit.
Qed.

Lemma keeps_fetchFile_slot g fuel rec c numLeft i target :
  (forall c' t' n', keeps_image (rec c' t' n')) ->
  keeps_image (fetchFile_slot g fuel rec c numLeft i target).
Proof.
  intros Hrec. unfold fetchFile_slot.
  apply keeps_bind; [apply keeps_lseek|]. intros _.
  apply keeps_bind; [apply keeps_read_struct|]. intros buf.
  destruct (_ =? 0x00); [apply keeps_ret|].
  destruct (negb _); [|apply keeps_ret].
  destruct (_ && _).
  - destruct (strcmp0 _ _); [|apply keeps_ret].
    apply keeps_bind; [apply keeps_strtok|]. intros tok.
    apply keeps_bind; [apply Hrec|]. intros _. apply keeps_ret.
  - destruct (_ && _); [|apply keeps_ret].
    destruct (strcmp0 _ _); [|apply keeps_ret].
    apply keeps_bind; [apply keeps_set_foundFile|]. intros _.
    apply keeps_bind; [apply keeps_copyFile|]. intros _. apply keeps_ret.
Qed.

Lemma keeps_fetchFile_loop g fuel rec c numLeft n : forall i target,
  (forall c' t' n', keeps_image (rec c' t' n')) ->
  keeps_image (fetchFile_loop g fuel rec c numLeft n i target).
Proof.
  induction n as [|n IH]; intros i target Hrec; cbn [fetchFile_loop];
    [apply keeps_ret|].
  apply keeps_bind; [apply keeps_fetchFile_slot; assumption|].
  intros [[target' foundTarget] brk].
  destruct brk; [apply keeps_ret|apply IH; assumption].
Qed.

Lemma keeps_fetchFile fuel g : forall c target numLeft,
  keeps_image (fetchFile fuel g c target numLeft).
Proof.
  induction fuel as [|fuel IH]; intros c target numLeft; cbn [fetchFile];
    [apply keeps_out_of_fuel|].
  unfold fetchFile_step. destruct target as [t|]; [|apply keeps_ret].
  destruct (_ =? _)%nat; [apply keeps_ret|].
  apply keeps_bind; [apply keeps_fetchFile_loop; assumption|].
  intros [target' foundTarget].
  apply keeps_bind; [apply keeps_getNextFatValue|]. intros next.
  destruct (_ && _); [apply IH|apply keeps_ret].
Qed.

Lemma keeps_printInfo g : keeps_image (printInfo g).
Proof. unfold printInfo, int_mul. keeps. Qed.

Lemma keeps_run_command fuel g argv : keeps_image (run_command fuel g argv).
Proof.
  unfold run_command.
  destruct (String.eqb _ "info").
  { apply keeps_bind; [apply keeps_printInfo|]. intros _. keeps. }
  destruct (String.eqb _ "list").
  { apply keeps_bind; [apply keeps_readCluster|]. intros _. keeps. }
  destruct (String.eqb _ "get"); [|keeps].
  destruct (negb _); [keeps|].
  apply keeps_bind; [apply keeps_strtok|]. intros token.
  apply keeps_bind; [apply keeps_set_foundFile|]. intros _.
  apply keeps_bind; [apply keeps_fetchFile|]. intros _.
  apply keeps_bind; [apply keeps_get_foundFile|]. intros found.
  destruct found; keeps.
Qed.

Lemma keeps_compute_globals bs info : keeps_image (compute_globals bs info).
Proof. unfold compute_globals, int_mul. keeps. Qed.

Lemma keeps_read_fat_slot g k : keeps_image (read_fat_slot g k).
Proof. unfold read_fat_slot. keeps. Qed.

Lemma keeps_reread_fat_slot g k old : keeps_image (reread_fat_slot g k old).
Proof. unfold reread_fat_slot, read_over. keeps. Qed.

Lemma keeps_main fuel argv : keeps_image (main fuel argv).
Proof.
  unfold main. destruct (_ <? 3); [keeps|].
  apply keeps_bind; [apply keeps_sys_open|]. intros _.
  apply keeps_bind; [apply keeps_read_static|]. intros bsbuf.
  apply keeps_bind; [apply keeps_int_mul|]. intros infoOffset.
  apply keeps_bind; [apply keeps_lseek|]. intros _.
  apply keeps_bind; [apply keeps_read_static|]. intros infobuf.
  apply keeps_bind; [apply keeps_compute_globals|]. intros g.
  destruct (negb _); [keeps|].
  destruct (_ && _); [keeps|].
  destruct (_ <? 2); [keeps|].
  destruct (_ =? 0); [keeps|].
  destruct (_ <? 65525); [keeps|].
  destruct (existsb _ _); [keeps|].
  apply keeps_bind; [apply keeps_read_fat_slot|]. intros fat0.
  destruct (negb _); [keeps|].
  apply keeps_bind; [apply keeps_reread_fat_slot|]. intros fat1.
  destruct (negb _); [keeps|].
  apply keeps_run_command.
Qed.

Lemma main_opens fuel argv w :
  (3 <= length argv)%nat -> main fuel argv w = main fuel argv (opened w).
Proof.
  intros Hargc. unfold main.
  destruct (Z.ltb_spec (Z.of_nat (length argv)) 3); [lia|].
  rewrite (bind_silent _ _ (sys_open O_RDONLY) _ w tt (opened w)) by reflexivity.
  rewrite (bind_silent _ _ (sys_open O_RDONLY) _ (opened w) tt (opened w))
    by reflexivity.
  reflexivity.
Qed.

(** C9. No operation changes the image: after main (whatever the command),
    and after each of printInfo, readCluster, fetchFile, copyFile and
    getNextFatValue, the bytes of the image are those it had before; main
    opens the image read-only and it stays so. *)
Theorem image_is_never_modified
    fuel g argv clusterNum depth target numLeft (d : DirInfo) start
    givenName ext w :
  (forall status w' o,
     main fuel argv w = Some (status, w', o) ->
     fd_image w' = fd_image w
     /\ ((3 <= length argv)%nat -> fd_flags w' = Some O_RDONLY))
  /\ (forall v w' o,
        getNextFatValue g clusterNum w = Some (v, w', o) ->
        fd_image w' = fd_image w)
  /\ (forall u w' o,
        printInfo g w = Some (u, w', o) -> fd_image w' = fd_image w)
  /\ (forall u w' o,
        readCluster fuel g clusterNum depth w = Some (u, w', o) ->
        fd_image w' = fd_image w)
  /\ (forall u w' o,
        fetchFile fuel g clusterNum target numLeft w = Some (u, w', o) ->
        fd_image w' = fd_image w)
  /\ (forall u w' o,
        copyFile fuel g d start givenName ext w = Some (u, w', o) ->
        fd_image w' = fd_image w).
Proof.
  split; [|split; [|split; [|split; [|split]]]].
  - intros status w' o Hmain. split.
    + apply (keeps_main fuel argv w status w' o Hmain).
    + intros Hargc. rewrite (main_opens fuel argv w Hargc) in Hmain.
      apply (keeps_main fuel argv (opened w) status w' o Hmain). reflexivity.
  - intros v w' o H. apply (keeps_getNextFatValue g clusterNum w v w' o H).
  - intros u w' o H. apply (keeps_printInfo g w u w' o H).
  - intros u w' o H. apply (keeps_readCluster fuel g clusterNum depth w u w' o H).
  - intros u w' o H.
    apply (keeps_fetchFile fuel g clusterNum target numLeft w u w' o H).
  - intros u w' o H.
    apply (keeps_copyFile fuel g d start givenName ext w u w' o H).
Qed.

Lemma image_is_never_modified_witness :
  exists status w' o,
    main 5 ["fat32"; "volume.img"; "get"; "SUB1/A.TXT"]%string
         (Build.world Examples.scenario) = Some (status, w', o)
    /\ fd_image w' = Examples.scenario
    /\ fd_flags w' = Some O_RDONLY.
Proof.
  destruct (main 5 ["fat32"; "volume.img"; "get"; "SUB1/A.TXT"]%string
                 (Build.world Examples.scenario))
    as [[[status w'] o]|] eqn:Hmain.
  - exists status, w', o. split; [reflexivity|].
    destruct (proj1 (image_is_never_modified 5 Build.globals
                       ["fat32"; "volume.img"; "get"; "SUB1/A.TXT"]%string
                       2 0%nat None 0 Files.BIG_BIN 0 [] []
                       (Build.world Examples.scenario))
                    status w' o Hmain) as [Himg Hflags].
    split; [exact Himg|]. apply Hflags. simpl. lia.
  - vm_compute in Hmain. discriminate.
Defined.

(** ** fetchFile *)

Lemma bytes_eqb_eq a : forall b, bytes_eqb a b = true <-> a = b.
Proof.
  induction a as [|x a IH]; intros [|y b]; simpl; split; intros H;
    try reflexivity; try discriminate.
  - apply andb_prop in H. destruct H as [Hxy Hab].
    apply Z.eqb_eq in Hxy. apply IH in Hab. congruence.
  - inversion H; subst. rewrite Z.eqb_refl. apply IH. reflexivity.
Qed.

Lemma found_ret A (a : A) : keeps_found (ret a).
Proof. intros w a' w' o H. inversion H; subst. reflexivity. Qed.

Lemma found_emit e : keeps_found (emit e).
Proof. intros w a' w' o H. inversion H; subst. reflexivity. Qed.

Lemma found_bind A B (m : M A) (f : A -> M B) :
  keeps_found m -> (forall a, keeps_found (f a)) -> keeps_found (bind m f).
Proof.
  intros Hm Hf w b w2 o H.
  apply bind_Some in H. destruct H as (a & w1 & o1 & o2 & H1 & H2 & _).
  rewrite (Hf a _ _ _ _ H2). apply (Hm _ _ _ _ H1).
Qed.

Lemma found_lseek off : keeps_found (lseek off).
Proof. intros w a w' o H. inversion H; subst. reflexivity. Qed.

Lemma found_read_struct count : keeps_found (read_struct count).
Proof.
  unfold read_struct. apply found_bind.
  - intros w a w' o H. inversion H; subst. reflexivity.
  - intros got. destruct (_ <? _)%nat; [intros w a w' o H; discriminate|apply found_ret].
Qed.

Lemma found_getNextFatValue g c : keeps_found (getNextFatValue g c).
Proof.
  unfold getNextFatValue.
  apply found_bind; [apply found_lseek|]. intros _.
  apply found_bind; [apply found_read_struct|]. intros buf. apply found_ret.
Qed.

Lemma found_copyFile_loop fuel g : forall bytesLeft c,
  keeps_found (copyFile_loop fuel g bytesLeft c).
Proof.
  induction fuel as [|fuel IH]; intros bytesLeft c; rewrite copyFile_loop_eq.
  - destruct (_ && _); [intros w a w' o H; discriminate|apply found_ret].
  - destruct (_ && _); [|apply found_ret].
    apply found_bind; [apply found_lseek|]. intros _.
    apply found_bind; [apply found_read_struct|]. intros buf.
    destruct (_ <=? _).
    + apply found_bind; [apply found_emit|]. intros _.
      apply found_bind; [apply found_getNextFatValue|]. intros next. apply IH.
    + apply found_bind; [apply found_emit|]. intros _. apply IH.
Qed.

Section FetchFileAtTheFile.

Variable g : Globals.
Hypothesis Hg : Globals_ok g.
Variable fuel : nat.
Variable rec : Z -> option (list Z) -> Z -> M unit.

(** One slot, when the file itself is looked for ([numLeft] is 0): either
    the slot is passed and nothing has changed, or it is a live visible
    file whose base, '.' and raw extension spell the target. *)
Lemma fetchFile_slot_at_file c i t w tgt found brk w' o :
  0 <= i ->
  fetchFile_slot g fuel rec c 0 i t w = Some ((tgt, found, brk), w', o) ->
  fd_image w' = fd_image w
  /\ ((found = false /\ tgt = Some t /\ foundFile w' = foundFile w /\ o = [])
      \/ (found = true /\ file_named g (fd_image w) t c i)).
Proof.
  intros Hi Hrun. unfold fetchFile_slot in Hrun.
  rewrite (seek_read_run _ _ _ _ w (slotOffset_nonneg g c i Hg Hi)) in Hrun.
  destruct (read_at (fd_image w) (slotOffset g c i) sizeof_DirInfo)
    as [buf|] eqn:Hbuf; [|discriminate].
  set (d := decode_DirInfo buf) in *.
  destruct (Z.eqb_spec (nth 0 (dir_name d) 0) 0x00) as [|Hend].
  { inversion Hrun; subst. split; [reflexivity|]. left. auto. }
  destruct (Z.eqb_spec (nth 0 (dir_name d) 0) 0xE5) as [|Hdel]; cbn [negb] in Hrun.
  { inversion Hrun; subst. split; [reflexivity|]. left. auto. }
  cbn [Z.eqb negb andb] in Hrun.
  destruct (is_file (dir_attr d)) eqn:Hfile.
  2: { inversion Hrun; subst. split; [reflexivity|]. left. auto. }
  destruct (strcmp0 t _) eqn:Hcmp.
  2: { inversion Hrun; subst. split; [reflexivity|]. left. auto. }
  apply bytes_eqb_eq in Hcmp.
  apply bind_Some in Hrun. destruct Hrun as (u1 & w1 & o1 & o2 & Hset & Hrun & Ho).
  apply bind_Some in Hrun. destruct Hrun as (u2 & w2 & o3 & o4 & Hcopy & Hret & Ho2).
  inversion Hret; subst. inversion Hset; subst.
  split.
  - apply (keeps_copyFile _ _ _ _ _ _ _ _ _ _ Hcopy).
  - right. split; [reflexivity|]. exists buf.
    unfold slot_bytes. repeat split; assumption.
Qed.

Lemma fetchFile_loop_at_file c n : forall i t w tgt found w' o,
  0 <= i ->
  fetchFile_loop g fuel rec c 0 n i t w = Some ((tgt, found), w', o) ->
  fd_image w' = fd_image w
  /\ ((found = false /\ tgt = Some t /\ foundFile w' = foundFile w /\ o = [])
      \/ (found = true /\ exists i', file_named g (fd_image w) t c i')).
Proof.
  induction n as [|n IH]; intros i t w tgt found w' o Hi Hrun;
    cbn [fetchFile_loop] in Hrun.
  - inversion Hrun; subst. split; [reflexivity|]. left. auto.
  - apply bind_Some in Hrun.
    destruct Hrun as ([[tgt1 found1] brk] & w1 & o1 & o2 & Hslot & Hrest & Ho).
    destruct (fetchFile_slot_at_file c i t w tgt1 found1 brk w1 o1 Hi Hslot)
      as [Himg Hcases].
    destruct brk.
    + inversion Hrest; subst. split; [exact Himg|].
      destruct Hcases as [(Hf & Ht & Hff & Ho1) | (Hf & Hnamed)].
      * left. subst. auto.
      * right. split; [exact Hf|]. exists i. exact Hnamed.
    + destruct (IH (i + 1) t w1 tgt found w' o2 ltac:(lia) Hrest) as [Himg2 Hcases2].
      split; [congruence|].
      destruct Hcases as [(Hf & Ht & Hff & Ho1) | (Hf & Hnamed)].
      * destruct Hcases2 as [(Hf2 & Ht2 & Hff2 & Ho2) | (Hf2 & i' & Hnamed2)].
        -- left. subst. repeat split; congruence.
        -- right. split; [exact Hf2|]. exists i'. rewrite <- Himg. exact Hnamed2.
      * right. destruct Hcases2 as [(Hf2 & _) | (Hf2 & _)].
        -- split; [|exists i; exact Hnamed].
           (* the slot reported a match, so the loop was left *)
           unfold fetchFile_slot in Hslot.
           rewrite (seek_read_run _ _ _ _ w (slotOffset_nonneg g c i Hg Hi)) in Hslot.
           destruct (read_at _ _ _) as [buf|]; [|discriminate].
           destruct (_ =? 0x00); [inversion Hslot; subst; discriminate|].
           destruct (negb _); [|inversion Hslot; subst; discriminate].
           cbn [Z.eqb negb andb] in Hslot.
           destruct (is_file _); [|inversion Hslot; subst; discriminate].
           destruct (strcmp0 _ _); [|inversion Hslot; subst; discriminate].
           apply bind_Some in Hslot. destruct Hslot as (? & ? & ? & ? & _ & Hslot & _).
           apply bind_Some in Hslot. destruct Hslot as (? & ? & ? & ? & _ & Hslot & _).
           inversion Hslot.
        -- split; [exact Hf2|]. exists i. exact Hnamed.
Qed.

End FetchFileAtTheFile.

(** Looking for the file itself from cluster [c] on: either nothing is
    found, printed or written, or some slot holds a live visible file whose
    base, '.' and raw extension spell the target. *)
Lemma fetchFile_at_file g (Hg : Globals_ok g) fuel : forall c t w w' o,
  fetchFile fuel g c (Some t) 0 w = Some (tt, w', o) ->
  (foundFile w' = foundFile w /\ o = [])
  \/ exists c' i, file_named g (fd_image w) t c' i.
Proof.
  induction fuel as [|fuel IH]; intros c t w w' o Hrun; [discriminate|].
  cbn [fetchFile] in Hrun. unfold fetchFile_step in Hrun.
  destruct (length t =? 0)%nat; [inversion Hrun; subst; left; auto|].
  apply bind_Some in Hrun.
  destruct Hrun as ([tgt found] & w1 & o1 & o2 & Hloop & Hrest & Ho).
  destruct (fetchFile_loop_at_file g Hg fuel (fetchFile fuel g) c _ 0 t w
              tgt found w1 o1 ltac:(lia) Hloop) as [Himg Hcases].
  destruct Hcases as [(Hf & Ht & Hff & Ho1) | (Hf & i' & Hnamed)].
  2: { right. exists c, i'. exact Hnamed. }
  subst found tgt o1.
  apply bind_Some in Hrest.
  destruct Hrest as (next & w2 & o3 & o4 & Hnext & Hrest & Ho2).
  pose proof (found_getNextFatValue g c w1 next w2 o3 Hnext) as Hff2.
  pose proof (keeps_getNextFatValue g c w1 next w2 o3 Hnext) as [Himg2 _].
  assert (Ho3 : o3 = []).
  { unfold getNextFatValue in Hnext.
    apply bind_Some in Hnext. destruct Hnext as (? & ? & ? & ? & Hl & Hnext & ->).
    inversion Hl; subst.
    apply bind_Some in Hnext. destruct Hnext as (? & ? & ? & ? & Hr & Hnext & ->).
    inversion Hnext; subst. unfold read_struct in Hr.
    apply bind_Some in Hr. destruct Hr as (? & ? & ? & ? & Hs & Hr & ->).
    inversion Hs; subst. destruct (_ <? _)%nat; [discriminate|].
    inversion Hr; subst. reflexivity. }
  cbn [negb andb] in Hrest.
  destruct (Z.land next MASK_FIRST_HEX <? END_OF_CLUSTER_CHAIN).
  - destruct (IH _ t w2 w' o4 Hrest) as [[Hff3 Ho4] | (c' & i & Hnamed)].
    + left. split; [congruence|]. subst. reflexivity.
    + right. exists c', i. rewrite <- Himg, <- Himg2. exact Hnamed.
  - inversion Hrest; subst. left. split; [congruence|reflexivity].
Qed.

Lemma last_app_nonempty (l1 l2 : list Z) x :
  l2 <> [] -> last (l1 ++ l2) x = last l2 x.
Proof.
  intros Hne. induction l1 as [|a l1 IH]; [reflexivity|].
  cbn [app]. destruct (l1 ++ l2) eqn:Happ.
  - destruct l1, l2; try discriminate. contradiction.
  - rewrite <- IH. reflexivity.
Qed.

(** A raw extension that ends with a padding space makes a full name that
    ends with a space. *)
Lemma padded_extension_differs (d : DirInfo) t :
  last (rawExtension_of d) 0 = SPACE ->
  last t 0 <> SPACE ->
  t <> fullName_of d.
Proof.
  intros Hpad Ht Heq. apply Ht. subst t. unfold fullName_of.
  destruct (rawExtension_of d) as [|e rest] eqn:Hext; [discriminate|].
  rewrite app_assoc. rewrite last_app_nonempty; [exact Hpad|discriminate].
Qed.

Lemma span_token_no_slash s :
  Forall (fun ch => ch <> SLASH) s -> span_token s = (s, []).
Proof.
  induction 1 as [|ch s Hch _ IH]; [reflexivity|].
  cbn [span_token]. destruct (Z.eqb_spec ch SLASH); [contradiction|].
  rewrite IH. reflexivity.
Qed.

Lemma strtok_from_no_slash s :
  Forall (fun ch => ch <> SLASH) s ->
  strtok_from s = (match s with [] => None | _ => Some s end, []).
Proof.
  intros Hs. unfold strtok_from. destruct Hs as [|ch s Hch Hs]; [reflexivity|].
  cbn [skip_delims]. destruct (Z.eqb_spec ch SLASH); [contradiction|].
  rewrite (span_token_no_slash (ch :: s)); [reflexivity|].
  constructor; assumption.
Qed.

Lemma count_slashes_no_slash s :
  Forall (fun ch => ch <> SLASH) s -> count_slashes s = 0.
Proof.
  intros Hs. unfold count_slashes.
  assert (Hgen : forall acc,
            fold_left (fun count c => count + (if c =? SLASH then 1 else 0)) s acc
            = acc); [|apply Hgen].
  induction Hs as [|ch s Hch _ IH]; intros acc; [reflexivity|].
  cbn [fold_left]. destruct (Z.eqb_spec ch SLASH); [contradiction|].
  rewrite IH. lia.
Qed.

(** The command get with a path of one component: when no slot holds a live
    visible file whose base, '.' and raw extension spell the path, the
    program reports that the file could not be found and exits with the
    failure status. *)
Lemma get_not_found g (Hg : Globals_ok g) fuel prog img path w status w' o :
  Forall (fun ch => ch <> SLASH) (bytes_of_string path) ->
  (forall c i, ~ file_named g (fd_image w) (bytes_of_string path) c i) ->
  run_command fuel g [prog; img; "get"%string; path] w = Some (status, w', o) ->
  status = EXIT_FAILURE
  /\ o = [Printf "Error, file could not be found. Exiting."].
Proof.
  intros Hpath Hnone Hrun. unfold run_command in Hrun.
  cbn [nth length String.eqb Ascii.eqb Bool.eqb Z.of_nat Pos.of_succ_nat
       Pos.succ Z.eqb Pos.eqb negb] in Hrun.
  unfold strtok in Hrun. unfold bind at 1 in Hrun.
  rewrite (strtok_from_no_slash _ Hpath), (count_slashes_no_slash _ Hpath) in Hrun.
  cbn [set_foundFile] in Hrun.
  match type of Hrun with
  | context [bind (set_foundFile false) ?k ?ww] =>
      rewrite (bind_silent _ _ (set_foundFile false) k ww tt
                 (mkWorld (fd_image w) (fd_flags w) (fd_offset w) [] false))
        in Hrun by reflexivity
  end.
  match type of Hrun with
  | context [bind (fetchFile fuel g ?c ?t 0) ?k ?ww] =>
      destruct (fetchFile fuel g c t 0 ww) as [[[u w1] o1]|] eqn:Hfetch;
      [rewrite (bind_run _ _ (fetchFile fuel g c t 0) k ww u w1 o1 Hfetch) in Hrun
      |unfold bind in Hrun; rewrite Hfetch in Hrun; discriminate]
  end.
  assert (Hnot : foundFile w1 = false /\ o1 = []).
  { destruct (bytes_of_string path) as [|ch s] eqn:Hp.
    - destruct fuel; [discriminate|]. inversion Hfetch; subst. auto.
    - destruct u.
      destruct (fetchFile_at_file g Hg fuel _ _ _ _ _ Hfetch)
        as [[Hff Ho1] | (c' & i & Hnamed)]; [auto|].
      exfalso. apply (Hnone c' i). exact Hnamed. }
  destruct Hnot as [Hff ->].
  unfold bind, get_foundFile in Hrun. rewrite Hff in Hrun.
  cbn in Hrun. inversion Hrun; subst. auto.
Qed.

Section FetchFileReturns.

Variable g : Globals.
Hypothesis Hg : Globals_ok g.
Variable t : list Z.

Lemma fetchFile_slot_no_match fuel rec c i buf w :
  0 <= i ->
  slot_bytes g (fd_image w) c i = Some buf ->
  ~ file_named g (fd_image w) t c i ->
  fetchFile_slot g fuel rec c 0 i t w
  = Some ((Some t, false, nth 0 (dir_name (decode_DirInfo buf)) 0 =? 0x00),
          with_offset w (slotOffset g c i + Z.of_nat sizeof_DirInfo), []).
Proof.
  intros Hi Hb Hnone. unfold fetchFile_slot.
  rewrite (seek_read_run _ _ _ _ w (slotOffset_nonneg g c i Hg Hi)).
  pose proof Hb as Hb'. unfold slot_bytes in Hb'. rewrite Hb'.
  set (d := decode_DirInfo buf) in *.
  destruct (Z.eqb_spec (nth 0 (dir_name d) 0) 0x00) as [|Hend]; [reflexivity|].
  destruct (Z.eqb_spec (nth 0 (dir_name d) 0) 0xE5) as [|Hdel]; [reflexivity|].
  cbn [Z.eqb negb andb].
  destruct (is_file (dir_attr d)) eqn:Hfile; [|reflexivity].
  destruct (strcmp0 t _) eqn:Hcmp; [|reflexivity].
  exfalso. apply Hnone. exists buf. apply bytes_eqb_eq in Hcmp.
  repeat split; assumption.
Qed.

Lemma fetchFile_loop_no_match fuel rec c n : forall i w,
  0 <= i ->
  slots_readable g (fd_image w) c n i = true ->
  (forall i', ~ file_named g (fd_image w) t c i') ->
  exists w',
    fetchFile_loop g fuel rec c 0 n i t w = Some ((Some t, false), w', [])
    /\ fd_image w' = fd_image w /\ foundFile w' = foundFile w.
Proof.
  induction n as [|n IH]; intros i w Hi Hread Hnone;
    cbn [fetchFile_loop slots_readable] in *.
  - exists w. repeat split.
  - destruct (slot_bytes g (fd_image w) c i) as [buf|] eqn:Hb; [|discriminate].
    rewrite (bind_run _ _ _ _ w _ _ _
               (fetchFile_slot_no_match fuel rec c i buf w Hi Hb (Hnone i))).
    destruct (nth 0 (dir_name (decode_DirInfo buf)) 0 =? 0x00).
    + eexists. split; [reflexivity|]. split; reflexivity.
    + cbn [orb] in Hread.
      destruct (IH (i + 1)
                  (with_offset w (slotOffset g c i + Z.of_nat sizeof_DirInfo))
                  ltac:(lia) Hread Hnone) as (w' & Hloop & Himg & Hff).
      rewrite Hloop. exists w'. split; [reflexivity|]. split; assumption.
Qed.

(** Looking for a file that no slot spells, in a directory whose chain ends:
    fetchFile returns, having found, printed and written nothing. *)
Lemma fetchFile_no_match_returns k : forall fuel c w,
  (k <= fuel)%nat ->
  directory_ok g (fd_image w) c k = true ->
  (forall c' i', ~ file_named g (fd_image w) t c' i') ->
  exists w',
    fetchFile fuel g c (Some t) 0 w = Some (tt, w', [])
    /\ fd_image w' = fd_image w /\ foundFile w' = foundFile w.
Proof.
  induction k as [|k IH]; intros fuel c w Hfuel Hok Hnone; [discriminate|].
  destruct fuel as [|fuel]; [lia|].
  cbn [fetchFile directory_ok] in *. unfold fetchFile_step.
  destruct (length t =? 0)%nat; [exists w; repeat split|].
  apply andb_prop in Hok. destruct Hok as [Hread Hchain].
  destruct (fetchFile_loop_no_match fuel (fetchFile fuel g) c _ 0 w
              ltac:(lia) Hread (Hnone c)) as (w1 & Hloop & Himg1 & Hff1).
  rewrite (bind_run _ _ _ _ w _ _ _ Hloop). cbn [app].
  unfold next_cluster in Hchain.
  destruct (fat_value g (fd_image w) c) as [v|] eqn:Hv; [|discriminate].
  cbn [option_map] in Hchain. rewrite <- Himg1 in Hv.
  match goal with
  | |- context [bind (getNextFatValue g c) ?kk w1] =>
      destruct (getNextFatValue_run _ g c kk w1 v Hg Hv)
        as (w2 & Himg2 & _ & Hff2 & _ & Hrun)
  end.
  rewrite Hrun. cbn [negb andb].
  destruct (Z.land v MASK_FIRST_HEX <? END_OF_CLUSTER_CHAIN).
  - assert (Himg : fd_image w2 = fd_image w) by congruence.
    rewrite <- Himg in Hchain, Hnone.
    destruct (IH fuel _ w2 ltac:(lia) Hchain Hnone) as (w3 & Hrec & Himg3 & Hff3).
    rewrite Hrec. exists w3. split; [reflexivity|]. split; congruence.
  - exists w2. split; [reflexivity|]. split; congruence.
Qed.

End FetchFileReturns.

(** The same, with the result: on a root directory whose chain ends within
    the fuel, the command returns. *)
Lemma get_not_found_returns g (Hg : Globals_ok g) fuel k prog img path w :
  Forall (fun ch => ch <> SLASH) (bytes_of_string path) ->
  (forall c i, ~ file_named g (fd_image w) (bytes_of_string path) c i) ->
  directory_ok g (fd_image w)
               (Z.land (BPB_RootClus (bootSector g)) MASK_FIRST_HEX) k = true ->
  (k <= fuel)%nat ->
  exists w',
    run_command fuel g [prog; img; "get"%string; path] w
    = Some (EXIT_FAILURE, w', [Printf "Error, file could not be found. Exiting."]).
Proof.
  intros Hpath Hnone Hok Hfuel.
  destruct (run_command fuel g [prog; img; "get"%string; path] w)
    as [[[status w'] o]|] eqn:Hrun.
  - destruct (get_not_found g Hg fuel prog img path w status w' o Hpath Hnone Hrun)
      as [-> ->].
    exists w'. reflexivity.
  - exfalso. unfold run_command in Hrun.
    cbn [nth length String.eqb Ascii.eqb Bool.eqb Z.of_nat Pos.of_succ_nat
         Pos.succ Z.eqb Pos.eqb negb] in Hrun.
    unfold strtok in Hrun. unfold bind at 1 in Hrun.
    rewrite (strtok_from_no_slash _ Hpath), (count_slashes_no_slash _ Hpath) in Hrun.
    cbn [set_foundFile] in Hrun.
    match type of Hrun with
    | context [bind (set_foundFile false) ?kk ?ww] =>
        rewrite (bind_silent _ _ (set_foundFile false) kk ww tt
                   (mkWorld (fd_image w) (fd_flags w) (fd_offset w) [] false))
          in Hrun by reflexivity
    end.
    set (wm := mkWorld (fd_image w) (fd_flags w) (fd_offset w) [] false) in *.
    assert (Hfetch : exists w1,
              fetchFile fuel g (Z.land (BPB_RootClus (bootSector g)) MASK_FIRST_HEX)
                        (match bytes_of_string path with
                         | [] => None
                         | _ => Some (bytes_of_string path)
                         end) 0 wm = Some (tt, w1, [])
              /\ foundFile w1 = false).
    { destruct (bytes_of_string path) as [|ch s] eqn:Hp.
      - destruct fuel as [|fuel]; [destruct k; [discriminate|lia]|].
        exists wm. split; reflexivity.
      - destruct (fetchFile_no_match_returns g Hg (ch :: s) k fuel _ wm Hfuel Hok Hnone)
          as (w1 & Hf & _ & Hff).
        exists w1. split; [exact Hf|exact Hff]. }
    destruct Hfetch as (w1 & Hfetch & Hff).
    rewrite (bind_run _ _ _ _ wm _ _ _ Hfetch) in Hrun.
    unfold bind, get_foundFile in Hrun. rewrite Hff in Hrun.
    cbn in Hrun. discriminate.
Qed.

Lemma file_not_directory attr : is_file attr = true -> is_directory attr = false.
Proof.
  unfold is_file, is_directory.
  destruct (is_long_name attr); [discriminate|].
  destruct (has_flag attr ATTR_DIRECTORY); [discriminate|reflexivity].
Qed.

Lemma directory_not_file attr : is_directory attr = true -> is_file attr = false.
Proof.
  intros Hd. destruct (is_file attr) eqn:Hf; [|reflexivity].
  rewrite (file_not_directory attr Hf) in Hd. discriminate.
Qed.

(** C10. fetchFile compares path components with short 8.3 names only.  For
    a live slot (neither end marker nor deleted):
    - a long-name slot is never compared with anything;
    - while directories are looked for, a visible directory is entered
      exactly when the component equals its 8-byte base with the trailing
      spaces stripped;
    - when the file is looked for, a visible file is taken exactly when the
      component equals its stripped base, '.', and its raw 3-byte extension,
      trailing spaces kept;
    - so a file whose raw extension ends with a padding space is not taken
      for a component that does not end with a space (NAME, NAME.AB);
    - and the command get with such a one-component path, on a volume where
      no file with an unpadded extension spells the path and the chain of
      the root directory ends, reports that the file could not be found and
      exits with the failure status. *)
Theorem fetchFile_compares_raw_short_names
    g fuel rec clusterNum numLeft i target buf w :
  Globals_ok g -> 0 <= i ->
  slot_bytes g (fd_image w) clusterNum i = Some buf ->
  nth 0 (dir_name (decode_DirInfo buf)) 0 <> 0x00 ->
  nth 0 (dir_name (decode_DirInfo buf)) 0 <> 0xE5 ->
  let d := decode_DirInfo buf in
  let after := with_offset w (slotOffset g clusterNum i + Z.of_nat sizeof_DirInfo) in
  (is_long_name (dir_attr d) = true ->
   fetchFile_slot g fuel rec clusterNum numLeft i target w
   = Some ((Some target, false, false), after, []))
  /\ (numLeft <> 0 -> is_directory (dir_attr d) = true ->
      fetchFile_slot g fuel rec clusterNum numLeft i target w
      = (if strcmp0 target (givenName_of d)
         then target' <- strtok None ;;
              rec (first_cluster d) target' (numLeft - 1) ;;
              ret (target', true, true)
         else ret (Some target, false, false)) after)
  /\ (numLeft = 0 -> is_file (dir_attr d) = true ->
      fetchFile_slot g fuel rec clusterNum numLeft i target w
      = (if strcmp0 target (fullName_of d)
         then set_foundFile true ;;
              copyFile fuel g d (first_cluster d) (givenName_of d)
                       (rawExtension_of d) ;;
              ret (Some target, true, true)
         else ret (Some target, false, false)) after)
  /\ (numLeft = 0 -> is_file (dir_attr d) = true ->
      last (rawExtension_of d) 0 = SPACE -> last target 0 <> SPACE ->
      fetchFile_slot g fuel rec clusterNum numLeft i target w
      = Some ((Some target, false, false), after, []))
  /\ (forall prog img path k,
        Forall (fun ch => ch <> SLASH) (bytes_of_string path) ->
        last (bytes_of_string path) 0 <> SPACE ->
        (forall c' i' buf',
           slot_bytes g (fd_image w) c' i' = Some buf' ->
           is_file (dir_attr (decode_DirInfo buf')) = true ->
           last (rawExtension_of (decode_DirInfo buf')) 0 <> SPACE ->
           fullName_of (decode_DirInfo buf') <> bytes_of_string path) ->
        directory_ok g (fd_image w)
          (Z.land (BPB_RootClus (bootSector g)) MASK_FIRST_HEX) k = true ->
        (k <= fuel)%nat ->
        exists w',
          run_command fuel g [prog; img; "get"%string; path] w
          = Some (EXIT_FAILURE, w',
                  [Printf "Error, file could not be found. Exiting."])).
Proof.
  intros Hg Hi Hb Hend Hdel d after.
  pose proof (slotOffset_nonneg g clusterNum i Hg Hi) as Hoff.
  assert (Hslot : forall nl,
            fetchFile_slot g fuel rec clusterNum nl i target w
            = (let givenName := givenName_of d in
               let nameExtension := rawExtension_of d in
               if negb (nl =? 0) && is_directory (dir_attr d) then
                 if strcmp0 target givenName then
                   target' <- strtok None ;;
                   rec (first_cluster d) target' (nl - 1) ;;
                   ret (target', true, true)
                 else ret (Some target, false, false)
               else if (nl =? 0) && is_file (dir_attr d) then
                 if strcmp0 target (givenName ++ [DOT] ++ nameExtension) then
                   set_foundFile true ;;
                   copyFile fuel g d (first_cluster d) givenName nameExtension ;;
                   ret (Some target, true, true)
                 else ret (Some target, false, false)
               else ret (Some target, false, false)) after).
  { intros nl. unfold fetchFile_slot.
    rewrite (seek_read_run _ _ _ _ w Hoff).
    unfold slot_bytes in Hb. rewrite Hb. fold d. fold after.
    destruct (Z.eqb_spec (nth 0 (dir_name d) 0) 0x00); [contradiction|].
    destruct (Z.eqb_spec (nth 0 (dir_name d) 0) 0xE5); [contradiction|].
    reflexivity. }
  split; [|split; [|split; [|split]]].
  - intros Hlong. rewrite Hslot. cbv zeta.
    destruct (long_name_not_visible _ Hlong) as [-> ->].
    rewrite !andb_false_r. reflexivity.
  - intros Hnl Hdir. rewrite Hslot. cbv zeta. rewrite Hdir.
    destruct (Z.eqb_spec numLeft 0); [contradiction|]. reflexivity.
  - intros Hnl Hfile. rewrite Hslot. cbv zeta. subst numLeft.
    rewrite Hfile. reflexivity.
  - intros Hnl Hfile Hpad Htarget. rewrite Hslot. cbv zeta. subst numLeft.
    rewrite Hfile. cbn [Z.eqb negb andb].
    fold (fullName_of d).
    destruct (strcmp0 target (fullName_of d)) eqn:Hcmp; [|reflexivity].
    apply bytes_eqb_eq in Hcmp.
    exfalso. exact (padded_extension_differs d target Hpad Htarget Hcmp).
  - intros prog img path k Hpath Hlast Hunpadded Hroot Hfuel.
    apply (get_not_found_returns g Hg fuel k prog img path w Hpath);
      [|exact Hroot|exact Hfuel].
    intros c' i' (buf' & Hb' & _ & _ & Hfile' & Hname).
    destruct (Z.eq_dec (last (rawExtension_of (decode_DirInfo buf')) 0) SPACE)
      as [Hpad | Hnopad].
    + exact (padded_extension_differs _ _ Hpad Hlast Hname).
    + apply (Hunpadded c' i' buf' Hb' Hfile' Hnopad). symmetry. exact Hname.
Qed.

Lemma slot_bytes_window image c i buf :
  slot_bytes Build.globals image c i = Some buf ->
  exists k, (k < length image / 32)%nat /\ buf = slice image (32 * k) 32.
Proof.
  unfold slot_bytes, read_at. set (off := slotOffset Build.globals c i).
  destruct (Nat.ltb_spec (length (slice image (Z.to_nat off) sizeof_DirInfo))
                         sizeof_DirInfo) as [|Hlen]; [discriminate|].
  intros H; inversion H; subst buf; clear H.
  assert (Hmul : exists m, off = 32 * m).
  { exists (48 + 16 * wrap32 (c - 2) + i). unfold off, slotOffset, clusterOffset.
    cbn [Build.globals dataSectorLocationInSectors bytesPerCluster bootSector].
    change (BPB_BytesPerSec (decode_fat32BS Build.boot_sector)) with 512.
    unfold sizeof_DirInfo. lia. }
  destruct Hmul as [m Hm].
  exists (Z.to_nat m).
  assert (Hk : Z.to_nat off = (32 * Z.to_nat m)%nat) by lia.
  rewrite Hk in *. split; [|reflexivity].
  unfold slice, sizeof_DirInfo in Hlen.
  rewrite length_firstn, length_skipn in Hlen.
  apply Nat.div_le_lower_bound; lia.
Qed.

Lemma no_unpadded_match_spec image path :
  no_unpadded_match image path = true ->
  forall c i buf,
    slot_bytes Build.globals image c i = Some buf ->
    is_file (dir_attr (decode_DirInfo buf)) = true ->
    last (rawExtension_of (decode_DirInfo buf)) 0 <> SPACE ->
    fullName_of (decode_DirInfo buf) <> path.
Proof.
  intros Hall c i buf Hb Hfile Hpad Hname.
  destruct (slot_bytes_window image c i buf Hb) as (k & Hk & ->).
  unfold no_unpadded_match in Hall. rewrite forallb_forall in Hall.
  specialize (Hall k ltac:(apply in_seq; lia)). cbv zeta in Hall.
  rewrite Hfile in Hall.
  destruct (Z.eqb_spec (last (rawExtension_of
                                (decode_DirInfo (slice image (32 * k) 32))) 0) SPACE);
    [contradiction|].
  rewrite (proj2 (bytes_eqb_eq _ _) Hname) in Hall. discriminate.
Qed.

Lemma fetchFile_compares_raw_short_names_witness :
  fetchFile_slot Build.globals 3 (fetchFile 3 Build.globals) 2 0 0
    (bytes_of_string "NAME.AB") (Build.world Names.short_extensions)
  = Some ((Some (bytes_of_string "NAME.AB"), false, false),
          with_offset (Build.world Names.short_extensions) (1536 + 32), [])
  /\ exists w',
       run_command 3 Build.globals ["fat32"; "volume.img"; "get"; "NAME.AB"]%string
                   (Build.world Names.short_extensions)
       = Some (EXIT_FAILURE, w',
               [Printf "Error, file could not be found. Exiting."]).
Proof.
  assert (Hg : Globals_ok Build.globals) by (unfold Globals_ok; simpl; lia).
  pose proof (fetchFile_compares_raw_short_names Build.globals 3
                (fetchFile 3 Build.globals) 2 0 0 (bytes_of_string "NAME.AB")
                Names.NAME_AB (Build.world Names.short_extensions)
                Hg (Z.le_refl 0) eq_refl
                ltac:(vm_compute; discriminate) ltac:(vm_compute; discriminate))
    as (_ & _ & _ & Hpadded & Hget).
  split.
  - apply Hpadded.
    + reflexivity.
    + reflexivity.
    + reflexivity.
    + vm_compute. discriminate.
  - apply (Hget "fat32"%string "volume.img"%string "NAME.AB"%string 1%nat).
    + repeat constructor; vm_compute; discriminate.
    + vm_compute. discriminate.
    + apply no_unpadded_match_spec. vm_compute. reflexivity.
    + vm_compute. reflexivity.
    + lia.
Defined.

(** ** The listing of a directory *)

Lemma entries_at_app depth a b :
  entries_at depth (a ++ b) = entries_at depth a ++ entries_at depth b.
Proof. unfold entries_at. apply flat_map_app. Qed.

Lemma entries_at_deeper depth o :
  Forall (at_least (S depth)) o -> entries_at depth o = [].
Proof.
  induction 1 as [|e o He _ IH]; [reflexivity|].
  cbn [entries_at flat_map]. fold (entries_at depth o). rewrite IH.
  destruct e; try contradiction. cbn [at_least] in He.
  destruct (Nat.eqb_spec depth0 depth); [lia|reflexivity].
Qed.

Lemma at_least_weaken depth o :
  Forall (at_least (S depth)) o -> Forall (at_least depth) o.
Proof.
  apply Forall_impl. intros [] H; try contradiction. cbn [at_least] in *. lia.
Qed.

Lemma read_long_slot_silent g c i w l w' o :
  read_long_slot g c i w = Some (l, w', o) -> o = [].
Proof.
  unfold read_long_slot. intros H.
  apply bind_Some in H. destruct H as (? & ? & ? & ? & Hl & H & ->).
  inversion Hl; subst.
  apply bind_Some in H. destruct H as (? & ? & ? & ? & Hr & H & ->).
  inversion H; subst. unfold read_struct in Hr.
  apply bind_Some in Hr. destruct Hr as (? & ? & ? & ? & Hs & Hr & ->).
  inversion Hs; subst. destruct (_ <? _)%nat; [discriminate|].
  inversion Hr; subst. reflexivity.
Qed.

Lemma getNextFatValue_inv g (Hg : Globals_ok g) c w v w' o :
  getNextFatValue g c w = Some (v, w', o) ->
  fat_value g (fd_image w) c = Some v /\ o = [] /\ fd_image w' = fd_image w.
Proof.
  intros H.
  pose proof (keeps_getNextFatValue g c w v w' o H) as [Himg _].
  unfold getNextFatValue in H.
  pose proof (wrap32_nonneg ((SIZE_OF_FAT_ENTRY / BITS_PER_BYTE) * c)) as Hw.
  destruct Hg as (Hfat & _).
  rewrite seek_read_run in H by lia.
  unfold fat_value.
  destruct (read_at _ _ _) as [buf|]; [|discriminate].
  inversion H; subst. auto.
Qed.

Section Listing.

Variable g : Globals.
Hypothesis Hg : Globals_ok g.
Variable rec : Z -> nat -> M unit.
Hypothesis Hrec_image : forall c d, keeps_image (rec c d).
Hypothesis Hrec_deeper :
  forall c d w u w' o, rec c d w = Some (u, w', o) -> Forall (at_least d) o.

Lemma readCluster_entry_listing c depth i (d : DirInfo) ln w ln' w' o :
  readCluster_entry g rec c depth i d ln w = Some (ln', w', o) ->
  entries_at depth o
  = (if is_directory (dir_attr d) || is_file (dir_attr d)
     then [entry_text d] else [])
  /\ Forall (at_least depth) o.
Proof.
  intros Hrun. unfold readCluster_entry in Hrun. unfold entry_text.
  destruct (is_directory (dir_attr d)) eqn:Hdir; cbn [orb].
  - apply bind_Some in Hrun. destruct Hrun as (u & w1 & o1 & o2 & Hlines & Hrun & ->).
    apply bind_Some in Hrun. destruct Hrun as (u2 & w2 & o3 & o4 & Hsub & Hret & ->).
    inversion Hret; subst. rewrite app_nil_r.
    pose proof (Hrec_deeper _ _ _ _ _ _ Hsub) as Hdeep.
    rewrite entries_at_app, (entries_at_deeper depth o3 Hdeep), app_nil_r.
    assert (Hl : entries_at depth o1 = [givenName_of d]
                 /\ Forall (at_least depth) o1).
    { destruct ln as [v|]; [destruct (checkSum v =? _)|];
        inversion Hlines; subst; cbn [entries_at flat_map is_long_label negb andb app];
        rewrite Nat.eqb_refl; cbn [andb app];
        (split; [reflexivity|repeat constructor]). }
    destruct Hl as [Hl1 Hl2]. split; [exact Hl1|].
    apply Forall_app. split; [exact Hl2|apply at_least_weaken; exact Hdeep].
  - destruct (is_file (dir_attr d)) eqn:Hfile.
    + apply bind_Some in Hrun. destruct Hrun as (u & w1 & o1 & o2 & Hlines & Hret & ->).
      inversion Hret; subst. rewrite app_nil_r.
      destruct ln as [v|]; [destruct (checkSum v =? _)|];
        inversion Hlines; subst; cbn [entries_at flat_map is_long_label negb andb app];
        rewrite Nat.eqb_refl; cbn [andb app];
        (split; [reflexivity|repeat constructor]).
    + assert (Ho : o = []); [|subst o; split; [reflexivity|constructor]].
      destruct (is_long_name (dir_attr d)); [|inversion Hrun; reflexivity].
      apply bind_Some in Hrun. destruct Hrun as (l & w1 & o1 & o2 & Hread & Hrest & ->).
      rewrite (read_long_slot_silent _ _ _ _ _ _ _ Hread).
      destruct ln as [v|].
      * destruct (_ && _); [|inversion Hrest; reflexivity].
        destruct (_ <? _)%nat; [discriminate|inversion Hrest; reflexivity].
      * destruct (_ && _); inversion Hrest; reflexivity.
Qed.

Lemma readCluster_entry_image c depth i (d : DirInfo) ln w ln' w' o :
  readCluster_entry g rec c depth i d ln w = Some (ln', w', o) ->
  fd_image w' = fd_image w.
Proof.
  intros Hrun.
  apply (keeps_readCluster_entry g rec c depth i d ln Hrec_image _ _ _ _ Hrun).
Qed.

Lemma readCluster_slot_listing c depth i ln w ln' brk w' o :
  0 <= i ->
  readCluster_slot g rec c depth i ln w = Some ((ln', brk), w', o) ->
  exists buf,
    slot_bytes g (fd_image w) c i = Some buf
    /\ brk = (first_byte (decode_DirInfo buf) =? 0x00)
    /\ entries_at depth o
       = (if first_byte (decode_DirInfo buf) =? 0x00 then []
          else if listed depth i (decode_DirInfo buf)
               then [entry_text (decode_DirInfo buf)] else [])
    /\ Forall (at_least depth) o
    /\ fd_image w' = fd_image w.
Proof.
  intros Hi Hrun. unfold readCluster_slot in Hrun.
  rewrite (seek_read_run _ _ _ _ w (slotOffset_nonneg g c i Hg Hi)) in Hrun.
  unfold slot_bytes.
  destruct (read_at (fd_image w) (slotOffset g c i) sizeof_DirInfo)
    as [buf|]; [|discriminate].
  exists buf. split; [reflexivity|].
  unfold listed, first_byte in *. set (d := decode_DirInfo buf) in *.
  destruct (nth 0 (dir_name d) 0 =? 0x00).
  { inversion Hrun; subst. repeat split; constructor. }
  destruct ((1 <? i) || (depth =? 0)%nat); cbn [andb] in *.
  2: { inversion Hrun; subst. repeat split; constructor. }
  destruct (nth 0 (dir_name d) 0 =? 0xE5); cbn [negb andb] in *.
  { inversion Hrun; subst. repeat split; constructor. }
  apply bind_Some in Hrun. destruct Hrun as (ln1 & w1 & o1 & o2 & Hentry & Hret & ->).
  inversion Hret; subst. rewrite app_nil_r.
  destruct (readCluster_entry_listing _ _ _ _ _ _ _ _ _ Hentry) as [Hlist Hdeep].
  split; [reflexivity|]. split; [exact Hlist|]. split; [exact Hdeep|].
  apply (readCluster_entry_image _ _ _ _ _ _ _ _ _ Hentry).
Qed.

Lemma readCluster_loop_listing c depth n : forall i ln w ln' w' o,
  0 <= i ->
  readCluster_loop g rec c depth n i ln w = Some (ln', w', o) ->
  entries_at depth o = cluster_listing g (fd_image w) depth c n i
  /\ Forall (at_least depth) o
  /\ fd_image w' = fd_image w.
Proof.
  induction n as [|n IH]; intros i ln w ln' w' o Hi Hrun;
    cbn [readCluster_loop cluster_listing] in *.
  - inversion Hrun; subst. repeat split; constructor.
  - apply bind_Some in Hrun.
    destruct Hrun as ([ln1 brk] & w1 & o1 & o2 & Hslot & Hrest & ->).
    destruct (readCluster_slot_listing _ _ _ _ _ _ _ _ _ Hi Hslot)
      as (buf & Hb & Hbrk & Hlist & Hdeep & Himg).
    rewrite Hb. cbv zeta. cbn [fst snd] in Hrest. subst brk.
    rewrite entries_at_app, Hlist.
    destruct (first_byte (decode_DirInfo buf) =? 0x00).
    + inversion Hrest; subst. rewrite !app_nil_r.
      split; [reflexivity|]. split; [exact Hdeep|exact Himg].
    + destruct (IH (i + 1) ln1 w1 ln' w' o2 ltac:(lia) Hrest)
        as (Hlist2 & Hdeep2 & Himg2).
      rewrite Hlist2, Himg. split; [reflexivity|].
      split; [apply Forall_app; split; assumption|congruence].
Qed.

End Listing.

(** The names printed at the depth of a directory are those of its chain,
    cluster after cluster; what is printed for its subdirectories is
    deeper. *)
Lemma readCluster_listing g (Hg : Globals_ok g) fuel : forall c depth w u w' o,
  readCluster fuel g c depth w = Some (u, w', o) ->
  entries_at depth o = chain_listing fuel g (fd_image w) depth c
  /\ Forall (at_least depth) o.
Proof.
  induction fuel as [|fuel IH]; intros c depth w u w' o Hrun; [discriminate|].
  cbn [readCluster chain_listing] in *. unfold readCluster_step in Hrun.
  apply bind_Some in Hrun. destruct Hrun as (ln & w1 & o1 & o2 & Hloop & Hrest & ->).
  destruct (readCluster_loop_listing g Hg (readCluster fuel g)
              (keeps_readCluster fuel g)
              (fun c d w u w' o H => proj2 (IH c d w u w' o H))
              c depth _ 0 None w ln w1 o1 ltac:(lia) Hloop)
    as (Hlist & Hdeep & Himg).
  apply bind_Some in Hrest. destruct Hrest as (next & w2 & o3 & o4 & Hnext & Hrest & ->).
  destruct (getNextFatValue_inv g Hg c w1 next w2 o3 Hnext) as (Hv & -> & Himg2).
  rewrite Himg in Hv. unfold next_cluster. rewrite Hv. cbn [option_map app].
  rewrite entries_at_app, Hlist.
  destruct (Z.land next MASK_FIRST_HEX <? END_OF_CLUSTER_CHAIN).
  - destruct (IH _ _ _ _ _ _ Hrest) as [Hlist2 Hdeep2].
    rewrite Hlist2, Himg2, Himg. split; [reflexivity|].
    apply Forall_app. split; assumption.
  - inversion Hrest; subst. rewrite !app_nil_r. split; [reflexivity|exact Hdeep].
Qed.

(** ** More fuel gives the same listing *)

Lemma refines_refl A (m : M A) : refines m m.
Proof. intros w r H. exact H. Qed.

Lemma refines_bind A B (m m' : M A) (f f' : A -> M B) :
  refines m m' -> (forall a, refines (f a) (f' a)) ->
  refines (bind m f) (bind m' f').
Proof.
  intros Hm Hf w [[b w2] o] H.
  apply bind_Some in H. destruct H as (a & w1 & o1 & o2 & H1 & H2 & ->).
  rewrite (bind_run _ _ m' f' w a w1 o1 (Hm _ _ H1)).
  rewrite (Hf a _ _ H2). reflexivity.
Qed.

Section MoreFuel.

Variable g : Globals.
Variables rec rec' : Z -> nat -> M unit.
Hypothesis Hrec : forall c d, refines (rec c d) (rec' c d).

Lemma refines_readCluster_entry c depth i d ln :
  refines (readCluster_entry g rec c depth i d ln)
          (readCluster_entry g rec' c depth i d ln).
Proof.
  unfold readCluster_entry.
  destruct (is_directory (dir_attr d)); [|apply refines_refl].
  apply refines_bind; [apply refines_refl|]. intros _.
  apply refines_bind; [apply Hrec|]. intros _. apply refines_refl.
Qed.

Lemma refines_readCluster_slot c depth i ln :
  refines (readCluster_slot g rec c depth i ln)
          (readCluster_slot g rec' c depth i ln).
Proof.
  unfold readCluster_slot.
  apply refines_bind; [apply refines_refl|]. intros _.
  apply refines_bind; [apply refines_refl|]. intros buf.
  destruct (_ =? 0x00); [apply refines_refl|].
  destruct (_ && _); [|apply refines_refl].
  apply refines_bind; [apply refines_readCluster_entry|]. intros ln'.
  apply refines_refl.
Qed.

Lemma refines_readCluster_loop c depth n : forall i ln,
  refines (readCluster_loop g rec c depth n i ln)
          (readCluster_loop g rec' c depth n i ln).
Proof.
  induction n as [|n IH]; intros i ln; cbn [readCluster_loop];
    [apply refines_refl|].
  apply refines_bind; [apply refines_readCluster_slot|]. intros r.
  destruct (snd r); [apply refines_refl|apply IH].
Qed.

Lemma refines_readCluster_step c depth :
  refines (readCluster_step g rec c depth) (readCluster_step g rec' c depth).
Proof.
  unfold readCluster_step.
  apply refines_bind; [apply refines_readCluster_loop|]. intros _.
  apply refines_bind; [apply refines_refl|]. intros next.
  destruct (_ <? _); [apply Hrec|apply refines_refl].
Qed.

End MoreFuel.

Lemma readCluster_more_fuel g fuel : forall c depth,
  refines (readCluster fuel g c depth) (readCluster (S fuel) g c depth).
Proof.
  induction fuel as [|fuel IH]; intros c depth; [intros w r H; discriminate|].
  change (refines (readCluster_step g (readCluster fuel g) c depth)
                  (readCluster_step g (readCluster (S fuel) g) c depth)).
  apply refines_readCluster_step. exact IH.
Qed.

Lemma readCluster_enough_fuel g fuel fuel' c depth w r :
  (fuel <= fuel')%nat ->
  readCluster fuel g c depth w = Some r ->
  readCluster fuel' g c depth w = Some r.
Proof.
  induction 1 as [|fuel' _ IH]; intros Hrun; [exact Hrun|].
  apply readCluster_more_fuel. apply IH. exact Hrun.
Qed.




(** In a subdirectory the slots 0 and 1 are passed over in every cluster of
    the chain, not only in the first: Y.TXT and Z.TXT, the first two slots
    of the second cluster of SUB, are not printed, though the design-level
    listing has them. *)
Example continuation_cluster_first_slots_skipped :
  entries_at 1 (output (readCluster 5 Build.globals 3 1
                          (Build.world Continuation.two_cluster_subdirectory)))
  = [bytes_of_string "X.TXT"; bytes_of_string "W.TXT"]
  /\ directory_listing 5 Build.globals Continuation.two_cluster_subdirectory 1 3
     = [bytes_of_string "X.TXT"; bytes_of_string "Y.TXT";
        bytes_of_string "Z.TXT"; bytes_of_string "W.TXT"].
Proof. split; vm_compute; reflexivity. Qed.

(** ** The end of the walk *)

(** C5, as the code has it.  A slot whose first name byte is 0x00 ends the
    scan of the slots of its own cluster: no later slot of the cluster is
    read.  The walk over the chain then goes on exactly as after a cluster
    without such a slot: it stops when the FAT successor, masked to 28
    bits, is an end-of-chain value (>= 0x0FFFFFF8), and visits the successor
    otherwise. *)
Theorem walk_ends_at_end_of_chain g fuel rec c depth w :
  Globals_ok g ->
  (forall n i ln buf,
     0 <= i ->
     slot_bytes g (fd_image w) c i = Some buf ->
     first_byte (decode_DirInfo buf) = 0x00 ->
     readCluster_loop g rec c depth (S n) i ln w
     = Some (ln, with_offset w (slotOffset g c i + Z.of_nat sizeof_DirInfo), []))
  /\ (forall ln w1 o1 next,
        readCluster_loop g (readCluster fuel g) c depth
                         (Z.to_nat (entriesPerCluster g)) 0 None w
        = Some (ln, w1, o1) ->
        next_cluster g (fd_image w) c = Some next ->
        exists w2,
          fd_image w2 = fd_image w
          /\ readCluster (S fuel) g c depth w
             = if next <? END_OF_CLUSTER_CHAIN
               then match readCluster fuel g next depth w2 with
                    | Some (u, w3, o2) => Some (u, w3, o1 ++ o2)
                    | None => None
                    end
               else Some (tt, w2, o1)).
Proof.
  intros Hg. split.
  - intros n i ln buf Hi Hb Hend. cbn [readCluster_loop].
    assert (Hslot : readCluster_slot g rec c depth i ln w
                    = Some ((ln, true),
                            with_offset w (slotOffset g c i + Z.of_nat sizeof_DirInfo),
                            [])).
    { unfold readCluster_slot.
      rewrite (seek_read_run _ _ _ _ w (slotOffset_nonneg g c i Hg Hi)).
      unfold slot_bytes in Hb. rewrite Hb.
      unfold first_byte in Hend. rewrite Hend. reflexivity. }
    rewrite (bind_run _ _ _ _ w _ _ _ Hslot). reflexivity.
  - intros ln w1 o1 next Hloop Hnext.
    pose proof (keeps_readCluster_loop g (readCluster fuel g) c depth _ 0 None
                  (keeps_readCluster fuel g) w ln w1 o1 Hloop) as [Himg _].
    unfold next_cluster in Hnext.
    destruct (fat_value g (fd_image w) c) as [v|] eqn:Hv; [|discriminate].
    cbn [option_map] in Hnext. inversion Hnext as [Hmask]; clear Hnext.
    cbn [readCluster]. unfold readCluster_step.
    rewrite (bind_run _ _ _ _ w _ _ _ Hloop).
    rewrite <- Himg in Hv.
    match goal with
    | |- context [bind (getNextFatValue g c) ?kk w1] =>
        destruct (getNextFatValue_run _ g c kk w1 v Hg Hv)
          as (w2 & Himg2 & _ & _ & _ & Hrun)
    end.
    rewrite Hrun. exists w2. split; [congruence|].
    destruct (Z.land v MASK_FIRST_HEX <? END_OF_CLUSTER_CHAIN).
    + destruct (readCluster fuel g _ depth w2) as [[[u w3] o2]|]; reflexivity.
    + cbn [ret]. rewrite app_nil_r. reflexivity.
Qed.

Lemma walk_ends_at_end_of_chain_witness :
  readCluster_loop Build.globals (readCluster 2 Build.globals) 2 0 16 1 None
    (Build.world Walks.marker_then_more)
  = Some (None, with_offset (Build.world Walks.marker_then_more) (1536 + 32 + 32), [])
  /\ exists w2,
       fd_image w2 = Walks.marker_then_more
       /\ readCluster 3 Build.globals 2 0 (Build.world Walks.marker_then_more)
          = match readCluster 2 Build.globals 3 0 w2 with
            | Some (u, w3, o2) =>
                Some (u, w3, [PrintEntry 0 ShortNameFile (bytes_of_string "A.TXT")]
                             ++ o2)
            | None => None
            end.
Proof.
  pose proof (walk_ends_at_end_of_chain Build.globals 2
                (readCluster 2 Build.globals) 2 0%nat
                (Build.world Walks.marker_then_more)
                ltac:(unfold Globals_ok; simpl; lia)) as [Hmarker Hwalk].
  split.
  - apply (Hmarker 15%nat 1 None (repeat 0 32)).
    + lia.
    + reflexivity.
    + reflexivity.
  - destruct (readCluster_loop Build.globals (readCluster 2 Build.globals) 2 0
                (Z.to_nat (entriesPerCluster Build.globals)) 0 None
                (Build.world Walks.marker_then_more))
      as [[[ln w1] o1]|] eqn:Hloop; [|vm_compute in Hloop; discriminate].
    assert (Ho1 : o1 = [PrintEntry 0 ShortNameFile (bytes_of_string "A.TXT")]).
    { vm_compute in Hloop. inversion Hloop. reflexivity. }
    destruct (Hwalk ln w1 o1 3 eq_refl eq_refl) as (w2 & Himg & Hrun).
    exists w2. split; [exact Himg|]. rewrite Hrun, Ho1. reflexivity.
Defined.

(** C5 as stated fails: the first cluster of the root directory holds the
    end marker in its slot 1, and the walk goes on to cluster 3, whose B.TXT
    is printed. *)
Lemma walk_goes_on_after_end_marker :
  option_map (fun buf => first_byte (decode_DirInfo buf))
    (slot_bytes Build.globals Walks.marker_then_more 2 1) = Some 0x00
  /\ next_cluster Build.globals Walks.marker_then_more 2 = Some 3
  /\ option_map (fun buf => entry_text (decode_DirInfo buf))
       (slot_bytes Build.globals Walks.marker_then_more 3 0)
     = Some (bytes_of_string "B.TXT")
  /\ output (readCluster 3 Build.globals 2 0 (Build.world Walks.marker_then_more))
     = [PrintEntry 0 ShortNameFile (bytes_of_string "A.TXT");
        PrintEntry 0 ShortNameFile (bytes_of_string "B.TXT")].
Proof. repeat split; vm_compute; reflexivity. Qed.

(** ** The globals of main *)

Lemma byte_at_nonneg buf k :
  Forall (fun b => 0 <= b < 256) buf -> 0 <= byte_at buf k < 256.
Proof.
  intros Hbuf. unfold byte_at.
  destruct (Nat.lt_ge_cases k (length buf)) as [Hlt | Hge].
  - rewrite Forall_forall in Hbuf. apply Hbuf. apply nth_In. exact Hlt.
  - rewrite nth_overflow by exact Hge. lia.
Qed.

Lemma le16_nonneg buf k : Forall (fun b => 0 <= b < 256) buf -> 0 <= le16 buf k.
Proof.
  intros Hbuf. unfold le16.
  pose proof (byte_at_nonneg buf k Hbuf). pose proof (byte_at_nonneg buf (k + 1) Hbuf).
  lia.
Qed.

Lemma in_firstn (x : Z) n : forall l, In x (firstn n l) -> In x l.
Proof.
  induction n as [|n IH]; intros [|y l] H; cbn [firstn] in H; try contradiction.
  destruct H as [H | H]; [left; exact H|right; apply IH; exact H].
Qed.

Lemma in_skipn (x : Z) n : forall l, In x (skipn n l) -> In x l.
Proof.
  induction n as [|n IH]; intros [|y l] H; cbn [skipn] in H;
    try contradiction; try exact H.
  right. apply IH. exact H.
Qed.

Lemma read_static_at_bytes image off count :
  Forall (fun b => 0 <= b < 256) image ->
  Forall (fun b => 0 <= b < 256) (read_static_at image off count).
Proof.
  intros Himg. unfold read_static_at, slice. apply Forall_app. split.
  - rewrite Forall_forall in *. intros b Hb. apply Himg.
    apply (in_skipn b (Z.to_nat off)). apply (in_firstn b count). exact Hb.
  - rewrite Forall_forall. intros b Hb. apply repeat_spec in Hb. lia.
Qed.

(** The globals that main computes from an image of bytes have no negative
    offset. *)
Lemma globals_of_ok image :
  Forall (fun b => 0 <= b < 256) image -> Globals_ok (globals_of image).
Proof.
  intros Himg.
  pose proof (read_static_at_bytes image 0 sizeof_fat32BS Himg) as Hbs.
  unfold Globals_ok, globals_of, boot_sector_of.
  cbn [fatSectorStart dataSectorLocationInSectors bytesPerCluster bootSector
       decode_fat32BS BPB_BytesPerSec BPB_RsvdSecCnt BPB_SecPerClus].
  pose proof (le16_nonneg _ 11 Hbs). pose proof (le16_nonneg _ 14 Hbs).
  pose proof (byte_at_nonneg _ 13 Hbs).
  match goal with |- context [wrap32 ?z] => pose proof (wrap32_nonneg z) end.
  repeat split; nia.
Qed.

(** ** The scenarios of the spec *)

Example globals_of_scenario : globals_of Examples.scenario = Build.globals.
Proof. vm_compute. reflexivity. Qed.

(** list: SUB1 and README.TXT at depth 0, in this order, and A.TXT at depth
    1 after SUB1. *)
Example scenario_list :
  option_map (fun r => (fst (fst r), snd r))
    (main 4 ["fat32"; "volume.img"; "list"]%string (Build.world Examples.scenario))
  = Some (EXIT_SUCCESS,
          [PrintEntry 0 Directory (bytes_of_string "SUB1");
           PrintEntry 1 ShortNameFile (bytes_of_string "A.TXT");
           PrintEntry 0 ShortNameFile (bytes_of_string "README.TXT");
           Printf "Done"]).
Proof. vm_compute. reflexivity. Qed.

(** get README.TXT: the 100 declared bytes of its cluster. *)
Example scenario_get :
  option_map (fun r => (fst (fst r), snd r))
    (main 4 ["fat32"; "volume.img"; "get"; "README.TXT"]%string
          (Build.world Examples.scenario))
  = Some (EXIT_SUCCESS,
          [Fopen (bytes_of_string "output/README.TXT");
           Fwrite (repeat 65 100);
           Fclose;
           Printf "File copied into output folder.";
           Printf "Done"]).
Proof. vm_compute. reflexivity. Qed.

(** A long name whose second fragment has another checksum is dropped: only
    the short name is printed. *)
Example scenario_corrupted_checksum :
  output (readCluster 2 Build.globals 2 0
            (Build.world Examples.corrupted_checksum))
  = [PrintEntry 0 ShortNameFile (bytes_of_string "FILE.TXT")].
Proof. vm_compute. reflexivity. Qed.

(** * Further properties *)

Unset Implicit Arguments.

(** ** removeTrailingSpace *)

Lemma removeTrailingSpace_loop_le s e : (removeTrailingSpace_loop s e <= e)%nat.
Proof.
  induction e as [|e IH]; cbn [removeTrailingSpace_loop]; [lia|].
  destruct (isspace (nth (S e) s 0)); lia.
Qed.

Lemma removeTrailingSpace_loop_spaces s e j :
  (removeTrailingSpace_loop s e < j <= e)%nat -> isspace (nth j s 0) = true.
Proof.
  induction e as [|e IH]; cbn [removeTrailingSpace_loop]; [lia|].
  destruct (isspace (nth (S e) s 0)) eqn:Hsp; [|lia].
  intros Hj. destruct (Nat.eq_dec j (S e)) as [-> | Hne]; [exact Hsp|].
  apply IH. lia.
Qed.

Lemma removeTrailingSpace_loop_stop s e :
  removeTrailingSpace_loop s e = 0%nat
  \/ isspace (nth (removeTrailingSpace_loop s e) s 0) = false.
Proof.
  induction e as [|e IH]; cbn [removeTrailingSpace_loop]; [left; reflexivity|].
  destruct (isspace (nth (S e) s 0)) eqn:Hsp; [exact IH|right; exact Hsp].
Qed.

Lemma skipn_Forall_nth (P : Z -> Prop) m s :
  (forall j, (m <= j < length s)%nat -> P (nth j s 0)) -> Forall P (skipn m s).
Proof.
  revert m. induction s as [|x s IH]; intros m H.
  - rewrite skipn_nil. constructor.
  - destruct m as [|m]; cbn [skipn].
    + constructor.
      * apply (H 0%nat). cbn [length]. lia.
      * apply (IH 0%nat). intros j Hj. apply (H (S j)). cbn [length]. lia.
    + apply IH. intros j Hj. apply (H (S j)). cbn [length]. lia.
Qed.

(** X1. removeTrailingSpace cuts a string after its last character that is
    not a space, but never before its second character: the result is the
    string without a tail of spaces; a string that is not empty keeps its
    first character even when it is a space (a string of spaces becomes one
    space); a result of two characters or more does not end with a space;
    and stripping twice changes nothing more. *)
Theorem removeTrailingSpace_strips_tail (s : list Z) :
  (exists tail,
     s = removeTrailingSpace s ++ tail /\ Forall (fun c => isspace c = true) tail)
  /\ (s <> [] -> firstn 1 (removeTrailingSpace s) = firstn 1 s)
  /\ ((1 < length (removeTrailingSpace s))%nat ->
      isspace (nth (length (removeTrailingSpace s) - 1)
                   (removeTrailingSpace s) 0) = false)
  /\ removeTrailingSpace (removeTrailingSpace s) = removeTrailingSpace s.
Proof.
  destruct (length s) as [|n] eqn:Hlen.
  { destruct s; [|discriminate].
    split; [exists []; split; [reflexivity|constructor]|].
    split; [intros H; contradiction|].
    split; [intros H; cbn in H; lia|reflexivity]. }
  set (k := removeTrailingSpace_loop s n).
  assert (Heq : removeTrailingSpace s = firstn (S k) s)
    by (unfold removeTrailingSpace; rewrite Hlen; reflexivity).
  rewrite !Heq.
  pose proof (removeTrailingSpace_loop_le s n) as Hk. fold k in Hk.
  pose proof (removeTrailingSpace_loop_stop s n) as Hstop. fold k in Hstop.
  assert (Hlenr : length (firstn (S k) s) = S k)
    by (rewrite length_firstn; lia).
  split; [|split; [|split]].
  - exists (skipn (S k) s). split; [symmetry; apply firstn_skipn|].
    apply skipn_Forall_nth. intros j Hj.
    apply (removeTrailingSpace_loop_spaces s n j). fold k. lia.
  - intros _. rewrite firstn_firstn. reflexivity.
  - rewrite Hlenr. intros Hlong.
    replace (S k - 1)%nat with k by lia.
    rewrite nth_firstn. destruct (Nat.ltb_spec k (S k)); [|lia].
    destruct Hstop as [Hz | Hns]; [lia|exact Hns].
  - unfold removeTrailingSpace. rewrite Hlenr.
    assert (Hloop : removeTrailingSpace_loop (firstn (S k) s) k = k).
    { clearbody k. destruct k as [|k']; [reflexivity|].
      cbn [removeTrailingSpace_loop].
      rewrite nth_firstn. destruct (Nat.ltb_spec (S k') (S (S k'))); [|lia].
      destruct Hstop as [Hz | Hns]; [lia|].
      rewrite Hns. reflexivity. }
    rewrite Hloop. rewrite firstn_firstn. f_equal. lia.
Qed.

Lemma removeTrailingSpace_strips_tail_witness :
  firstn 1 (removeTrailingSpace (bytes_of_string "   "))
  = firstn 1 (bytes_of_string "   ")
  /\ isspace (nth (length (removeTrailingSpace (bytes_of_string "AB  ")) - 1)
                  (removeTrailingSpace (bytes_of_string "AB  ")) 0) = false.
Proof.
  split.
  - apply (proj1 (proj2 (removeTrailingSpace_strips_tail (bytes_of_string "   ")))).
    discriminate.
  - apply (proj1 (proj2 (proj2
             (removeTrailingSpace_strips_tail (bytes_of_string "AB  "))))).
    vm_compute. lia.
Defined.

(** ** The start, the loss and the text of a long name *)

(** X2. While no long name is accumulated, a long-name slot starts one
    exactly when its order byte has the "last fragment" flag 0x40 and its
    entry-type byte is 0: the name then holds the 13 code units of the slot,
    and its checksum and order bytes are recorded.  Any other long-name slot
    is ignored. *)
Theorem first_fragment_starts_iff g rec clusterNum depth i buf w :
  Globals_ok g -> 0 <= i ->
  slot_bytes g (fd_image w) clusterNum i = Some buf ->
  is_long_name (dir_attr (decode_DirInfo buf)) = true ->
  let fragment := decode_LongNameDirInfo buf in
  readCluster_entry g rec clusterNum depth i (decode_DirInfo buf) None w
  = Some (if (Z.land (LDIR_Ord fragment) LAST_LONG_ENTRY =? LAST_LONG_ENTRY)
             && (LDIR_Type fragment =? 0)
          then Some {| totalLongName := fragment_units fragment;
                       numLongNameEntries := 1;
                       checkSum := LDIR_Chksum fragment;
                       previousNameOrder := LDIR_Ord fragment |}
          else None,
          with_offset w (slotOffset g clusterNum i + Z.of_nat sizeof_DirInfo),
          []).
Proof.
  intros Hg Hi Hb Hlong fragment.
  destruct (long_name_not_visible _ Hlong) as [Hd Hf].
  unfold readCluster_entry. rewrite Hd, Hf, Hlong.
  rewrite (read_long_slot_run _ g clusterNum i buf _ w Hg Hi Hb).
  fold fragment. destruct (_ && _); reflexivity.
Qed.

Lemma first_fragment_starts_iff_witness :
  readCluster_entry Build.globals (readCluster 1 Build.globals) 2 0 0
    (decode_DirInfo Fragments.only_fragment) None (Build.world Fragments.mixed)
  = Some (Some {| totalLongName := Build.pad 13 (bytes_of_string "a.txt");
                  numLongNameEntries := 1;
                  checkSum := ChkSum (bytes_of_string "A       TXT");
                  previousNameOrder := 0x41 |},
          with_offset (Build.world Fragments.mixed) (1536 + 32), []).
Proof.
  apply (first_fragment_starts_iff Build.globals (readCluster 1 Build.globals)
           2 0%nat 0 Fragments.only_fragment (Build.world Fragments.mixed)).
  - unfold Globals_ok. simpl. lia.
  - lia.
  - reflexivity.
  - reflexivity.
Defined.

Lemma unlisted_attr attr :
  is_unlisted attr = true ->
  is_long_name attr = false /\ is_directory attr = false /\ is_file attr = false.
Proof.
  unfold is_unlisted. intros H.
  apply andb_prop in H. destruct H as [H Hf].
  apply andb_prop in H. destruct H as [Hl Hd].
  repeat split; apply negb_true_iff; assumption.
Qed.

(** X3. A deleted slot (first name byte 0xE5) leaves the long name that is
    being accumulated as it is, so the fragments before it still pair with
    the short entry after it.  A short entry that is hidden, a system file
    or a volume label is never printed, and it drops the long name that was
    being accumulated. *)
Theorem deleted_keeps_unlisted_drops g rec clusterNum depth i ln buf w :
  Globals_ok g -> 0 <= i ->
  slot_bytes g (fd_image w) clusterNum i = Some buf ->
  let after := with_offset w (slotOffset g clusterNum i + Z.of_nat sizeof_DirInfo) in
  (first_byte (decode_DirInfo buf) = 0xE5 ->
   readCluster_slot g rec clusterNum depth i ln w = Some ((ln, false), after, []))
  /\ (first_byte (decode_DirInfo buf) <> 0x00 ->
      first_byte (decode_DirInfo buf) <> 0xE5 ->
      is_unlisted (dir_attr (decode_DirInfo buf)) = true ->
      exists ln',
        readCluster_slot g rec clusterNum depth i ln w = Some ((ln', false), after, [])
        /\ (depth = 0%nat \/ 1 < i -> ln' = None)).
Proof.
  intros Hg Hi Hb after.
  pose proof (slotOffset_nonneg g clusterNum i Hg Hi) as Hoff.
  unfold readCluster_slot. rewrite (seek_read_run _ _ _ _ w Hoff).
  unfold slot_bytes in Hb. rewrite Hb. fold after. unfold first_byte.
  split.
  - intros Hdel. rewrite Hdel. cbn [Z.eqb Pos.eqb negb].
    rewrite andb_false_r. reflexivity.
  - intros Hend Hdel Hun.
    destruct (Z.eqb_spec (nth 0 (dir_name (decode_DirInfo buf)) 0) 0x00);
      [contradiction|].
    destruct (Z.eqb_spec (nth 0 (dir_name (decode_DirInfo buf)) 0) 0xE5);
      [contradiction|].
    destruct (unlisted_attr _ Hun) as (Hl & Hd & Hf).
    destruct ((1 <? i) || (depth =? 0)%nat) eqn:Hproc; cbn [negb andb].
    + exists None. split; [|reflexivity].
      unfold readCluster_entry. rewrite Hd, Hf, Hl. reflexivity.
    + exists ln. split; [reflexivity|].
      apply orb_false_iff in Hproc. destruct Hproc as [Hi1 Hd0].
      intros [-> | Hlt]; [discriminate|].
      apply Z.ltb_ge in Hi1. lia.
Qed.

Lemma deleted_keeps_unlisted_drops_witness :
  readCluster_slot Build.globals (readCluster 1 Build.globals) 2 0 1
    (Some Examples.accumulating) (Build.world Fragments.mixed)
  = Some ((Some Examples.accumulating, false),
          with_offset (Build.world Fragments.mixed) (1536 + 32 + 32), [])
  /\ readCluster_slot Build.globals (readCluster 1 Build.globals) 2 0 2
       (Some Examples.accumulating) (Build.world Fragments.mixed)
     = Some ((None, false),
             with_offset (Build.world Fragments.mixed) (1536 + 64 + 32), []).
Proof.
  assert (Hg : Globals_ok Build.globals) by (unfold Globals_ok; simpl; lia).
  split.
  - apply (proj1 (deleted_keeps_unlisted_drops Build.globals
                    (readCluster 1 Build.globals) 2 0%nat 1
                    (Some Examples.accumulating) Fragments.DELETED
                    (Build.world Fragments.mixed) Hg ltac:(lia) eq_refl)).
    reflexivity.
  - destruct (proj2 (deleted_keeps_unlisted_drops Build.globals
                       (readCluster 1 Build.globals) 2 0%nat 2
                       (Some Examples.accumulating)
                       (Build.short_entry "MYVOLUME   " 0x08 0 0)
                       (Build.world Fragments.mixed) Hg ltac:(lia) eq_refl)
                    ltac:(vm_compute; discriminate)
                    ltac:(vm_compute; discriminate) eq_refl)
      as (ln' & Hrun & Hnone).
    rewrite Hrun. rewrite (Hnone (or_introl eq_refl)). reflexivity.
Defined.

Lemma fragment_units_length buf :
  length (fragment_units (decode_LongNameDirInfo buf)) = 13%nat.
Proof.
  unfold fragment_units, decode_LongNameDirInfo, units.
  cbn [LDIR_Name1 LDIR_Name2 LDIR_Name3].
  rewrite !length_app, !length_map, !length_seq. reflexivity.
Qed.

Lemma slice_app_left (l1 l2 : list Z) k len :
  (k + len <= length l1)%nat -> slice (l1 ++ l2) k len = slice l1 k len.
Proof.
  intros H. unfold slice. rewrite skipn_app.
  rewrite firstn_app. rewrite length_skipn.
  replace (len - (length l1 - k))%nat with 0%nat by lia.
  cbn [firstn]. apply app_nil_r.
Qed.

Lemma slice_app_right (l1 l2 : list Z) :
  slice (l1 ++ l2) (length l1) (length l2) = l2.
Proof.
  unfold slice. rewrite skipn_app, skipn_all, Nat.sub_diag. cbn [skipn app].
  apply firstn_all.
Qed.

Lemma flat_map_ext_in (f h : nat -> list Z) l :
  (forall a, In a l -> f a = h a) -> flat_map f l = flat_map h l.
Proof.
  induction l as [|a l IH]; intros H; [reflexivity|].
  cbn [flat_map]. rewrite (H a (or_introl eq_refl)).
  rewrite IH; [reflexivity|]. intros b Hb. apply H. right. exact Hb.
Qed.

(** The text after one more fragment: its units first, then the text there
    was. *)
Lemma longNameText_append (v : LongNameVars) us chk ord :
  length (totalLongName v) = (13 * numLongNameEntries v)%nat ->
  length us = 13%nat ->
  longNameText {| totalLongName := totalLongName v ++ us;
                  numLongNameEntries := S (numLongNameEntries v);
                  checkSum := chk;
                  previousNameOrder := ord |}
  = printed_units us ++ longNameText v.
Proof.
  intros Hwf Hus. unfold longNameText, printed_units.
  cbn [totalLongName numLongNameEntries].
  rewrite seq_S, rev_app_distr. cbn [Nat.add rev app flat_map].
  rewrite filter_app. f_equal.
  - f_equal.
    replace (numLongNameEntries v * 13)%nat with (length (totalLongName v)) by lia.
    rewrite <- Hus. apply slice_app_right.
  - f_equal. apply flat_map_ext_in. intros a Ha.
    rewrite <- in_rev in Ha. apply in_seq in Ha.
    apply slice_app_left. lia.
Qed.

(** X4. A long name is put together from the last fragment read to the
    first: whenever a long-name slot is taken (as the start of a name or as
    one more fragment), the text that would be printed is the 13 code units
    of this slot without the padding units 0x0000 and 0xFFFF, followed by
    the text accumulated before; and the buffer holds 13 units for each
    fragment counted. *)
Theorem long_name_grows_at_the_front
    g rec clusterNum depth i buf (ln : LongNameState) w v' w' o :
  Globals_ok g -> 0 <= i ->
  slot_bytes g (fd_image w) clusterNum i = Some buf ->
  is_long_name (dir_attr (decode_DirInfo buf)) = true ->
  long_name_wf ln ->
  readCluster_entry g rec clusterNum depth i (decode_DirInfo buf) ln w
  = Some (Some v', w', o) ->
  long_name_wf (Some v')
  /\ longNameText v'
     = printed_units (fragment_units (decode_LongNameDirInfo buf))
       ++ long_name_text ln
  /\ numLongNameEntries v' = S (numLongNameEntries_of ln).
Proof.
  intros Hg Hi Hb Hlong Hwf Hrun.
  destruct (long_name_not_visible _ Hlong) as [Hd Hf].
  unfold readCluster_entry in Hrun. rewrite Hd, Hf, Hlong in Hrun.
  rewrite (read_long_slot_run _ g clusterNum i buf _ w Hg Hi Hb) in Hrun.
  pose proof (fragment_units_length buf) as Hlen.
  destruct ln as [v|]; cbn [long_name_wf long_name_text numLongNameEntries_of] in *.
  - destruct (_ && _); [|discriminate].
    destruct (_ <? _)%nat; [discriminate|].
    inversion Hrun; subst v'; clear Hrun.
    split; [|split; [|reflexivity]].
    + cbn [totalLongName numLongNameEntries]. rewrite length_app. lia.
    + apply longNameText_append; assumption.
  - destruct (_ && _); [|discriminate].
    inversion Hrun; subst v'; clear Hrun.
    split; [|split; [|reflexivity]].
    + cbn [totalLongName numLongNameEntries]. lia.
    + rewrite app_nil_r. unfold longNameText, printed_units.
      cbn [totalLongName numLongNameEntries].
      change (rev (seq 0 1)) with [0%nat]. cbn [flat_map].
      rewrite app_nil_r. change (0 * 13)%nat with 0%nat.
      unfold slice. cbn [skipn].
      rewrite (firstn_concat_exact Z _ 13 Hlen). reflexivity.
Qed.

Lemma long_name_grows_at_the_front_witness :
  exists v' w',
    readCluster_entry Build.globals (readCluster 3 Build.globals) 2 0 1
      (decode_DirInfo
         (Build.long_entry 0x01 (Examples.units_of "head-of-name-")
            (ChkSum (bytes_of_string "FILE    TXT")) 0))
      (Some Examples.accumulating) (Build.world Examples.gap_in_orders)
    = Some (Some v', w', [])
    /\ longNameText v' = Examples.units_of "head-of-name-tail"
    /\ numLongNameEntries v' = 2%nat.
Proof.
  destruct (readCluster_entry Build.globals (readCluster 3 Build.globals) 2 0 1
              (decode_DirInfo
                 (Build.long_entry 0x01 (Examples.units_of "head-of-name-")
                    (ChkSum (bytes_of_string "FILE    TXT")) 0))
              (Some Examples.accumulating) (Build.world Examples.gap_in_orders))
    as [[[[v'|] w'] o]|] eqn:Hrun;
    [|vm_compute in Hrun; discriminate|vm_compute in Hrun; discriminate].
  assert (Ho : o = []) by (vm_compute in Hrun; inversion Hrun; reflexivity).
  subst o. exists v', w'. split; [reflexivity|].
  destruct (long_name_grows_at_the_front Build.globals (readCluster 3 Build.globals)
              2 0%nat 1
              (Build.long_entry 0x01 (Examples.units_of "head-of-name-")
                 (ChkSum (bytes_of_string "FILE    TXT")) 0)
              (Some Examples.accumulating) (Build.world Examples.gap_in_orders)
              v' w' []
              ltac:(unfold Globals_ok; simpl; lia) ltac:(lia) eq_refl eq_refl
              eq_refl Hrun) as (_ & Htext & Hnum).
  split; [rewrite Htext; reflexivity|exact Hnum].
Defined.

(** ** The listing at any depth *)



(** ** What copyFile writes at most *)

Lemma read_struct_length count w buf w' o :
  read_struct count w = Some (buf, w', o) -> length buf = count /\ o = [].
Proof.
  unfold read_struct. intros H.
  apply bind_Some in H. destruct H as (got & w1 & o1 & o2 & Hs & Hr & ->).
  inversion Hs; subst; clear Hs.
  destruct (Nat.ltb_spec (length (slice (fd_image w) (Z.to_nat (fd_offset w)) count))
                         count) as [|Hge]; [discriminate|].
  inversion Hr; subst. split; [|reflexivity].
  unfold slice in *. pose proof (firstn_le_length count
    (skipn (Z.to_nat (fd_offset w)) (fd_image w))). lia.
Qed.

Lemma getNextFatValue_silent g c w v w' o :
  getNextFatValue g c w = Some (v, w', o) -> o = [].
Proof.
  unfold getNextFatValue. intros H.
  apply bind_Some in H. destruct H as (? & ? & ? & ? & Hl & H & ->).
  inversion Hl; subst.
  apply bind_Some in H. destruct H as (? & ? & ? & ? & Hr & H & ->).
  inversion H; subst. apply read_struct_length in Hr. destruct Hr as [_ ->].
  reflexivity.
Qed.

Lemma copyFile_loop_bound g fuel : forall bytesLeft c w u w' o,
  0 <= bytesPerCluster g -> 0 <= bytesLeft ->
  copyFile_loop fuel g bytesLeft c w = Some (u, w', o) ->
  exists chunks,
    o = map Fwrite chunks
    /\ (Z.of_nat (length (concat chunks)) = bytesLeft
        \/ (Z.of_nat (length (concat chunks)) < bytesLeft
            /\ Z.of_nat (length (concat chunks))
               = Z.of_nat (length chunks) * bytesPerCluster g)).
Proof.
  induction fuel as [|fuel IH]; intros bytesLeft c w u w' o Hbpc Hb Hrun;
    rewrite copyFile_loop_eq in Hrun.
  - destruct (Z.eqb_spec bytesLeft 0) as [Hz|Hnz]; cbn [negb andb] in Hrun.
    + inversion Hrun; subst. exists []. split; [reflexivity|]. left. reflexivity.
    + destruct (_ && _); [discriminate|].
      inversion Hrun; subst. exists []. split; [reflexivity|].
      right. cbn [concat length]. lia.
  - destruct (Z.eqb_spec bytesLeft 0) as [Hz|Hnz]; cbn [negb andb] in Hrun.
    { inversion Hrun; subst. exists []. split; [reflexivity|]. left. reflexivity. }
    destruct (_ && _).
    2: { inversion Hrun; subst. exists []. split; [reflexivity|].
         right. cbn [concat length]. lia. }
    apply bind_Some in Hrun. destruct Hrun as (? & w1 & o1 & o2 & Hl & Hrun & ->).
    inversion Hl; subst o1; clear Hl.
    apply bind_Some in Hrun. destruct Hrun as (buf & w2 & o3 & o4 & Hr & Hrun & ->).
    apply read_struct_length in Hr. destruct Hr as [Hlen ->].
    cbn [app].
    destruct (Z.leb_spec (bytesPerCluster g) bytesLeft) as [Hfull | Hpart].
    + apply bind_Some in Hrun. destruct Hrun as (? & w3 & o5 & o6 & He & Hrun & ->).
      inversion He; subst; clear He.
      apply bind_Some in Hrun. destruct Hrun as (next & w4 & o7 & o8 & Hn & Hrun & ->).
      apply getNextFatValue_silent in Hn. subst o7. cbn [app].
      destruct (IH (bytesLeft - bytesPerCluster g) _ _ _ _ _ Hbpc ltac:(lia) Hrun)
        as (chunks & -> & Hsize).
      exists (buf :: chunks). split; [reflexivity|].
      cbn [concat length]. rewrite length_app, Hlen.
      destruct Hsize as [Heq | [Hlt Hmul]]; [left; lia|right; split; lia].
    + apply bind_Some in Hrun. destruct Hrun as (? & w3 & o5 & o6 & He & Hrun & ->).
      inversion He; subst; clear He.
      rewrite copyFile_loop_eq in Hrun. cbn [Z.eqb negb andb] in Hrun.
      inversion Hrun; subst.
      exists [firstn (Z.to_nat bytesLeft) buf]. split; [reflexivity|].
      left. cbn [concat]. rewrite app_nil_r, length_firstn. lia.
Qed.

(** X6. copyFile never writes more than the declared size: whenever it
    returns, whatever the chain and the fuel, what it has done is open the
    destination output/<base>.<raw extension>, write chunks and close it;
    the bytes written are the declared size, or fewer and then a whole
    number of clusters.  For a declared size of 0, or a start cluster that
    is 0 or an end-of-chain value, it creates the file and writes nothing,
    without reading the image. *)
Theorem copyFile_never_writes_more g fuel (d : DirInfo) start givenName ext w :
  0 <= bytesPerCluster g -> 0 <= dir_file_size d ->
  (forall u w' o,
     copyFile fuel g d start givenName ext w = Some (u, w', o) ->
     exists chunks,
       o = [Fopen (destination_of givenName ext)] ++ map Fwrite chunks ++ [Fclose]
       /\ (Z.of_nat (length (concat chunks)) = dir_file_size d
           \/ (Z.of_nat (length (concat chunks)) < dir_file_size d
               /\ Z.of_nat (length (concat chunks))
                  = Z.of_nat (length chunks) * bytesPerCluster g)))
  /\ (dir_file_size d = 0 \/ start = 0 \/ EOC <= start ->
      copyFile fuel g d start givenName ext w
      = Some (tt, w, [Fopen (destination_of givenName ext); Fclose])).
Proof.
  intros Hbpc Hsize. split.
  - intros u w' o Hrun. unfold copyFile in Hrun.
    apply bind_Some in Hrun. destruct Hrun as (? & w1 & o1 & o2 & He & Hrun & ->).
    inversion He; subst; clear He.
    apply bind_Some in Hrun. destruct Hrun as (? & w2 & o3 & o4 & Hloop & Hc & ->).
    inversion Hc; subst; clear Hc.
    destruct (copyFile_loop_bound g fuel _ _ _ _ _ _ Hbpc Hsize Hloop)
      as (chunks & -> & Hbound).
    exists chunks. split; [reflexivity|exact Hbound].
  - intros Hstop.
    assert (Hloop : copyFile_loop fuel g (dir_file_size d) start w = Some (tt, w, [])).
    { apply copyFile_loop_stops. destruct Hstop as [H | [H | H]]; auto. }
    apply (copyFile_run fuel g d start givenName ext w w [] Hloop).
Qed.

Lemma copyFile_never_writes_more_witness :
  (exists u w' chunks,
     copyFile 7 Build.globals Files.CUT_BIN 3
              (bytes_of_string "CUT") (bytes_of_string "BIN")
              (Build.world Files.truncated)
     = Some (u, w', [Fopen (bytes_of_string "output/CUT.BIN")]
                    ++ map Fwrite chunks ++ [Fclose])
     /\ Z.of_nat (length (concat chunks)) < 1000)
  /\ copyFile 0 Build.globals Files.CUT_BIN 0
              (bytes_of_string "CUT") (bytes_of_string "BIN")
              (Build.world Files.truncated)
     = Some (tt, Build.world Files.truncated,
             [Fopen (bytes_of_string "output/CUT.BIN"); Fclose]).
Proof.
  split.
  - destruct (copyFile 7 Build.globals Files.CUT_BIN 3
                (bytes_of_string "CUT") (bytes_of_string "BIN")
                (Build.world Files.truncated))
      as [[[u w'] o]|] eqn:Hrun; [|vm_compute in Hrun; discriminate].
    destruct (proj1 (copyFile_never_writes_more Build.globals 7 Files.CUT_BIN 3
                       (bytes_of_string "CUT") (bytes_of_string "BIN")
                       (Build.world Files.truncated)
                       ltac:(vm_compute; discriminate)
                       ltac:(vm_compute; discriminate)) u w' o Hrun)
      as (chunks & Ho & Hbound). subst o.
    exists u, w', chunks. split; [reflexivity|].
    destruct Hbound as [Heq | [Hlt _]].
    + exfalso. vm_compute in Hrun. inversion Hrun as [[Hu Hw Ho]].
      destruct chunks as [|ch [|ch' chunks]]; try discriminate.
      inversion Ho; subst ch. vm_compute in Heq. discriminate.
    + exact Hlt.
  - apply (proj2 (copyFile_never_writes_more Build.globals 0 Files.CUT_BIN 0
                    (bytes_of_string "CUT") (bytes_of_string "BIN")
                    (Build.world Files.truncated)
                    ltac:(vm_compute; discriminate)
                    ltac:(vm_compute; discriminate))).
    right. left. reflexivity.
Defined.

(** ** What fetchFile does at most *)

Lemma quiet_ret A (a : A) : quiet (ret a).
Proof. intros w a' w' o H. inversion H; subst. auto. Qed.

Lemma quiet_lseek off : quiet (lseek off).
Proof. intros w a w' o H. inversion H; subst. auto. Qed.

Lemma quiet_bind A B (m : M A) (f : A -> M B) :
  quiet m -> (forall a, quiet (f a)) -> quiet (bind m f).
Proof.
  intros Hm Hf w b w2 o H.
  apply bind_Some in H. destruct H as (a & w1 & o1 & o2 & H1 & H2 & ->).
  destruct (Hm _ _ _ _ H1) as (-> & Hf1 & Hs1).
  destruct (Hf a _ _ _ _ H2) as (-> & Hf2 & Hs2).
  repeat split; congruence.
Qed.

Lemma quiet_read_struct count : quiet (read_struct count).
Proof.
  unfold read_struct. apply quiet_bind.
  - intros w a w' o H. inversion H; subst. auto.
  - intros got. destruct (_ <? _)%nat; [intros w a w' o H; discriminate|apply quiet_ret].
Qed.

Lemma quiet_getNextFatValue g c : quiet (getNextFatValue g c).
Proof.
  unfold getNextFatValue.
  apply quiet_bind; [apply quiet_lseek|]. intros _.
  apply quiet_bind; [apply quiet_read_struct|]. intros buf. apply quiet_ret.
Qed.

Lemma only_copies_quiet A (m : M A) : quiet m -> only_copies m.
Proof.
  intros Hm w a w' o H. destruct (Hm _ _ _ _ H) as (-> & Hf & Hs).
  repeat split; [constructor|assumption|assumption].
Qed.

Lemma only_copies_bind A B (m : M A) (f : A -> M B) :
  only_copies m -> (forall a, only_copies (f a)) -> only_copies (bind m f).
Proof.
  intros Hm Hf w b w2 o H.
  apply bind_Some in H. destruct H as (a & w1 & o1 & o2 & H1 & H2 & ->).
  destruct (Hm _ _ _ _ H1) as (Ho1 & Hf1 & Hs1).
  destruct (Hf a _ _ _ _ H2) as (Ho2 & Hf2 & Hs2).
  repeat split; [apply Forall_app; split; assumption|congruence|congruence].
Qed.

Lemma only_copies_emit e : file_effect e -> only_copies (emit e).
Proof.
  intros He w a w' o H. inversion H; subst.
  repeat split. constructor; [exact He|constructor].
Qed.

Lemma only_copies_copyFile_loop fuel g : forall bytesLeft c,
  only_copies (copyFile_loop fuel g bytesLeft c).
Proof.
  induction fuel as [|fuel IH]; intros bytesLeft c; rewrite copyFile_loop_eq.
  - destruct (_ && _); [intros w a w' o H; discriminate|].
    apply only_copies_quiet, quiet_ret.
  - destruct (_ && _); [|apply only_copies_quiet, quiet_ret].
    apply only_copies_bind; [apply only_copies_quiet, quiet_lseek|]. intros _.
    apply only_copies_bind; [apply only_copies_quiet, quiet_read_struct|].
    intros buf. destruct (_ <=? _).
    + apply only_copies_bind; [apply only_copies_emit; exact I|]. intros _.
      apply only_copies_bind; [apply only_copies_quiet, quiet_getNextFatValue|].
      intros next. apply IH.
    + apply only_copies_bind; [apply only_copies_emit; exact I|]. intros _.
      apply IH.
Qed.

Lemma only_copies_copyFile fuel g d start givenName ext :
  only_copies (copyFile fuel g d start givenName ext).
Proof.
  unfold copyFile.
  apply only_copies_bind; [apply only_copies_emit; exact I|]. intros _.
  apply only_copies_bind; [apply only_copies_copyFile_loop|]. intros _.
  apply only_copies_emit. exact I.
Qed.

(** *** The components that strtok still has to give *)

Lemma count_tokens_skip_delims s :
  count_tokens_from false (skip_delims s) = count_tokens_from false s.
Proof.
  induction s as [|c s IH]; [reflexivity|].
  cbn [skip_delims]. destruct (c =? SLASH) eqn:Hc; [|reflexivity].
  cbn [count_tokens_from]. rewrite Hc. exact IH.
Qed.

Lemma skip_delims_head s c rest :
  skip_delims s = c :: rest -> (c =? SLASH) = false.
Proof.
  induction s as [|x s IH]; [discriminate|].
  cbn [skip_delims]. destruct (x =? SLASH) eqn:Hx; [exact IH|].
  intros H; inversion H; subst. exact Hx.
Qed.

Lemma count_tokens_span_token s : forall t r,
  span_token s = (t, r) -> count_tokens_from true s = count_tokens_from false r.
Proof.
  induction s as [|c s IH]; intros t r H; cbn [span_token count_tokens_from] in *.
  - inversion H; subst. reflexivity.
  - destruct (c =? SLASH).
    + inversion H; subst. reflexivity.
    + destruct (span_token s) as [t' r'] eqn:Hs. inversion H; subst.
      cbn [Nat.add]. apply (IH t' r eq_refl).
Qed.

Lemma strtok_from_count s tok rest :
  strtok_from s = (tok, rest) ->
  count_tokens s
  = ((match tok with Some _ => 1 | None => 0 end) + count_tokens rest)%nat.
Proof.
  unfold strtok_from, count_tokens. rewrite <- (count_tokens_skip_delims s).
  destruct (skip_delims s) as [|c s'] eqn:Hskip.
  - intros H; inversion H; subst. reflexivity.
  - pose proof (skip_delims_head s c s' Hskip) as Hc.
    destruct (span_token (c :: s')) as [t r] eqn:Hspan.
    intros H; inversion H; subst.
    pose proof (count_tokens_span_token (c :: s') t rest Hspan) as Hcount.
    cbn [count_tokens_from] in *. rewrite Hc in *. cbn [Nat.add] in Hcount.
    rewrite Hcount. reflexivity.
Qed.

(** *** The invariant of fetchFile *)

Lemma fetchFile_slot_fetched g fuel rec c numLeft i t w r w' o :
  (forall c' tg nl v v' o', rec c' tg nl v = Some (tt, v', o') -> fetched tg nl v v' o') ->
  fetchFile_slot g fuel rec c numLeft i t w = Some (r, w', o) ->
  Forall file_effect o
  /\ ((snd (fst r) = false /\ fst (fst r) = Some t /\ o = []
       /\ foundFile w' = foundFile w /\ strtok_save w' = strtok_save w)
      \/ (snd (fst r) = true /\ snd r = true
          /\ ((o = [] /\ foundFile w' = foundFile w)
              \/ (foundFile w' = true
                  /\ 0 <= numLeft <= Z.of_nat (count_tokens (strtok_save w)))))).
Proof.
  intros Hrec H. unfold fetchFile_slot in H.
  apply bind_Some in H. destruct H as (u1 & w1 & o1 & o2 & H1 & H & ->).
  destruct (quiet_lseek _ _ _ _ _ H1) as (-> & Hf1 & Hs1).
  apply bind_Some in H. destruct H as (buf & w2 & o1 & o3 & H2 & H & ->).
  destruct (quiet_read_struct _ _ _ _ _ H2) as (-> & Hf2 & Hs2).
  assert (Hf : foundFile w2 = foundFile w) by congruence.
  assert (Hs : strtok_save w2 = strtok_save w) by congruence.
  clear H1 H2 Hf1 Hf2 Hs1 Hs2. cbn [app].
  assert (Hno : forall brk o, ret (Some t, false, brk) w2 = Some (r, w', o) ->
    Forall file_effect o
    /\ ((snd (fst r) = false /\ fst (fst r) = Some t /\ o = []
         /\ foundFile w' = foundFile w /\ strtok_save w' = strtok_save w)
        \/ (snd (fst r) = true /\ snd r = true
            /\ ((o = [] /\ foundFile w' = foundFile w)
                \/ (foundFile w' = true
                    /\ 0 <= numLeft <= Z.of_nat (count_tokens (strtok_save w))))))).
  { intros brk o E. inversion E; subst. split; [constructor|]. left. cbn. auto. }
  destruct (_ =? 0x00); [exact (Hno _ _ H)|].
  destruct (negb (_ =? 0xE5)); [|exact (Hno _ _ H)].
  destruct (negb (numLeft =? 0) && _) eqn:Hdir.
  - destruct (strcmp0 _ _); [|exact (Hno _ _ H)].
    apply andb_true_iff in Hdir. destruct Hdir as [Hnl _].
    apply negb_true_iff, Z.eqb_neq in Hnl.
    apply bind_Some in H. destruct H as (tok & w3 & p3 & p4 & H3 & H & ->).
    unfold strtok in H3.
    destruct (strtok_from (strtok_save w2)) as [tok' rest] eqn:Htok.
    inversion H3; subst tok' w3 p3. clear H3.
    apply bind_Some in H. destruct H as ([] & w4 & p5 & p6 & H4 & H & ->).
    inversion H; subst r w' p6. clear H.
    destruct (Hrec _ _ _ _ _ _ H4) as (Ho & Hcase). cbn [app fst snd foundFile strtok_save] in *.
    rewrite app_nil_r. split; [exact Ho|]. right. split; [reflexivity|].
    split; [reflexivity|].
    destruct Hcase as [(-> & Hsame)|(Htrue & Hsome & Hbound)].
    + left. split; [reflexivity|]. congruence.
    + right. split; [exact Htrue|].
      pose proof (strtok_from_count _ _ _ Htok) as Hcount.
      destruct tok as [tk|]; [|congruence].
      rewrite <- Hs, Hcount. lia.
  - destruct ((numLeft =? 0) && _) eqn:Hfile; [|exact (Hno _ _ H)].
    destruct (strcmp0 _ _); [|exact (Hno _ _ H)].
    apply andb_true_iff in Hfile. destruct Hfile as [Hnl _].
    apply Z.eqb_eq in Hnl.
    apply bind_Some in H. destruct H as ([] & w3 & p3 & p4 & H3 & H & ->).
    inversion H3; subst w3 p3. clear H3.
    apply bind_Some in H. destruct H as ([] & w4 & p5 & p6 & H4 & H & ->).
    inversion H; subst r w' p6. clear H.
    destruct (only_copies_copyFile _ _ _ _ _ _ _ _ _ _ H4) as (Ho & Hf4 & Hs4).
    cbn [app fst snd foundFile strtok_save] in *.
    rewrite app_nil_r. split; [exact Ho|]. right. split; [reflexivity|].
    split; [reflexivity|]. right. split; [exact Hf4|]. lia.
Qed.

Lemma fetchFile_loop_fetched g fuel rec c numLeft t :
  (forall c' tg nl v v' o', rec c' tg nl v = Some (tt, v', o') -> fetched tg nl v v' o') ->
  forall n i w r w' o,
  fetchFile_loop g fuel rec c numLeft n i t w = Some (r, w', o) ->
  Forall file_effect o
  /\ ((snd r = false /\ fst r = Some t /\ o = []
       /\ foundFile w' = foundFile w /\ strtok_save w' = strtok_save w)
      \/ (snd r = true
          /\ ((o = [] /\ foundFile w' = foundFile w)
              \/ (foundFile w' = true
                  /\ 0 <= numLeft <= Z.of_nat (count_tokens (strtok_save w)))))).
Proof.
  intros Hrec. induction n as [|n IH]; intros i w r w' o H; cbn [fetchFile_loop] in H.
  - inversion H; subst. split; [constructor|]. left. cbn. auto.
  - apply bind_Some in H. destruct H as (r1 & w1 & o1 & o2 & H1 & H & ->).
    destruct (fetchFile_slot_fetched _ _ _ _ _ _ _ _ _ _ _ Hrec H1) as (Ho1 & Hcase).
    destruct r1 as [[tg fnd] brk]. cbn [fst snd] in Hcase.
    destruct brk.
    + inversion H; subst r w' o2. clear H. rewrite app_nil_r.
      split; [exact Ho1|]. cbn [fst snd].
      destruct Hcase as [(-> & -> & -> & Hf & Hs)|(-> & _ & Hc)].
      * left. auto.
      * right. auto.
    + destruct Hcase as [(-> & -> & -> & Hf & Hs)|(_ & Hbrk & _)]; [|discriminate].
      cbn [app]. destruct (IH _ _ _ _ _ H) as (Ho & Hc). split; [exact Ho|].
      rewrite <- Hf, <- Hs. exact Hc.
Qed.

Lemma fetchFile_fetched g : forall fuel c target numLeft w w' o,
  fetchFile fuel g c target numLeft w = Some (tt, w', o) ->
  fetched target numLeft w w' o.
Proof.
  induction fuel as [|fuel IH]; intros c target numLeft w w' o H; [discriminate|].
  cbn [fetchFile] in H. unfold fetchFile_step in H.
  assert (Hnothing : ret tt w = Some (tt, w', o) -> fetched target numLeft w w' o).
  { intros E. inversion E; subst. split; [constructor|]. left. auto. }
  destruct target as [t|]; [|exact (Hnothing H)].
  destruct (length t =? 0)%nat; [exact (Hnothing H)|]. clear Hnothing.
  apply bind_Some in H. destruct H as (r & w1 & o1 & o2 & H1 & H & ->).
  destruct (fetchFile_loop_fetched _ _ _ _ _ _ (IH) _ _ _ _ _ _ H1) as (Ho1 & Hcase).
  destruct r as [tg fnd]. cbn [fst snd] in Hcase.
  apply bind_Some in H. destruct H as (nc & w2 & o2' & o3 & H2 & H & ->).
  destruct (quiet_getNextFatValue _ _ _ _ _ _ H2) as (-> & Hf2 & Hs2). cbn [app].
  destruct Hcase as [(-> & -> & -> & Hf & Hs)|(-> & Hc)].
  - cbn [negb andb app] in *. destruct (_ <? _).
    + destruct (IH _ _ _ _ _ _ H) as (Ho & Hc). split; [exact Ho|].
      destruct Hc as [(-> & Hsame)|(Htrue & Hsome & Hbound)].
      * left. split; [reflexivity|]. congruence.
      * right. split; [exact Htrue|]. split; [discriminate|].
        rewrite <- Hs, <- Hs2. exact Hbound.
    + inversion H; subst. split; [constructor|]. left. split; [reflexivity|]. congruence.
  - cbn [negb andb] in H. inversion H; subst w' o3. rewrite app_nil_r.
    split; [exact Ho1|].
    destruct Hc as [(-> & Hsame)|(Htrue & Hbound)].
    + left. split; [reflexivity|]. congruence.
    + right. split; [congruence|]. split; [discriminate|]. exact Hbound.
Qed.

(** X7.  Whatever fetchFile does when it returns, it only opens, writes and
    closes an output file, it never prints; it never sets [foundFile] back
    to false; when it leaves [foundFile] false it has written nothing; and
    without a component to look for (a null or empty target) it returns at
    once and leaves everything as it was. *)
Theorem fetchFile_writes_files_only g fuel c target numLeft w w' o :
  fetchFile fuel g c target numLeft w = Some (tt, w', o) ->
  Forall file_effect o
  /\ (foundFile w = true -> foundFile w' = true)
  /\ (foundFile w' = false -> o = [])
  /\ (target = None \/ target = Some [] -> w' = w /\ o = []).
Proof.
  intros Hrun.
  destruct (fetchFile_fetched g fuel c target numLeft w w' o Hrun) as (Ho & Hcase).
  split; [exact Ho|]. split; [|split].
  - intros Hw. destruct Hcase as [(_ & Hsame)|(Htrue & _)]; congruence.
  - intros Hw'. destruct Hcase as [(Hnil & _)|(Htrue & _)]; [exact Hnil|congruence].
  - destruct fuel as [|fuel]; [discriminate|].
    cbn [fetchFile] in Hrun. unfold fetchFile_step in Hrun.
    intros [-> | ->]; cbn in Hrun; inversion Hrun; subst; auto.
Qed.

Lemma fetchFile_writes_files_only_witness :
  exists w' o,
    fetchFile 3 Build.globals 2 (Some (bytes_of_string "BIG.BIN")) 0
              (Build.world Files.two_clusters) = Some (tt, w', o)
    /\ Forall file_effect o
    /\ (foundFile w' = false -> o = []).
Proof.
  destruct (fetchFile 3 Build.globals 2 (Some (bytes_of_string "BIG.BIN")) 0
              (Build.world Files.two_clusters)) as [[[[] w'] o]|] eqn:Hrun;
    [|vm_compute in Hrun; discriminate].
  exists w', o. split; [reflexivity|].
  destruct (fetchFile_writes_files_only _ _ _ _ _ _ _ _ Hrun) as (Ho & _ & Hnil & _).
  split; assumption.
Defined.

(** *** The shape of the path given to get *)

Lemma count_slashes_from s : forall acc,
  fold_left (fun count c => count + (if c =? SLASH then 1 else 0)) s acc
  = acc + count_slashes s.
Proof.
  unfold count_slashes. induction s as [|c s IH]; intros acc; cbn [fold_left].
  - lia.
  - rewrite IH, (IH (0 + _)). lia.
Qed.

Lemma count_slashes_cons c s :
  count_slashes (c :: s) = (if c =? SLASH then 1 else 0) + count_slashes s.
Proof.
  unfold count_slashes at 1. cbn [fold_left]. rewrite count_slashes_from. lia.
Qed.

Lemma count_slashes_app a b :
  count_slashes (a ++ b) = count_slashes a + count_slashes b.
Proof.
  induction a as [|c a IH]; [reflexivity|].
  cbn [app]. rewrite !count_slashes_cons, IH. lia.
Qed.

Lemma count_tokens_from_le s : forall inside,
  Z.of_nat (count_tokens_from inside s)
  <= (if inside then 0 else 1) + count_slashes s.
Proof.
  induction s as [|c s IH]; intros inside; cbn [count_tokens_from].
  - destruct inside; cbn; lia.
  - rewrite count_slashes_cons. destruct (c =? SLASH).
    + specialize (IH false). destruct inside; lia.
    + specialize (IH true). cbn beta iota in IH. destruct inside; lia.
Qed.

Lemma count_tokens_from_trailing s : forall inside,
  count_tokens_from inside (s ++ [SLASH]) = count_tokens_from inside s.
Proof.
  induction s as [|c s IH]; intros inside; cbn [app count_tokens_from].
  - reflexivity.
  - destruct (c =? SLASH); rewrite IH; reflexivity.
Qed.

(** X8.  The number of '/' in the path is the number of directories that
    get goes down before it looks for the file, and every step down takes
    one component off the path.  So get cannot find anything unless the path
    has more components than slashes: whenever it returns on a path that
    has not, it reports that the file could not be found and has written
    nothing.  A path that starts or ends with '/' is such a path. *)
Theorem get_needs_more_components_than_slashes g fuel prog img path w status w' o :
  Z.of_nat (count_tokens (bytes_of_string path))
  <= count_slashes (bytes_of_string path) ->
  run_command fuel g [prog; img; "get"%string; path] w = Some (status, w', o) ->
  (status = EXIT_FAILURE
   /\ o = [Printf "Error, file could not be found. Exiting."]
   /\ foundFile w' = false)
  /\ (forall s, Z.of_nat (count_tokens (SLASH :: s)) <= count_slashes (SLASH :: s))
  /\ (forall s, Z.of_nat (count_tokens (s ++ [SLASH])) <= count_slashes (s ++ [SLASH])).
Proof.
  intros Hshape Hrun. split; [|split].
  - unfold run_command in Hrun.
    cbn [nth length String.eqb Ascii.eqb Bool.eqb Z.of_nat Pos.of_succ_nat
         Pos.succ Z.eqb Pos.eqb negb] in Hrun.
    apply bind_Some in Hrun. destruct Hrun as (tok & w1 & o1 & o2 & Htok & Hrun & ->).
    unfold strtok in Htok.
    destruct (strtok_from (bytes_of_string path)) as [tok' rest] eqn:Hfrom.
    inversion Htok; subst tok' w1 o1. clear Htok.
    pose proof (strtok_from_count _ _ _ Hfrom) as Hcount.
    apply bind_Some in Hrun. destruct Hrun as ([] & w2 & o2' & o3 & Hset & Hrun & ->).
    inversion Hset; subst w2 o2'. clear Hset.
    apply bind_Some in Hrun. destruct Hrun as ([] & w3 & o3' & o4 & Hfetch & Hrun & ->).
    destruct (fetchFile_fetched _ _ _ _ _ _ _ _ Hfetch) as (_ & Hcase).
    cbn [foundFile strtok_save] in Hcase.
    destruct Hcase as [(-> & Hfalse)|(_ & Hsome & Hbound)].
    + apply bind_Some in Hrun. destruct Hrun as (found & w4 & o5 & o6 & Hget & Hrun & ->).
      inversion Hget; subst found w4 o5. clear Hget. rewrite Hfalse in Hrun.
      inversion Hrun; subst. auto.
    + exfalso. destruct tok as [tk|]; [|congruence]. lia.
  - intros s. unfold count_tokens. cbn [count_tokens_from].
    rewrite count_slashes_cons. change (SLASH =? SLASH) with true. cbn beta iota.
    pose proof (count_tokens_from_le s false). cbn beta iota in *. lia.
  - intros s. unfold count_tokens. rewrite count_tokens_from_trailing, count_slashes_app.
    pose proof (count_tokens_from_le s false).
    change (count_slashes [SLASH]) with 1. cbn beta iota in *. lia.
Qed.

Lemma get_needs_more_components_than_slashes_witness :
  exists w',
    run_command 3 Build.globals ["fat32"; "volume.img"; "get"; "/BIG.BIN"]%string
                (Build.world Files.two_clusters)
    = Some (EXIT_FAILURE, w', [Printf "Error, file could not be found. Exiting."])
    /\ foundFile w' = false.
Proof.
  destruct (run_command 3 Build.globals
              ["fat32"; "volume.img"; "get"; "/BIG.BIN"]%string
              (Build.world Files.two_clusters)) as [[[status w'] o]|] eqn:Hrun;
    [|vm_compute in Hrun; discriminate].
  destruct (get_needs_more_components_than_slashes
              Build.globals 3 "fat32"%string "volume.img"%string "/BIG.BIN"%string
              (Build.world Files.two_clusters) status w' o
              ltac:(vm_compute; discriminate) Hrun) as ((-> & -> & Hf) & _).
  exists w'. split; [reflexivity|exact Hf].
Defined.

(** ** get takes the first entry that matches *)

Section FirstMatch.

Variable g : Globals.
Hypothesis Hg : Globals_ok g.
Hypothesis Hbpc : 0 < bytesPerCluster g.
Variable fuel : nat.
Variable rec : Z -> option (list Z) -> Z -> M unit.
Variable t : list Z.

Lemma fetchFile_loop_passes c n : forall m i w,
  0 <= i ->
  passes_slots g (fd_image w) t c n i = true ->
  exists w1,
    fetchFile_loop g fuel rec c 0 (n + m) i t w
    = fetchFile_loop g fuel rec c 0 m (i + Z.of_nat n) t w1
    /\ fd_image w1 = fd_image w /\ foundFile w1 = foundFile w
    /\ strtok_save w1 = strtok_save w.
Proof.
  induction n as [|n IH]; intros m i w Hi Hpass.
  - exists w. rewrite Z.add_0_r. auto.
  - cbn [passes_slots] in Hpass.
    destruct (slot_bytes g (fd_image w) c i) as [buf|] eqn:Hbuf; [|discriminate].
    apply andb_true_iff in Hpass. destruct Hpass as [Hp Hrest].
    unfold passes in Hp. apply andb_true_iff in Hp. destruct Hp as [Hend Hnot].
    apply negb_true_iff in Hend. apply negb_true_iff in Hnot.
    assert (Hnone : ~ file_named g (fd_image w) t c i).
    { intros (buf' & Hb' & H0 & H5 & Hfile & Hname).
      rewrite Hbuf in Hb'. inversion Hb'; subst buf'. clear Hb'.
      unfold first_byte in Hnot.
      destruct (Z.eqb_spec (nth 0 (dir_name (decode_DirInfo buf)) 0) 0xE5);
        [contradiction|].
      rewrite Hfile, (proj2 (bytes_eqb_eq _ _) Hname) in Hnot. discriminate. }
    cbn [Nat.add fetchFile_loop].
    rewrite (bind_silent _ _ _ _ w _ _
               (fetchFile_slot_no_match g Hg t fuel rec c i buf w Hi Hbuf Hnone)).
    unfold first_byte in Hend. rewrite Hend.
    destruct (IH m (i + 1) (with_offset w (slotOffset g c i + Z.of_nat sizeof_DirInfo))
                ltac:(lia) Hrest) as (w1 & Hloop & Himg & Hff & Hsave).
    exists w1. rewrite Hloop. replace (i + 1 + Z.of_nat n) with (i + Z.of_nat (S n)) by lia.
    auto.
Qed.

Lemma fetchFile_loop_first_match c i buf w :
  (i < Z.to_nat (entriesPerCluster g))%nat ->
  passes_slots g (fd_image w) t c i 0 = true ->
  slot_bytes g (fd_image w) c (Z.of_nat i) = Some buf ->
  first_byte (decode_DirInfo buf) <> 0x00 ->
  first_byte (decode_DirInfo buf) <> 0xE5 ->
  is_file (dir_attr (decode_DirInfo buf)) = true ->
  t = fullName_of (decode_DirInfo buf) ->
  0 <= dir_file_size (decode_DirInfo buf) ->
  chain_ok g (fd_image w) (first_cluster (decode_DirInfo buf))
           (clusters_needed (dir_file_size (decode_DirInfo buf))
                            (bytesPerCluster g)) = true ->
  (clusters_needed (dir_file_size (decode_DirInfo buf)) (bytesPerCluster g)
   <= fuel)%nat ->
  exists w' chunks,
    fetchFile_loop g fuel rec c 0 (Z.to_nat (entriesPerCluster g)) 0 t w
    = Some ((Some t, true), w',
            [Fopen (destination_of (givenName_of (decode_DirInfo buf))
                                   (rawExtension_of (decode_DirInfo buf)))]
            ++ map Fwrite chunks ++ [Fclose])
    /\ concat chunks
       = firstn (Z.to_nat (dir_file_size (decode_DirInfo buf)))
           (concat (chain_chunks g (fd_image w)
                      (first_cluster (decode_DirInfo buf))
                      (clusters_needed (dir_file_size (decode_DirInfo buf))
                                       (bytesPerCluster g))))
    /\ foundFile w' = true /\ fd_image w' = fd_image w.
Proof.
  intros Hin Hpass Hbuf H0 H5 Hfile Hname Hsize Hchain Hfuel.
  set (d := decode_DirInfo buf) in *.
  destruct (fetchFile_loop_passes c i (Z.to_nat (entriesPerCluster g) - i) 0 w
              ltac:(lia) Hpass) as (w1 & Hloop & Himg1 & Hff1 & Hsave1).
  replace (i + (Z.to_nat (entriesPerCluster g) - i))%nat
    with (Z.to_nat (entriesPerCluster g)) in Hloop by lia.
  destruct (Z.to_nat (entriesPerCluster g) - i)%nat as [|m] eqn:Hm; [lia|].
  cbn [fetchFile_loop] in Hloop. rewrite Z.add_0_l in Hloop.
  unfold slot_bytes in Hbuf. unfold first_byte in H0, H5.
  apply Z.eqb_neq in H0. apply Z.eqb_neq in H5.
  set (w2 := with_offset w1 (slotOffset g c (Z.of_nat i) + Z.of_nat sizeof_DirInfo)).
  set (w3 := mkWorld (fd_image w2) (fd_flags w2) (fd_offset w2) (strtok_save w2) true).
  assert (Himg3 : fd_image w3 = fd_image w) by exact Himg1.
  rewrite <- Himg3 in Hchain.
  destruct (copyFile_loop_exact g Hg Hbpc fuel (dir_file_size d) (first_cluster d)
              w3 Hsize Hchain Hfuel) as (w4 & chunks & Hcopy & Hbytes & _ & _).
  pose proof (copyFile_run fuel g d (first_cluster d) (givenName_of d)
                (rawExtension_of d) w3 w4 _ Hcopy) as Hcopy'.
  pose proof (found_copyFile_loop _ _ _ _ _ _ _ _ Hcopy) as Hff4.
  pose proof (proj1 (keeps_copyFile _ _ _ _ _ _ _ _ _ _ Hcopy')) as Himg4.
  assert (Hslot : fetchFile_slot g fuel rec c 0 (Z.of_nat i) t w1
                  = Some ((Some t, true, true), w4,
                          [Fopen (destination_of (givenName_of d) (rawExtension_of d))]
                          ++ map Fwrite chunks ++ [Fclose])).
  { unfold fetchFile_slot.
    rewrite (seek_read_run _ _ _ _ w1
               (slotOffset_nonneg g c (Z.of_nat i) Hg ltac:(lia))).
    rewrite Himg1, Hbuf. fold d. rewrite H0, H5, Hfile. cbn [Z.eqb negb andb].
    change (removeTrailingSpace (cstr (slice (dir_name d) 0 8))) with (givenName_of d).
    change (cstr (slice (dir_name d) 8 3)) with (rawExtension_of d).
    change (givenName_of d ++ [DOT] ++ rawExtension_of d) with (fullName_of d).
    unfold strcmp0. rewrite (proj2 (bytes_eqb_eq _ _) Hname).
    fold w2.
    rewrite (bind_silent _ _ (set_foundFile true) _ w2 tt w3 eq_refl).
    rewrite (bind_run _ _ _ _ w3 _ _ _ Hcopy').
    unfold ret. rewrite app_nil_r. reflexivity. }
  rewrite (bind_run _ _ _ _ w1 _ _ _ Hslot) in Hloop.
  unfold ret in Hloop. rewrite app_nil_r in Hloop.
  exists w4, chunks. split; [exact Hloop|]. split; [|split].
  - rewrite Hbytes, Himg3. reflexivity.
  - exact Hff4.
  - congruence.
Qed.

End FirstMatch.

Lemma fetchFile_first_match g (Hg : Globals_ok g) (Hbpc : 0 < bytesPerCluster g)
    fuel t c i buf v w :
  (i < Z.to_nat (entriesPerCluster g))%nat ->
  passes_slots g (fd_image w) t c i 0 = true ->
  slot_bytes g (fd_image w) c (Z.of_nat i) = Some buf ->
  first_byte (decode_DirInfo buf) <> 0x00 ->
  first_byte (decode_DirInfo buf) <> 0xE5 ->
  is_file (dir_attr (decode_DirInfo buf)) = true ->
  t = fullName_of (decode_DirInfo buf) ->
  0 <= dir_file_size (decode_DirInfo buf) ->
  chain_ok g (fd_image w) (first_cluster (decode_DirInfo buf))
           (clusters_needed (dir_file_size (decode_DirInfo buf))
                            (bytesPerCluster g)) = true ->
  fat_value g (fd_image w) c = Some v ->
  (clusters_needed (dir_file_size (decode_DirInfo buf)) (bytesPerCluster g)
   <= fuel)%nat ->
  exists w' chunks,
    fetchFile (S fuel) g c (Some t) 0 w
    = Some (tt, w',
            [Fopen (destination_of (givenName_of (decode_DirInfo buf))
                                   (rawExtension_of (decode_DirInfo buf)))]
            ++ map Fwrite chunks ++ [Fclose])
    /\ concat chunks
       = firstn (Z.to_nat (dir_file_size (decode_DirInfo buf)))
           (concat (chain_chunks g (fd_image w)
                      (first_cluster (decode_DirInfo buf))
                      (clusters_needed (dir_file_size (decode_DirInfo buf))
                                       (bytesPerCluster g))))
    /\ foundFile w' = true /\ fd_image w' = fd_image w.
Proof.
  intros Hin Hpass Hbuf H0 H5 Hfile Hname Hsize Hchain Hfat Hfuel.
  cbn [fetchFile]. unfold fetchFile_step.
  assert (Hlen : (length t =? 0)%nat = false).
  { apply Nat.eqb_neq. rewrite Hname. unfold fullName_of.
    rewrite !length_app. cbn [length]. lia. }
  rewrite Hlen.
  destruct (fetchFile_loop_first_match g Hg Hbpc fuel (fetchFile fuel g) t c i buf w
              Hin Hpass Hbuf H0 H5 Hfile Hname Hsize Hchain Hfuel)
    as (w4 & chunks & Hloop & Hbytes & Hff4 & Himg4).
  rewrite (bind_run _ _ _ _ w _ _ _ Hloop).
  rewrite <- Himg4 in Hfat.
  match goal with
  | |- context [bind (getNextFatValue g c) ?kk w4] =>
      destruct (getNextFatValue_run _ g c kk w4 v Hg Hfat)
        as (w5 & Himg5 & _ & Hff5 & _ & Hrun)
  end.
  rewrite Hrun. cbn [negb andb]. unfold ret. rewrite app_nil_r.
  exists w5, chunks. split; [reflexivity|]. split; [exact Hbytes|]. split; congruence.
Qed.

(** X9.  get with the name of a file of the root directory: when the entries
    before slot [i] of the first root cluster are read and passed over (none
    is the end marker, none is a visible file of that name), slot [i] holds
    a live visible file of that name whose chain is intact, and the FAT slot
    of the directory's cluster can be read, then the program creates
    output/<name>, writes the first [dir_file_size] bytes of the file's
    chain, closes the file, reports the copy and ends with status 0.  The
    slots after [i] and the later clusters of the directory are not looked
    at: nothing about them is assumed. *)
Theorem get_copies_the_first_match g fuel prog img path i buf v w :
  Globals_ok g -> 0 < bytesPerCluster g ->
  Forall (fun ch => ch <> SLASH) (bytes_of_string path) ->
  (i < Z.to_nat (entriesPerCluster g))%nat ->
  passes_slots g (fd_image w) (bytes_of_string path)
               (Z.land (BPB_RootClus (bootSector g)) MASK_FIRST_HEX) i 0 = true ->
  slot_bytes g (fd_image w) (Z.land (BPB_RootClus (bootSector g)) MASK_FIRST_HEX)
             (Z.of_nat i) = Some buf ->
  first_byte (decode_DirInfo buf) <> 0x00 ->
  first_byte (decode_DirInfo buf) <> 0xE5 ->
  is_file (dir_attr (decode_DirInfo buf)) = true ->
  bytes_of_string path = fullName_of (decode_DirInfo buf) ->
  0 <= dir_file_size (decode_DirInfo buf) ->
  chain_ok g (fd_image w) (first_cluster (decode_DirInfo buf))
           (clusters_needed (dir_file_size (decode_DirInfo buf))
                            (bytesPerCluster g)) = true ->
  fat_value g (fd_image w) (Z.land (BPB_RootClus (bootSector g)) MASK_FIRST_HEX)
  = Some v ->
  (clusters_needed (dir_file_size (decode_DirInfo buf)) (bytesPerCluster g)
   <= fuel)%nat ->
  exists w' chunks,
    run_command (S fuel) g [prog; img; "get"%string; path] w
    = Some (EXIT_SUCCESS, w',
            [Fopen (destination_of (givenName_of (decode_DirInfo buf))
                                   (rawExtension_of (decode_DirInfo buf)))]
            ++ map Fwrite chunks
            ++ [Fclose; Printf "File copied into output folder."; Printf "Done"])
    /\ concat chunks
       = firstn (Z.to_nat (dir_file_size (decode_DirInfo buf)))
           (concat (chain_chunks g (fd_image w)
                      (first_cluster (decode_DirInfo buf))
                      (clusters_needed (dir_file_size (decode_DirInfo buf))
                                       (bytesPerCluster g))))
    /\ fd_image w' = fd_image w.
Proof.
  intros Hg Hbpc Hpath Hin Hpass Hbuf H0 H5 Hfile Hname Hsize Hchain Hfat Hfuel.
  unfold run_command.
  cbn [nth length String.eqb Ascii.eqb Bool.eqb Z.of_nat Pos.of_succ_nat
       Pos.succ Z.eqb Pos.eqb negb].
  unfold strtok. unfold bind at 1.
  rewrite (strtok_from_no_slash _ Hpath), (count_slashes_no_slash _ Hpath).
  destruct (bytes_of_string path) as [|ch s] eqn:Hp.
  { exfalso. unfold fullName_of in Hname. destruct (givenName_of _); discriminate. }
  rewrite <- Hp in *.
  match goal with
  | |- context [bind (set_foundFile false) ?kk ?ww] =>
      rewrite (bind_silent _ _ (set_foundFile false) kk ww tt
                 (mkWorld (fd_image w) (fd_flags w) (fd_offset w) [] false))
        by reflexivity
  end.
  set (wm := mkWorld (fd_image w) (fd_flags w) (fd_offset w) [] false).
  destruct (fetchFile_first_match g Hg Hbpc fuel (bytes_of_string path)
              _ i buf v wm Hin Hpass Hbuf H0 H5 Hfile Hname Hsize Hchain Hfat Hfuel)
    as (w' & chunks & Hrun & Hbytes & Hff & Himg).
  rewrite (bind_run _ _ _ _ wm _ _ _ Hrun).
  unfold get_foundFile. unfold bind at 1. rewrite Hff.
  unfold bind, emit, ret. cbv beta iota.
  exists w', chunks. split; [|split; [exact Hbytes|exact Himg]].
  rewrite <- !app_assoc. reflexivity.
Qed.

Lemma get_copies_the_first_match_witness :
  exists w',
    run_command 1 Build.globals ["fat32"; "volume.img"; "get"; "README.TXT"]%string
                (Build.world Names.short_extensions)
    = Some (EXIT_SUCCESS, w',
            [Fopen (bytes_of_string "output/README.TXT"); Fclose;
             Printf "File copied into output folder."; Printf "Done"]).
Proof.
  assert (Hg : Globals_ok Build.globals) by (unfold Globals_ok; simpl; lia).
  destruct (get_copies_the_first_match Build.globals 0 "fat32"%string
              "volume.img"%string "README.TXT"%string 2
              (Build.short_entry "README  TXT" 0x20 0 0) Examples.END
              (Build.world Names.short_extensions) Hg eq_refl
              ltac:(repeat constructor; vm_compute; discriminate)
              ltac:(vm_compute; lia) eq_refl eq_refl
              ltac:(vm_compute; discriminate) ltac:(vm_compute; discriminate)
              eq_refl eq_refl ltac:(vm_compute; discriminate) eq_refl eq_refl
              ltac:(vm_compute; lia))
    as (w' & chunks & Hrun & Hbytes & _).
  exists w'. rewrite Hrun.
  destruct chunks as [|ch chunks]; [reflexivity|].
  exfalso. vm_compute in Hrun. discriminate.
Defined.

(** ** Entries of the wrong kind *)

(** X10.  fetchFile never takes an entry of the wrong kind, whatever its
    name.  While directories remain to be gone down ([numLeft] is not 0) a
    file is passed over; when the file itself is looked for ([numLeft] is 0)
    a directory is passed over and not entered; a deleted entry and a
    hidden, system or volume-label entry are passed over in both cases.
    Passing over reads the slot and does nothing else: no name is compared,
    [strtok] is not called, there is no recursive call. *)
Theorem fetchFile_skips_the_wrong_kind g fuel rec c numLeft i target buf w :
  Globals_ok g -> 0 <= i ->
  slot_bytes g (fd_image w) c i = Some buf ->
  first_byte (decode_DirInfo buf) <> 0x00 ->
  first_byte (decode_DirInfo buf) = 0xE5
  \/ is_unlisted (dir_attr (decode_DirInfo buf)) = true
  \/ (numLeft <> 0 /\ is_file (dir_attr (decode_DirInfo buf)) = true)
  \/ (numLeft = 0 /\ is_directory (dir_attr (decode_DirInfo buf)) = true) ->
  fetchFile_slot g fuel rec c numLeft i target w
  = Some ((Some target, false, false),
          with_offset w (slotOffset g c i + Z.of_nat sizeof_DirInfo), []).
Proof.
  intros Hg Hi Hbuf H0 Hkind. unfold fetchFile_slot.
  rewrite (seek_read_run _ _ _ _ w (slotOffset_nonneg g c i Hg Hi)).
  unfold slot_bytes in Hbuf. rewrite Hbuf.
  set (d := decode_DirInfo buf) in *. unfold first_byte in *.
  apply Z.eqb_neq in H0. rewrite H0.
  destruct (Z.eqb_spec (nth 0 (dir_name d) 0) 0xE5) as [|H5]; [reflexivity|].
  cbn [negb].
  destruct Hkind as [Hdel|[Hun|[(Hnl & Hfile)|(Hnl & Hdir)]]].
  - contradiction.
  - unfold is_unlisted in Hun.
    destruct (is_directory (dir_attr d)), (is_file (dir_attr d));
      rewrite ?andb_false_r in *; cbn [negb andb] in *;
      try discriminate; rewrite ?andb_false_r; reflexivity.
  - rewrite (file_not_directory _ Hfile), andb_false_r.
    apply Z.eqb_neq in Hnl. rewrite Hnl. reflexivity.
  - subst numLeft. rewrite (directory_not_file _ Hdir). reflexivity.
Qed.

Lemma fetchFile_skips_the_wrong_kind_witness :
  fetchFile_slot Build.globals 3 (fetchFile 3 Build.globals) 2 0 1
    (bytes_of_string "SUB") (Build.world Walks.hidden_and_dots)
  = Some ((Some (bytes_of_string "SUB"), false, false),
          with_offset (Build.world Walks.hidden_and_dots) (1536 + 64), []).
Proof.
  assert (Hg : Globals_ok Build.globals) by (unfold Globals_ok; simpl; lia).
  apply (fetchFile_skips_the_wrong_kind Build.globals 3 (fetchFile 3 Build.globals)
           2 0 1 (bytes_of_string "SUB") (Build.short_entry "SUB        " 0x10 3 0)
           (Build.world Walks.hidden_and_dots) Hg ltac:(lia) eq_refl
           ltac:(vm_compute; discriminate)).
  right. right. right. split; reflexivity.
Defined.

(** ** main, once the volume has passed the checks *)

Lemma printInfo_run g w :
  BPB_BytesPerSec (bootSector g) * BPB_SecPerClus (bootSector g) <= INT_MAX ->
  printInfo g w
  = Some (tt, w,
          [PrintStr "Drive name: " (cstr (BS_VolLab (bootSector g)));
           PrintStr "OEM name: " (cstr (BS_OEMName (bootSector g)));
           PrintNum "Free space is KB"
             (wrap32 (wrap32 (free_count (infoSector g)
                              * BPB_BytesPerSec (bootSector g))
                      * BPB_SecPerClus (bootSector g)) / BYTES_PER_KB);
           PrintNum "Total space is KB"
             (wrap32 (BPB_TotSec32 (bootSector g) * BPB_BytesPerSec (bootSector g))
              / BYTES_PER_KB);
           PrintNum "Total usable space KB"
             (wrap32 (wrap32 (BPB_TotSec32 (bootSector g)
                              - BPB_RsvdSecCnt (bootSector g)
                              - wrap32 (BPB_FATSz32 (bootSector g)
                                        * BPB_NumFATs (bootSector g)))
                      * BPB_BytesPerSec (bootSector g)) / BYTES_PER_KB);
           PrintNum "Cluster size in sectors" (BPB_SecPerClus (bootSector g));
           PrintNum "Cluster size is bytes"
             (BPB_BytesPerSec (bootSector g) * BPB_SecPerClus (bootSector g))]).
Proof.
  intros Hmul. unfold printInfo. rewrite int_mul_run by exact Hmul. reflexivity.
Qed.

Lemma wrap32_in_KB z : 0 <= wrap32 z / BYTES_PER_KB < 4194304.
Proof.
  unfold wrap32, BYTES_PER_KB.
  pose proof (Z.mod_pos_bound z 4294967296 ltac:(lia)) as Hz.
  split.
  - apply Z.div_pos; lia.
  - apply Z.div_lt_upper_bound; lia.
Qed.






